(** * Deck Design Detective

    A shallow embedding of the three TypeScript modules that make up the
    core of the application:

    - [rules-parser.ts]   : free-text design rules -> [DesignRule] records,
    - [pptx-parser.ts]    : a .pptx package -> [ParsedPresentation],
    - [rule-validator.ts] : slides x rules -> [Violation] records.

    JavaScript values are modelled as follows.
    - A [string] is a Rocq [string]; the model is exact on ASCII text
      (characters above 127 are kept as they are, they are neither white
      space nor letters with a case).
    - A [number] is [NaN] or an exact rational: the numbers the program
      builds are the results of [parseInt] and of [parseInt(..) / 100],
      and they are only compared, tested for truthiness and printed.
      This is what JavaScript computes for integers of at most 15 digits
      and their hundredths; beyond 2^53 JavaScript rounds, and it has
      [Infinity], which the model does not follow.
    - An array is a [list]; [forEach] with [push] is a [flat_map].
    - An optional field [f?: T] is an [option T]; [undefined] is [None].
    - A thrown exception / rejected promise is the [Err] case of [Result];
      [await] is the bind of that monad. *)

From Stdlib Require Import String Ascii List ZArith QArith Lia Bool DecimalString Sorted.
From Stdlib Require Import DecimalZ DecimalPos Permutation.
Import ListNotations.

Open Scope string_scope.
Open Scope list_scope.
Open Scope Z_scope.

Notation "a +++ b" := (String.append a b) (at level 60, right associativity).

(* ===================================================================== *)
(** ** JavaScript primitives used by the three modules *)
(* ===================================================================== *)

Module Js.

(** *** Characters and strings *)

Definition isUpper (c : ascii) : bool :=
  ((65 <=? N_of_ascii c) && (N_of_ascii c <=? 90))%N.

Definition lowerChar (c : ascii) : ascii :=
  if isUpper c then ascii_of_N (N_of_ascii c + 32) else c.

(** [String.prototype.toLowerCase] *)
Fixpoint toLowerCase (s : string) : string :=
  match s with
  | EmptyString => EmptyString
  | String c s' => String (lowerChar c) (toLowerCase s')
  end.

(** The class [\s], which is also what [trim] removes:
    TAB, LF, VT, FF, CR and SPACE. *)
Definition isSpace (c : ascii) : bool :=
  let n := N_of_ascii c in
  ((n =? 32) || ((9 <=? n) && (n <=? 13)))%N.

(** The class [\d]. *)
Definition isDigit (c : ascii) : bool :=
  ((48 <=? N_of_ascii c) && (N_of_ascii c <=? 57))%N.

Fixpoint trimStart (s : string) : string :=
  match s with
  | EmptyString => EmptyString
  | String c s' => if isSpace c then trimStart s' else s
  end.

Fixpoint trimEnd (s : string) : string :=
  match s with
  | EmptyString => EmptyString
  | String c s' =>
      match trimEnd s' with
      | EmptyString => if isSpace c then EmptyString else String c EmptyString
      | r => String c r
      end
  end.

(** [String.prototype.trim] *)
Definition trim (s : string) : string := trimEnd (trimStart s).

(** [String.prototype.startsWith] *)
Definition startsWith (s p : string) : bool := String.prefix p s.

(** [String.prototype.includes]: [sub] occurs somewhere in [s]. *)
Fixpoint includes (s sub : string) : bool :=
  String.prefix sub s ||
  match s with
  | EmptyString => false
  | String _ s' => includes s' sub
  end.

(** [String.prototype.endsWith] *)
Fixpoint endsWith (s p : string) : bool :=
  (s =? p)%string ||
  match s with
  | EmptyString => false
  | String _ s' => endsWith s' p
  end.

(** [s.substring(0, n)] *)
Definition substring0 (n : nat) (s : string) : string := String.substring 0 n s.

(** [Array.prototype.join] *)
Definition join (sep : string) (l : list string) : string := String.concat sep l.

(** The string made of one double quote character. *)
Definition dquote : string := String (ascii_of_N 34) EmptyString.

(** A string is truthy when it is not empty. *)
Definition truthyString (s : string) : bool := negb (s =? "")%string.

(** *** Numbers *)

Inductive number : Type :=
| NaN : number
| Num : Q -> number.

Definition ofZ (z : Z) : number := Num (inject_Z z).

(** A number is truthy when it is neither [0] nor [NaN]. *)
Definition truthyNumber (n : number) : bool :=
  match n with
  | NaN => false
  | Num q => negb (Qeq_bool q 0)
  end.

(** [a < b]; every comparison with [NaN] is false. *)
Definition lt (a b : number) : bool :=
  match a, b with
  | Num x, Num y => negb (Qle_bool y x)
  | _, _ => false
  end.

(** [a > b] *)
Definition gt (a b : number) : bool := lt b a.

(** [a - b] *)
Definition sub (a b : number) : number :=
  match a, b with
  | Num x, Num y => Num (Qred (x - y))
  | _, _ => NaN
  end.

(** [a / b] for a non-zero constant divisor [b]. *)
Definition divBy (a : number) (b : positive) : number :=
  match a with
  | NaN => NaN
  | Num q => Num (Qred (q / inject_Z (Zpos b)))
  end.

Definition Z_toString (z : Z) : string := NilZero.string_of_int (Z.to_int z).

Fixpoint fracDigits (fuel : nat) (r d : Z) : string :=
  match fuel with
  | O => ""
  | S fuel' =>
      if r =? 0 then ""
      else Z_toString ((r * 10) / d) +++ fracDigits fuel' ((r * 10) mod d) d
  end.

(** Number-to-string conversion, as a template literal performs it:
    integers print as decimal integers, other values print their decimal
    expansion (exact for the hundredths that [extractFontSize] builds). *)
Definition numberToString (n : number) : string :=
  match n with
  | NaN => "NaN"
  | Num q =>
      let q' := Qred q in
      let a := Z.abs (Qnum q') in
      let d := Zpos (Qden q') in
      (if Qnum q' <? 0 then "-" else "") +++
      Z_toString (a / d) +++
      (if a mod d =? 0 then "" else "." +++ fracDigits 20 (a mod d) d)
  end.

(** *** Truthiness of optional values *)

Definition truthyOptString (o : option string) : bool :=
  match o with Some s => truthyString s | None => false end.

Definition truthyOptNumber (o : option number) : bool :=
  match o with Some n => truthyNumber n | None => false end.

(** [xs || []] for an optional array [xs] (an array is always truthy). *)
Definition orEmpty {A : Type} (o : option (list A)) : list A :=
  match o with Some l => l | None => [] end.

(** [Array.prototype.includes] on an array of strings. *)
Definition arrayIncludes (l : list string) (x : string) : bool :=
  existsb (fun y => (y =? x)%string) l.

End Js.

(* ===================================================================== *)
(** ** Regular expressions

    The regular expressions of the sources use literals, the classes
    [\s], [\d], [[^.]] and [[,&]], greedy [*], [+] and [?], the lazy [+?],
    alternation, one capture group and the anchors [^] and [$].  The
    matcher below is the backtracking matcher of JavaScript restricted to
    these forms: alternatives are tried left to right, greedy repetitions
    try the longest repetition first, lazy ones the shortest. *)
(* ===================================================================== *)

Module Regex.
Import Js.

Inductive regex : Type :=
| Lit      : string -> regex            (* literal text *)
| Class    : (ascii -> bool) -> regex   (* one character of a class *)
| Star     : (ascii -> bool) -> regex   (* c*  *)
| Plus     : (ascii -> bool) -> regex   (* c+  *)
| PlusLazy : (ascii -> bool) -> regex   (* c+? *)
| Opt      : regex -> regex             (* (?:r)? *)
| Alt      : regex -> regex -> regex    (* r1|r2 *)
| Seq      : regex -> regex -> regex    (* r1r2 *)
| Group    : regex -> regex             (* (r), capture group 1 *)
| Bos      : regex                      (* ^ *)
| Eos      : regex.                     (* $ *)

Declare Scope regex_scope.
Delimit Scope regex_scope with re.
Bind Scope regex_scope with regex.
Notation "a >> b" := (Seq a b) (at level 61, right associativity) : regex_scope.
Notation "a || b" := (Alt a b) : regex_scope.

(** Remove the literal [l] from the front of [s]; [ci] is the [/i] flag. *)
Fixpoint stripLit (ci : bool) (l s : string) : option string :=
  match l with
  | EmptyString => Some s
  | String a l' =>
      match s with
      | EmptyString => None
      | String b s' =>
          if (if ci then Ascii.eqb (lowerChar a) (lowerChar b) else Ascii.eqb a b)
          then stripLit ci l' s' else None
      end
  end.

Section Matcher.
Context {R : Type}.

(** The state of a match is the offset [pos] in the input, the rest
    [s] of the input from there, and the text of the capture group. *)
Definition cont : Type := nat -> string -> option string -> option R.

Fixpoint starGreedy (p : ascii -> bool) (pos : nat) (s : string)
         (k : nat -> string -> option R) : option R :=
  match s with
  | String c s' =>
      if p c then
        match starGreedy p (S pos) s' k with
        | Some r => Some r
        | None => k pos s
        end
      else k pos s
  | EmptyString => k pos s
  end.

Fixpoint starLazy (p : ascii -> bool) (pos : nat) (s : string)
         (k : nat -> string -> option R) : option R :=
  match k pos s with
  | Some r => Some r
  | None =>
      match s with
      | String c s' => if p c then starLazy p (S pos) s' k else None
      | EmptyString => None
      end
  end.

Fixpoint run (ci : bool) (r : regex) (pos : nat) (s : string)
         (cap : option string) (k : cont) : option R :=
  match r with
  | Lit l =>
      match stripLit ci l s with
      | Some s' => k (pos + String.length l)%nat s' cap
      | None => None
      end
  | Class p =>
      match s with
      | String c s' => if p c then k (S pos) s' cap else None
      | EmptyString => None
      end
  | Star p => starGreedy p pos s (fun pos' s' => k pos' s' cap)
  | Plus p =>
      match s with
      | String c s' =>
          if p c then starGreedy p (S pos) s' (fun pos' s' => k pos' s' cap)
          else None
      | EmptyString => None
      end
  | PlusLazy p =>
      match s with
      | String c s' =>
          if p c then starLazy p (S pos) s' (fun pos' s' => k pos' s' cap)
          else None
      | EmptyString => None
      end
  | Opt r' =>
      match run ci r' pos s cap k with
      | Some x => Some x
      | None => k pos s cap
      end
  | Alt r1 r2 =>
      match run ci r1 pos s cap k with
      | Some x => Some x
      | None => run ci r2 pos s cap k
      end
  | Seq r1 r2 =>
      run ci r1 pos s cap (fun pos' s' cap' => run ci r2 pos' s' cap' k)
  | Group r' =>
      run ci r' pos s cap
          (fun pos' s' _ => k pos' s' (Some (substring0 (pos' - pos) s)))
  | Bos => if (pos =? 0)%nat then k pos s cap else None
  | Eos => match s with EmptyString => k pos s cap | _ => None end
  end.
End Matcher.

(** The result of a successful match: where it starts, its length, what
    follows it in the input, and the text of capture group 1. *)
Record MatchResult : Type := {
  index    : nat;
  matchLen : nat;
  after    : string;
  group1   : option string
}.

(** A match that starts exactly at offset [pos], where [s] is the input
    from [pos] on. *)
Definition matchAt (ci : bool) (r : regex) (pos : nat) (s : string)
  : option MatchResult :=
  run ci r pos s None
      (fun pos' s' cap =>
         Some {| index := pos; matchLen := (pos' - pos)%nat;
                 after := s'; group1 := cap |}).

Fixpoint execFrom (ci : bool) (r : regex) (pos : nat) (s : string)
  : option MatchResult :=
  match matchAt ci r pos s with
  | Some m => Some m
  | None =>
      match s with
      | String _ s' => execFrom ci r (S pos) s'
      | EmptyString => None
      end
  end.

(** [s.match(r)] for a regular expression without the [g] flag: the
    leftmost match. *)
Definition exec (ci : bool) (r : regex) (s : string) : option MatchResult :=
  execFrom ci r 0 s.

(** [m[1]] *)
Definition capture (m : MatchResult) : string :=
  match group1 m with Some c => c | None => "" end.

(** [s.replace(r, repl)] for a regular expression without the [g] flag. *)
Definition replace (ci : bool) (r : regex) (repl s : string) : string :=
  match exec ci r s with
  | Some m => substring0 (index m) s +++ repl +++ after m
  | None => s
  end.

(** [s.split(r)]: [cur] is the piece being collected, [skip] the number
    of characters of the last separator still to be dropped. *)
Fixpoint splitGo (r : regex) (pos : nat) (s cur : string) (skip : nat)
  : list string :=
  match s with
  | EmptyString => [cur]
  | String c s' =>
      match skip with
      | S skip' => splitGo r (S pos) s' cur skip'
      | O =>
          match matchAt false r pos s with
          | Some m =>
              match matchLen m with
              | S n => cur :: splitGo r (S pos) s' "" n
              | O =>
                  if (cur =? "")%string
                  then splitGo r (S pos) s' (String c "") 0
                  else cur :: splitGo r (S pos) s' (String c "") 0
              end
          | None => splitGo r (S pos) s' (cur +++ String c "") 0
          end
      end
  end.

Definition split (r : regex) (s : string) : list string :=
  match s with
  | EmptyString =>
      match matchAt false r 0 s with Some _ => [] | None => [s] end
  | _ => splitGo r 0 s "" 0
  end.

(** [s.split(sep)] for a one-character separator string. *)
Fixpoint splitChar (sep : ascii) (s cur : string) : list string :=
  match s with
  | EmptyString => [cur]
  | String c s' =>
      if Ascii.eqb c sep then cur :: splitChar sep s' ""
      else splitChar sep s' (cur +++ String c "")
  end.

(** [parseInt(s, 10)], and [parseInt(s)] on a string that does not start
    with [0x]: optional white space, an optional sign, then the longest
    run of decimal digits; [NaN] when there is no digit.

    The value is the integer that the digits write.  That is the number
    JavaScript returns as long as the run has at most 15 digits: every
    integer below 2^53 is a JavaScript number, and 10^15 < 2^53.  A longer
    run is rounded by JavaScript to the nearest double, and to [Infinity]
    from about 309 digits on, which the numbers of this model do not
    follow; the theorems that speak of the value of [parseInt] are stated
    for runs of at most 15 digits. *)
Definition digitVal (c : ascii) : Z := Z.of_N (N_of_ascii c) - 48.

Fixpoint digitsValue (s : string) (acc : option Z) : option Z :=
  match s with
  | String c s' =>
      if isDigit c
      then digitsValue s' (Some (match acc with
                                 | Some a => a * 10 + digitVal c
                                 | None => digitVal c
                                 end))
      else acc
  | EmptyString => acc
  end.

Definition parseInt (s : string) : number :=
  let s1 := trimStart s in
  let '(neg, s2) :=
    match s1 with
    | String "-" r => (true, r)
    | String "+" r => (false, r)
    | _ => (false, s1)
    end in
  match digitsValue s2 None with
  | Some v => ofZ (if neg then - v else v)
  | None => NaN
  end.

End Regex.

(* ===================================================================== *)
(** ** rules-parser.ts *)
(* ===================================================================== *)

Module RulesParser.
Import Js Regex.

Inductive RuleType : Type :=
| Color | FontSize | FontFamily | Image | Text | SlideType | Custom.

Record Parameters : Type := {
  allowedValues : option (list string);
  minValue      : option number;
  maxValue      : option number;
  forbidden     : option (list string);
  slideTypes    : option (list string);
  pattern       : option string
}.

Record DesignRule : Type := {
  id          : string;
  description : string;
  type        : RuleType;
  parameters  : Parameters
}.

(** The object literal [{}]. *)
Definition noParameters : Parameters :=
  {| allowedValues := None; minValue := None; maxValue := None;
     forbidden := None; slideTypes := None; pattern := None |}.

Definition notDot (c : ascii) : bool := negb (Ascii.eqb c ".").
Definition commaOrAmp (c : ascii) : bool := Ascii.eqb c "," || Ascii.eqb c "&".
Definition dashOrStar (c : ascii) : bool := Ascii.eqb c "-" || Ascii.eqb c "*".

(** The regular expression "/allowed?:\s*([^.]+)/i" *)
Definition reAllowedColon : regex :=
  (Lit "allowe" >> Opt (Lit "d") >> Lit ":" >> Star isSpace >>
   Group (Plus notDot))%re.

(** The regular expression "/only\s+([^.]+?)(?:\s+are?\s+allowed|$)/i" *)
Definition reOnly : regex :=
  (Lit "only" >> Plus isSpace >> Group (PlusLazy notDot) >>
   ((Plus isSpace >> Lit "ar" >> Opt (Lit "e") >> Plus isSpace >> Lit "allowed")
    || Eos))%re.

(** The regular expression "/[,&]|\s+and\s+/" *)
Definition reListSep : regex :=
  (Class commaOrAmp || (Plus isSpace >> Lit "and" >> Plus isSpace))%re.

(** The regular expression "/min(?:imum)?\s*(?:is\s*|:\s* )?(\d+)/i" (written here
    with a blank before the closing parenthesis of the optional group) *)
Definition reMin : regex :=
  (Lit "min" >> Opt (Lit "imum") >> Star isSpace >>
   Opt ((Lit "is" >> Star isSpace) || (Lit ":" >> Star isSpace)) >>
   Group (Plus isDigit))%re.

(** The regular expression "/at\s+least\s+(\d+)/i" *)
Definition reAtLeast : regex :=
  (Lit "at" >> Plus isSpace >> Lit "least" >> Plus isSpace >>
   Group (Plus isDigit))%re.

(** The regular expression "/(\d+)\s*(?:pt|px|points?)\s*or\s*higher/i" *)
Definition reOrHigher : regex :=
  (Group (Plus isDigit) >> Star isSpace >>
   (Lit "pt" || (Lit "px" || (Lit "point" >> Opt (Lit "s")))) >>
   Star isSpace >> Lit "or" >> Star isSpace >> Lit "higher")%re.

(** The regular expression "/max(?:imum)?\s*(?:is\s*|:\s* )?(\d+)/i" (written here
    with a blank before the closing parenthesis of the optional group) *)
Definition reMax : regex :=
  (Lit "max" >> Opt (Lit "imum") >> Star isSpace >>
   Opt ((Lit "is" >> Star isSpace) || (Lit ":" >> Star isSpace)) >>
   Group (Plus isDigit))%re.

(** The regular expression "/no\s+more\s+than\s+(\d+)/i" *)
Definition reNoMoreThan : regex :=
  (Lit "no" >> Plus isSpace >> Lit "more" >> Plus isSpace >> Lit "than" >>
   Plus isSpace >> Group (Plus isDigit))%re.

(** The regular expression "/^[-*]\s*/" *)
Definition reBullet : regex := (Bos >> Class dashOrStar >> Star isSpace)%re.

(** "m[1].split(/[,&]|\s+and\s+/).map(s => s.trim()).filter(Boolean)" *)
Definition splitList (s : string) : list string :=
  filter truthyString (map trim (split reListSep s)).

Definition extractAllowedValues (text : string) : list string :=
  match exec true reAllowedColon text with
  | Some colonMatch => splitList (capture colonMatch)
  | None =>
      match exec true reOnly text with
      | Some onlyMatch => splitList (capture onlyMatch)
      | None => []
      end
  end.

Definition extractMinValue (text : string) : option number :=
  match exec true reMin text with
  | Some minMatch => Some (parseInt (capture minMatch))
  | None =>
      match exec true reAtLeast text with
      | Some atLeastMatch => Some (parseInt (capture atLeastMatch))
      | None =>
          match exec true reOrHigher text with
          | Some orHigherMatch => Some (parseInt (capture orHigherMatch))
          | None => None
          end
      end
  end.

Definition extractMaxValue (text : string) : option number :=
  match exec true reMax text with
  | Some maxMatch => Some (parseInt (capture maxMatch))
  | None =>
      match exec true reNoMoreThan text with
      | Some noMoreThanMatch => Some (parseInt (capture noMoreThanMatch))
      | None => None
      end
  end.

Definition extractSlideTypes (text : string) : list string :=
  (if includes text "title slide" then ["title"] else []) ++
  (if includes text "content slide" then ["content"] else []) ++
  (if includes text "all slide" then ["all"] else []).

(** [`rule-${id}`] *)
Definition ruleId (n : Z) : string := "rule-" +++ Z_toString n.

Definition parseRuleText (ruleText : string) (n : Z) : option DesignRule :=
  let cleanText := trim (replace false reBullet "" ruleText) in
  if includes cleanText "text color" && includes cleanText "allowed" then
    let colors := extractAllowedValues cleanText in
    Some {| id := ruleId n; description := cleanText; type := Color;
            parameters := {| allowedValues := Some colors; minValue := None;
                             maxValue := None; forbidden := None;
                             slideTypes := None; pattern := None |} |}
  else if includes cleanText "font size"
          || includes cleanText "title" && includes cleanText "size" then
    let minSize := extractMinValue cleanText in
    let maxSize := extractMaxValue cleanText in
    Some {| id := ruleId n; description := cleanText; type := FontSize;
            parameters := {| allowedValues := None; minValue := minSize;
                             maxValue := maxSize; forbidden := None;
                             slideTypes := None; pattern := None |} |}
  else if (includes cleanText "image" || includes cleanText "picture")
          && (includes cleanText "no " || includes cleanText "not allowed"
              || includes cleanText "forbidden") then
    let slideTypes := extractSlideTypes cleanText in
    Some {| id := ruleId n; description := cleanText; type := Image;
            parameters := {| allowedValues := None; minValue := None;
                             maxValue := None; forbidden := Some ["all"];
                             slideTypes := Some slideTypes; pattern := None |} |}
  else if includes cleanText "font"
          && (includes cleanText "family" || includes cleanText "type") then
    let allowedFonts := extractAllowedValues cleanText in
    Some {| id := ruleId n; description := cleanText; type := FontFamily;
            parameters := {| allowedValues := Some allowedFonts; minValue := None;
                             maxValue := None; forbidden := None;
                             slideTypes := None; pattern := None |} |}
  else if includes cleanText "text" && negb (includes cleanText "color")
          && negb (includes cleanText "size") then
    Some {| id := ruleId n; description := cleanText; type := Text;
            parameters := noParameters |}
  else if (0 <? String.length cleanText)%nat then
    Some {| id := ruleId n; description := cleanText; type := Custom;
            parameters := noParameters |}
  else None.

(** The tokens of [marked.lexer] that [parseMarkdownRules] looks at: a
    list with the text of its items, a paragraph with its text; every
    other kind of token is skipped. *)
Inductive Token : Type :=
| ListToken (items : list string)
| ParagraphToken (text : string)
| OtherToken.

Section ParseMarkdown.
(** [marked.lexer], from the library [marked]. *)
Variable lexer : string -> list Token.

(** The state of the loops: the rules pushed so far and [ruleCounter]. *)
Definition St : Type := (list DesignRule * Z)%type.

Definition pushRule (st : St) (ruleText : string) : St :=
  let '(rules, ruleCounter) := st in
  let ruleCounter' := ruleCounter + 1 in
  match parseRuleText ruleText ruleCounter' with
  | Some rule => (rules ++ [rule], ruleCounter')
  | None => (rules, ruleCounter')
  end.

Definition stepToken (st : St) (token : Token) : St :=
  match token with
  | ListToken items =>
      fold_left (fun st item => pushRule st (trim (toLowerCase item))) items st
  | ParagraphToken text =>
      fold_left
        (fun st line =>
           let ruleText := trim (toLowerCase line) in
           if (0 <? String.length ruleText)%nat then pushRule st ruleText
           else st)
        (splitChar "010" text "") st
  | OtherToken => st
  end.

Definition parseMarkdownRules (markdownText : string) : list DesignRule :=
  fst (fold_left stepToken (lexer markdownText) ([], 0)).
End ParseMarkdown.

End RulesParser.

(* ===================================================================== *)
(** ** pptx-parser.ts *)
(* ===================================================================== *)

Module PptxParser.
Import Js Regex.

(** *** The slide model *)

Record TextRun : Type := {
  content    : string;
  fontSize   : option number;
  fontFamily : option string;
  color      : option string;
  isBold     : option bool;
  isItalic   : option bool
}.

Record ImageRef : Type := { name : string; imageType : string }.

Record ShapeRef : Type := { shapeType : string; text : option string }.

Record Background : Type := {
  bgType  : string;
  bgColor : option string;
  bgImage : option string
}.

Record SlideContent : Type := {
  slideNumber : Z;
  texts       : list TextRun;
  images      : list ImageRef;
  shapes      : list ShapeRef;
  background  : option Background
}.

Record Theme : Type := { colors : list string; fonts : list string }.

Record ParsedPresentation : Type := {
  slides : list SlideContent;
  theme  : option Theme
}.

(** *** Exceptions and promises *)

Inductive Result (A : Type) : Type :=
| Ok  : A -> Result A
| Err : string -> Result A.
Arguments Ok {A} _.
Arguments Err {A} _.

Definition bind {A B : Type} (m : Result A) (f : A -> Result B) : Result B :=
  match m with
  | Ok a => f a
  | Err e => Err e
  end.

Notation "x <- m ;; k" := (bind m (fun x => k))
  (at level 100, m at next level, right associativity).

(** [try { body } catch (error) { throw new Error(msg) }] *)
Definition tryRethrow {A : Type} (body : Result A) (msg : string) : Result A :=
  match body with
  | Ok a => Ok a
  | Err _ => Err msg
  end.

(** *** The tree that the XML parser returns

    An element is an object whose keys are the names of its children
    and, when attributes are kept, its attributes under the prefix
    [@_]; repeated children are an array; text is a string, a number or
    a boolean.  An object is the list of its entries in key order (the
    keys of one object are distinct). *)

#[warnings="-register-all"]
Inductive Node : Type :=
| NString  : string -> Node
| NNumber  : number -> Node
| NBoolean : bool -> Node
| NArray   : list Node -> Node
| NObject  : list (string * Node) -> Node.

Fixpoint lookup (key : string) (entries : list (string * Node)) : option Node :=
  match entries with
  | [] => None
  | (k, v) :: rest => if (k =? key)%string then Some v else lookup key rest
  end.

(** [n?.[key]] for a tag or attribute name [key]: only an object has
    such a property; [None] is [undefined]. *)
Definition prop (key : string) (n : option Node) : option Node :=
  match n with
  | Some (NObject entries) => lookup key entries
  | _ => None
  end.

(** [n?.[0]] *)
Definition first (n : option Node) : option Node :=
  match n with
  | Some (NArray (x :: _)) => Some x
  | Some (NString (String c _)) => Some (NString (String c ""))
  | Some (NObject entries) => lookup "0" entries
  | _ => None
  end.

(** [n?.[key]] where the value goes to a field declared [string]
    ([fontFamily], [color], the colours and fonts of the theme): the
    parser stores attribute values as strings, and a value of another
    kind is outside the declared type of the field. *)
Definition attr (key : string) (n : option Node) : option string :=
  match prop key n with
  | Some (NString s) => Some s
  | _ => None
  end.

Definition truthy (n : option Node) : bool :=
  match n with
  | None => false
  | Some (NString s) => truthyString s
  | Some (NNumber x) => truthyNumber x
  | Some (NBoolean b) => b
  | Some _ => true
  end.

(** [Array.isArray(x) ? x : [x]] *)
Definition asArray (n : Node) : list Node :=
  match n with
  | NArray l => l
  | _ => [n]
  end.

(** The values [x[key]] for the enumerable keys of [x], in order:
    what [for (key in x)] and [Object.values(x)] go through. *)
Fixpoint chars (s : string) : list Node :=
  match s with
  | EmptyString => []
  | String c s' => NString (String c "") :: chars s'
  end.

Definition values (n : Node) : list Node :=
  match n with
  | NObject entries => map snd entries
  | NArray l => l
  | NString s => chars s
  | _ => []
  end.

Fixpoint findElementsRecursive (obj : Node) (tagName : string) : list Node :=
  match obj with
  | NArray l => flat_map (fun x => findElementsRecursive x tagName) l
  | NObject entries =>
      flat_map
        (fun kv =>
           if (fst kv =? tagName)%string then asArray (snd kv)
           else findElementsRecursive (snd kv) tagName)
        entries
  | _ => []
  end.

(** [String(x)]: the conversion that [parseInt] applies to an argument
    that is not a string, and [Array.prototype.join] to each element. *)
Fixpoint toStringNode (n : Node) : string :=
  match n with
  | NString s => s
  | NNumber x => numberToString x
  | NBoolean b => if b then "true" else "false"
  | NArray l => join "," (map toStringNode l)
  | NObject _ => "[object Object]"
  end.

(** [rawSize] is whatever the tree holds under [@_sz]: the test is on its
    truthiness and [parseInt] converts it to a string first. *)
Definition extractFontSize (rPr : option Node) : option number :=
  let rawSize := prop "@_sz" rPr in
  match rawSize with
  | Some raw =>
      if truthy rawSize then Some (divBy (parseInt (toStringNode raw)) 100)
      else None
  | None => None
  end.

Definition extractFontFamily (rPr : option Node) : option string :=
  attr "@_typeface" (prop "a:latin" rPr).

Definition extractColor (rPr : option Node) : option string :=
  attr "@_val" (prop "a:srgbClr" (prop "a:solidFill" rPr)).

Definition eqAttr (key value : string) (n : option Node) : bool :=
  match prop key n with
  | Some (NString s) => (s =? value)%string
  | _ => false
  end.

(** *** The two libraries *)

Record XMLOptions : Type := {
  ignoreAttributes    : bool;
  attributeNamePrefix : string
}.

(** [new XMLParser()] *)
Definition defaultOptions : XMLOptions :=
  {| ignoreAttributes := true; attributeNamePrefix := "@_" |}.

(** [new XMLParser({ ignoreAttributes: false, attributeNamePrefix: "@_" })] *)
Definition slideOptions : XMLOptions :=
  {| ignoreAttributes := false; attributeNamePrefix := "@_" |}.

(** One entry of [zip.files]: its name, whether it is a folder and what
    [async("string")] resolves to. *)
Record ZipObject : Type := {
  fileName    : string;
  dir         : bool;
  asyncString : Result string
}.

Definition JSZip : Type := list ZipObject.

(** [zip.file(path)]: the entry of that name unless it is a folder. *)
Fixpoint zipFile (zip : JSZip) (path : string) : option ZipObject :=
  match zip with
  | [] => None
  | o :: rest =>
      if (fileName o =? path)%string
      then (if dir o then None else Some o)
      else zipFile rest path
  end.

(** The regular expression "/slide(\d+)\.xml/" *)
Definition reSlideIndex : regex :=
  (Lit "slide" >> Group (Plus isDigit) >> Lit ".xml")%re.

(** [parseInt(a.match(/slide(\d+)\.xml/)?.[1] || "0")] *)
Definition slideIndex (a : string) : number :=
  parseInt (match exec false reSlideIndex a with
            | Some m => if truthyString (capture m) then capture m else "0"
            | None => "0"
            end).

(** [Array.prototype.sort(compareFn)], which is stable: an element goes
    before the first one that [compareFn] puts after it. *)
Section Sort.
Context {A : Type}.
Variable compareFn : A -> A -> number.

Fixpoint insert (x : A) (l : list A) : list A :=
  match l with
  | [] => [x]
  | y :: l' => if gt (compareFn y x) (ofZ 0) then x :: l else y :: insert x l'
  end.

Definition sort (l : list A) : list A :=
  fold_left (fun acc x => insert x acc) l [].
End Sort.

Definition PARSE_ERROR : string :=
  "Failed to parse PowerPoint file. Please ensure it is a valid .pptx file.".

Section Parser.
(** [new XMLParser(options).parse(xml)], from fast-xml-parser. *)
Variable XMLParser_parse : XMLOptions -> string -> Result Node.
(** [JSZip.loadAsync(file)], from jszip; a file is its bytes. *)
Variable loadAsync : string -> Result JSZip.

Definition parseXml (xml : string) : Result Node :=
  XMLParser_parse defaultOptions xml.

(** The text runs of one paragraph [p]. *)
Definition paragraphRuns (p : Node) : list TextRun :=
  let runs :=
    match prop "a:r" (Some p) with
    | Some r => if truthy (Some r) then asArray r else []
    | None => []
    end in
  flat_map
    (fun run =>
       let text := prop "a:t" (Some run) in
       let props := prop "a:rPr" (Some run) in
       match text with
       | Some (NString t) =>
           [ {| content := t;
                fontSize := extractFontSize props;
                fontFamily := extractFontFamily props;
                color := extractColor props;
                isBold := Some (eqAttr "@_b" "1" props);
                isItalic := Some (eqAttr "@_i" "1" props) |} ]
       | _ => []
       end)
    runs.

Definition shapeRuns (shape : Node) : list TextRun :=
  let paragraphs := prop "a:p" (prop "p:txBody" (Some shape)) in
  match paragraphs with
  | Some ps =>
      if truthy paragraphs then flat_map paragraphRuns (asArray ps) else []
  | None => []
  end.

Definition parseSlideXml (xmlContent : string) (slideNumber : Z)
  : Result SlideContent :=
  result <- XMLParser_parse slideOptions xmlContent ;;
  let shapes := findElementsRecursive result "p:sp" in
  Ok {| slideNumber := slideNumber;
        texts := flat_map shapeRuns shapes;
        images := [];
        shapes := [];
        background := None |}.

Definition themeColors (result : Node) : list string :=
  let clrScheme :=
    first (prop "a:clrScheme"
             (first (prop "a:themeElements" (prop "a:theme" (Some result))))) in
  match clrScheme with
  | Some cs =>
      if truthy clrScheme then
        flat_map
          (fun entry =>
             match attr "val" (prop "$" (first (prop "a:srgbClr"
                                                  (first (Some entry))))) with
             | Some val => if truthyString val then [val] else []
             | None => []
             end)
          (values cs)
      else []
  | None => []
  end.

(** The local function [extractFonts] of [parseThemeXml]. *)
Definition extractFonts (fontBlock : option Node) : list string :=
  flat_map
    (fun fontArr =>
       match fontArr with
       | NArray l =>
           flat_map
             (fun font =>
                match attr "typeface" (prop "$" (Some font)) with
                | Some face => if truthyString face then [face] else []
                | None => []
                end)
             l
       | _ => []
       end)
    (match fontBlock with
     | Some b => if truthy fontBlock then values b else []
     | None => []
     end).

Definition themeFonts (result : Node) : list string :=
  let fontScheme :=
    first (prop "a:fontScheme"
             (first (prop "a:themeElements" (prop "a:theme" (Some result))))) in
  if truthy fontScheme then
    extractFonts (first (prop "a:majorFont" fontScheme)) ++
    extractFonts (first (prop "a:minorFont" fontScheme))
  else [].

Definition parseThemeXml (xmlContent : string) : Result Theme :=
  result <- parseXml xmlContent ;;
  Ok {| colors := themeColors result; fonts := themeFonts result |}.

(** The loop [for (let i = 0; i < slideFiles.length; i++)]: [files] are
    the names from index [i] on, [acc] the slides pushed so far. *)
Fixpoint parseSlides (zip : JSZip) (files : list string) (i : Z)
         (acc : list SlideContent) : Result (list SlideContent) :=
  match files with
  | [] => Ok acc
  | slideFile :: rest =>
      slideContent <- match zipFile zip slideFile with
                      | Some o => (s <- asyncString o ;; Ok (Some s))
                      | None => Ok None
                      end ;;
      match slideContent with
      | Some xml =>
          if truthyString xml then
            slide <- parseSlideXml xml (i + 1) ;;
            parseSlides zip rest (i + 1) (acc ++ [slide])
          else parseSlides zip rest (i + 1) acc
      | None => parseSlides zip rest (i + 1) acc
      end
  end.

Definition isSlideFile (fileName : string) : bool :=
  startsWith fileName "ppt/slides/slide" && endsWith fileName ".xml".

Definition compareSlideFiles (a b : string) : number :=
  sub (slideIndex a) (slideIndex b).

(** [Object.keys(zip.files).filter(..)] followed by the sort. *)
Definition slideFilesOf (zip : JSZip) : list string :=
  sort compareSlideFiles (filter isSlideFile (map fileName zip)).

Definition parseTheme (zip : JSZip) : Result (option Theme) :=
  match zipFile zip "ppt/theme/theme1.xml" with
  | Some themeFile =>
      themeContent <- asyncString themeFile ;;
      theme <- parseThemeXml themeContent ;;
      Ok (Some theme)
  | None => Ok None
  end.

Definition parsePptxFile (file : string) : Result ParsedPresentation :=
  tryRethrow
    (zip <- loadAsync file ;;
     slides <- parseSlides zip (slideFilesOf zip) 0 [] ;;
     theme <- parseTheme zip ;;
     Ok {| slides := slides; theme := theme |})
    PARSE_ERROR.
End Parser.

End PptxParser.

(* ===================================================================== *)
(** ** rule-validator.ts *)
(* ===================================================================== *)

Module RuleValidator.
Import Js RulesParser PptxParser.

Inductive Severity : Type := error | warning.

Record Violation : Type := {
  slide       : Z;
  rule        : DesignRule;
  description : string;
  elements    : list string;
  severity    : Severity
}.

(** [allowedValues.some(allowed =>
      value?.toLowerCase().includes(allowed.toLowerCase()))] *)
Definition someMatch (value : string) (allowedValues : list string) : bool :=
  existsb (fun allowed => includes (toLowerCase value) (toLowerCase allowed))
          allowedValues.

Definition validateColorRule (slide : SlideContent) (rule : DesignRule)
  : list Violation :=
  let allowedColors := orEmpty (allowedValues (parameters rule)) in
  if (List.length allowedColors =? 0)%nat then []
  else
    flat_map
      (fun text =>
         match color text with
         | Some c =>
             if truthyString c && negb (someMatch c allowedColors) then
               [ {| slide := slideNumber slide;
                    rule := rule;
                    description :=
                      "Text color not in allowed list (found " +++ c +++
                      ", only " +++ join ", " allowedColors +++ " are allowed)";
                    elements :=
                      [ "Text " +++ dquote +++ substring0 50 (content text) +++
                        "..." +++ dquote +++ " with color " +++ c ];
                    severity := error |} ]
             else []
         | None => []
         end)
      (texts slide).

(** The two messages of [validateFontSizeRule]. *)
Definition belowMinimum (size minSize : number) : string :=
  "Font size is below minimum requirement (found " +++
  numberToString size +++ "pt, minimum is " +++ numberToString minSize +++ "pt)".

Definition exceedsMaximum (size maxSize : number) : string :=
  "Font size exceeds maximum requirement (found " +++
  numberToString size +++ "pt, maximum is " +++ numberToString maxSize +++ "pt)".

(** The two tests on a run whose [fontSize] is truthy: the values of
    [violationFound] and [violationMessage] after them. *)
Definition checkFontSize (minSize maxSize : option number) (size : number)
  : bool * string :=
  let st0 := (false, "") in
  let st1 :=
    match minSize with
    | Some m => if truthyNumber m && lt size m
                then (true, belowMinimum size m) else st0
    | None => st0
    end in
  match maxSize with
  | Some m => if truthyNumber m && gt size m
              then (true, exceedsMaximum size m) else st1
  | None => st1
  end.

(** The callback of [slide.texts.forEach] in [validateFontSizeRule]:
    what it pushes for one run. *)
Definition fontSizeRun (slide : SlideContent) (rule : DesignRule)
           (text : TextRun) : list Violation :=
  let minSize := minValue (parameters rule) in
  let maxSize := maxValue (parameters rule) in
  match fontSize text with
  | Some size =>
      if truthyNumber size then
        let '(violationFound, violationMessage) :=
          checkFontSize minSize maxSize size in
        if violationFound then
          [ {| slide := slideNumber slide;
               rule := rule;
               description := violationMessage;
               elements :=
                 [ "Text " +++ dquote +++ substring0 30 (content text) +++
                   "..." +++ dquote +++ ": " +++ numberToString size +++ "pt" ];
               severity := error |} ]
        else []
      else []
  | None => []
  end.

Definition validateFontSizeRule (slide : SlideContent) (rule : DesignRule)
  : list Violation :=
  flat_map (fontSizeRun slide rule) (texts slide).

Definition validateFontFamilyRule (slide : SlideContent) (rule : DesignRule)
  : list Violation :=
  let allowedFonts := orEmpty (allowedValues (parameters rule)) in
  if (List.length allowedFonts =? 0)%nat then []
  else
    flat_map
      (fun text =>
         match fontFamily text with
         | Some f =>
             if truthyString f && negb (someMatch f allowedFonts) then
               [ {| slide := slideNumber slide;
                    rule := rule;
                    description :=
                      "Font family not in allowed list (found " +++ f +++
                      ", only " +++ join ", " allowedFonts +++ " are allowed)";
                    elements := [ "Text with font " +++ f ];
                    severity := error |} ]
             else []
         | None => []
         end)
      (texts slide).

Definition validateImageRule (slide : SlideContent) (rule : DesignRule)
  : list Violation :=
  let forbidden := orEmpty (forbidden (parameters rule)) in
  let slideTypes := orEmpty (slideTypes (parameters rule)) in
  if arrayIncludes forbidden "all" || arrayIncludes forbidden "images" then
    let isTitleSlide :=
      (slideNumber slide =? 1) || arrayIncludes slideTypes "title" in
    let shouldApplyRule :=
      (List.length slideTypes =? 0)%nat
      || arrayIncludes slideTypes "all"
      || (isTitleSlide && arrayIncludes slideTypes "title") in
    if shouldApplyRule && (0 <? List.length (images slide))%nat then
      [ {| slide := slideNumber slide;
           rule := rule;
           description :=
             "Slide contains images, which violates the '" +++
             RulesParser.description rule +++ "' rule";
           elements := map (fun img => "Image: " +++ name img) (images slide);
           severity := error |} ]
    else []
  else [].

Definition validateTextRule (slide : SlideContent) (rule : DesignRule)
  : list Violation :=
  if (List.length (texts slide) =? 0)%nat
     && includes (RulesParser.description rule) "required" then
    [ {| slide := slideNumber slide;
         rule := rule;
         description := "Slide has no text content but text is required";
         elements := [ "No text found on slide" ];
         severity := warning |} ]
  else [].

Definition validateCustomRule (slide : SlideContent) (rule : DesignRule)
  : list Violation := [].

(** The [switch] has no case for the reserved kind [slide-type]. *)
Definition validateSlideAgainstRule (slide : SlideContent) (rule : DesignRule)
  : list Violation :=
  match type rule with
  | Color => validateColorRule slide rule
  | FontSize => validateFontSizeRule slide rule
  | FontFamily => validateFontFamilyRule slide rule
  | Image => validateImageRule slide rule
  | Text => validateTextRule slide rule
  | Custom => validateCustomRule slide rule
  | SlideType => []
  end.

Definition validatePresentation (presentation : ParsedPresentation)
           (rules : list DesignRule) : list Violation :=
  flat_map
    (fun rule =>
       flat_map (fun slide => validateSlideAgainstRule slide rule)
                (slides presentation))
    rules.

End RuleValidator.

(* ===================================================================== *)
(** ** Concrete decks, rules and packages used in the examples *)
(* ===================================================================== *)

Module Fixtures.
Import Js RulesParser PptxParser RuleValidator.

Definition mkSlide (n : Z) (runs : list TextRun) (imgs : list ImageRef)
  : SlideContent :=
  {| slideNumber := n; texts := runs; images := imgs; shapes := [];
     background := None |}.

Definition mkRun (s : string) (size : option number) : TextRun :=
  {| content := s; fontSize := size; fontFamily := None; color := None;
     isBold := Some false; isItalic := Some false |}.

Definition mkRule (d : string) (t : RuleType) (p : Parameters) : DesignRule :=
  {| id := "rule-1"; RulesParser.description := d; type := t; parameters := p |}.

Definition embedded (n : string) : ImageRef :=
  {| name := n; imageType := "embedded" |}.

(** What "No images allowed on title slides" compiles to. *)
Definition titleImageRule : DesignRule :=
  mkRule "no images allowed on title slides" Image
    {| allowedValues := None; minValue := None; maxValue := None;
       forbidden := Some ["all"]; slideTypes := Some ["title"];
       pattern := None |}.

(** Two images on slide 1, none on slide 2. *)
Definition deckImagesOnTitle : ParsedPresentation :=
  {| slides := [ mkSlide 1 [] [embedded "rId2"; embedded "rId3"];
                 mkSlide 2 [] [] ];
     theme := None |}.

(** No image on slide 1, one image on slide 2. *)
Definition deckImageOnSecond : ParsedPresentation :=
  {| slides := [ mkSlide 1 [] []; mkSlide 2 [] [embedded "rId2"] ];
     theme := None |}.

Definition fontSizeRule (d : string) (mn mx : option number) : DesignRule :=
  mkRule d FontSize
    {| allowedValues := None; minValue := mn; maxValue := mx;
       forbidden := None; slideTypes := None; pattern := None |}.

(** What "Font size minimum is 36" compiles to. *)
Definition min36Rule : DesignRule :=
  fontSizeRule "font size minimum is 36" (Some (ofZ 36)) None.

(** A rule with crossed bounds: at least 36pt and at most 12pt. *)
Definition crossedRule : DesignRule :=
  fontSizeRule "font size minimum is 36, maximum is 12"
               (Some (ofZ 36)) (Some (ofZ 12)).

Definition run24 : TextRun := mkRun "Hello" (Some (ofZ 24)).

Definition textRule (d : string) : DesignRule := mkRule d Text noParameters.

Definition allowListRule (t : RuleType) (allowed : option (list string))
  : DesignRule :=
  mkRule "text colors allowed:" t
    {| allowedValues := allowed; minValue := None; maxValue := None;
       forbidden := None; slideTypes := None; pattern := None |}.

Definition redRun : TextRun :=
  {| content := "Hello"; fontSize := Some (ofZ 24); fontFamily := Some "Arial";
     color := Some "FF0000"; isBold := Some false; isItalic := Some false |}.

(** *** Packages *)

Definition entry (n content : string) : ZipObject :=
  {| fileName := n; dir := false; asyncString := Ok content |}.

(** An XML parser that rejects the text [<p:sld] (an unclosed tag) and
    reads every other text as an empty document. *)
Definition strictParse (_ : XMLOptions) (xml : string) : Result Node :=
  if (xml =? "<p:sld")%string then Err "Unclosed tag" else Ok (NObject []).

(** A package whose first slide part is cut short. *)
Definition zipCorruptFirst : JSZip :=
  [ entry "ppt/slides/slide1.xml" "<p:sld";
    entry "ppt/slides/slide2.xml" "<p:sld/>" ].

(** A package without any slide part. *)
Definition zipNoSlides : JSZip :=
  [ entry "[Content_Types].xml" "<Types/>";
    entry "ppt/presentation.xml" "<p:presentation/>" ].

(** A package whose first slide part is an empty file. *)
Definition zipEmptyFirst : JSZip :=
  [ entry "ppt/slides/slide1.xml" "";
    entry "ppt/slides/slide2.xml" "<p:sld/>" ].

(** A package with three slide parts listed out of order. *)
Definition zipThree : JSZip :=
  [ entry "ppt/slides/slide10.xml" "<p:sld/>";
    entry "ppt/slides/slide2.xml" "<p:sld/>";
    entry "ppt/slides/slide1.xml" "<p:sld/>" ].

(** What the extractor returns for [zipThree]. *)
Definition deckThree : ParsedPresentation :=
  {| slides := [ mkSlide 1 [] []; mkSlide 2 [] []; mkSlide 3 [] [] ];
     theme := None |}.

(** A package whose last slide part is cut short. *)
Definition zipCorruptLast : JSZip :=
  [ entry "ppt/slides/slide1.xml" "<p:sld/>";
    entry "ppt/slides/slide2.xml" "<p:sld/>";
    entry "ppt/slides/slide3.xml" "<p:sld" ].

(** A package with a theme part and no slide part. *)
Definition zipThemeOnly : JSZip :=
  [ entry "[Content_Types].xml" "<Types/>";
    entry "ppt/theme/theme1.xml" "<a:theme/>" ].

Definition loadAs (zip : JSZip) (_ : string) : Result JSZip := Ok zip.

(** The tree of a slide with one shape, one paragraph and one run
    "Hi" set in bold Arial at 24.5pt, followed by an empty shape. *)
Definition slideTree : Node :=
  NObject
    [ ("p:sld",
       NObject
         [ ("p:cSld",
            NObject
              [ ("p:spTree",
                 NObject
                   [ ("p:sp",
                      NArray
                        [ NObject
                            [ ("p:txBody",
                               NObject
                                 [ ("a:p",
                                    NObject
                                      [ ("a:r",
                                         NObject
                                           [ ("a:rPr",
                                              NObject
                                                [ ("@_sz", NString "2450");
                                                  ("@_b", NString "1");
                                                  ("a:latin",
                                                   NObject
                                                     [ ("@_typeface",
                                                        NString "Arial") ]) ]);
                                             ("a:t", NString "Hi") ]) ]) ]) ];
                          NString "" ]) ]) ]) ]) ].

(** The three rules that the rules editor shows as its placeholder, as
    the items of one markdown list. *)
Definition placeholderRules : list Token :=
  [ ListToken [ "Text colors allowed: black, red";
                "All titles must be font size 36 or higher  ";
                "No images allowed on title slides" ] ].

End Fixtures.

(* ===================================================================== *)
(** ** pptx-parser.ts, the variant built on xml2js

    The repository holds a second version of the extractor.  It has the
    same [parsePptxFile] and [findElementsRecursive]; it reads the text of
    a slide from the [a:t] elements alone and leaves the formatting of a
    run undefined, and it fills [images] and [shapes].  The tree is the one
    xml2js builds: the children of an element are arrays, its attributes
    are the entries of the object under [$]. *)
(* ===================================================================== *)

Module PptxParserXml2js.
Import Js Regex PptxParser.

Definition extractFontSize (xmlObj : Node) (textContent : string) : option number :=
  None.

Definition extractFontFamily (xmlObj : Node) (textContent : string) : option string :=
  None.

Definition extractColor (xmlObj : Node) (textContent : string) : option string :=
  None.

(** [texts.join(' ') || undefined] *)
Definition extractShapeText (shape : Node) : option string :=
  let texts := findElementsRecursive shape "a:t" in
  let joined := join " " (map toStringNode texts) in
  if truthyString joined then Some joined else None.

Section Parser.
(** [parseString(xml, callback)], from xml2js: the error or the tree that
    the callback receives. *)
Variable parseString : string -> Result Node.
(** [JSZip.loadAsync(file)], from jszip. *)
Variable loadAsync : string -> Result JSZip.

Definition parseSlideXml (xmlContent : string) (slideNumber : Z)
  : Result SlideContent :=
  result <- parseString xmlContent ;;
  let textElements := findElementsRecursive result "a:t" in
  let imageElements := findElementsRecursive result "a:blip" in
  let shapeElements := findElementsRecursive result "p:sp" in
  Ok {| slideNumber := slideNumber;
        texts :=
          flat_map
            (fun textEl =>
               match textEl with
               | NString t =>
                   if truthyString t then
                     [ {| content := t;
                          fontSize := extractFontSize result t;
                          fontFamily := extractFontFamily result t;
                          color := extractColor result t;
                          isBold := None;
                          isItalic := None |} ]
                   else []
               | _ => []
               end)
            textElements;
        images :=
          flat_map
            (fun img =>
               match attr "r:embed" (prop "$" (Some img)) with
               | Some embed =>
                   if truthy (Some img) && truthyString embed
                   then [ {| name := embed; imageType := "embedded" |} ]
                   else []
               | None => []
               end)
            imageElements;
        shapes :=
          flat_map
            (fun shape =>
               if truthy (Some shape)
               then [ {| shapeType := "shape"; text := extractShapeText shape |} ]
               else [])
            shapeElements;
        background := None |}.

Definition parseThemeXml (xmlContent : string) : Result Theme :=
  result <- parseString xmlContent ;;
  Ok {| colors := []; fonts := [] |}.

Fixpoint parseSlides (zip : JSZip) (files : list string) (i : Z)
         (acc : list SlideContent) : Result (list SlideContent) :=
  match files with
  | [] => Ok acc
  | slideFile :: rest =>
      slideContent <- match zipFile zip slideFile with
                      | Some o => (s <- asyncString o ;; Ok (Some s))
                      | None => Ok None
                      end ;;
      match slideContent with
      | Some xml =>
          if truthyString xml then
            slide <- parseSlideXml xml (i + 1) ;;
            parseSlides zip rest (i + 1) (acc ++ [slide])
          else parseSlides zip rest (i + 1) acc
      | None => parseSlides zip rest (i + 1) acc
      end
  end.

Definition parseTheme (zip : JSZip) : Result (option Theme) :=
  match zipFile zip "ppt/theme/theme1.xml" with
  | Some themeFile =>
      themeContent <- asyncString themeFile ;;
      theme <- parseThemeXml themeContent ;;
      Ok (Some theme)
  | None => Ok None
  end.

Definition parsePptxFile (file : string) : Result ParsedPresentation :=
  tryRethrow
    (zip <- loadAsync file ;;
     slides <- parseSlides zip (slideFilesOf zip) 0 [] ;;
     theme <- parseTheme zip ;;
     Ok {| slides := slides; theme := theme |})
    PARSE_ERROR.
End Parser.

End PptxParserXml2js.

(* ===================================================================== *)
(** ** Index.tsx: the page that runs the pipeline

    The state of the component is a record; a call of a state setter
    updates it; the toasts shown are collected in a list, oldest first. *)
(* ===================================================================== *)

Module IndexPage.
Import Js RulesParser PptxParser RuleValidator.

Record UIViolation : Type := {
  slide       : Z;
  description : string;
  elements    : list string
}.

Record State : Type := {
  file         : option string;
  rules        : string;
  violations   : list UIViolation;
  isProcessing : bool;
  hasResults   : bool
}.

Record Toast : Type := {
  title       : string;
  toastText   : string;
  destructive : bool
}.

Definition NO_RULES : string :=
  "No valid rules found. Please check your markdown format.".

(** [foundViolations.map(v => ({ slide, description, elements }))] *)
Definition formatViolation (v : Violation) : UIViolation :=
  {| slide := RuleValidator.slide v;
     description := RuleValidator.description v;
     elements := RuleValidator.elements v |}.

Definition lengthToString {A : Type} (l : list A) : string :=
  Z_toString (Z.of_nat (List.length l)).

(** [!file || !rules.trim()] *)
Definition nothingToDo (st : State) : bool :=
  match file st with
  | None => true
  | Some _ => negb (truthyString (trim (rules st)))
  end.

Definition isSubmitDisabled (st : State) : bool :=
  nothingToDo st || isProcessing st.

Definition handleReset (st : State) : State :=
  {| file := None; rules := ""; violations := []; isProcessing := false;
     hasResults := false |}.

Section Page.
(** [parsePptxFile] of [@/lib/pptx-parser] and [marked.lexer]. *)
Variable parsePptxFile : string -> Result ParsedPresentation.
Variable lexer : string -> list Token.

(** The body of the [try] block: the violations to show and the toasts
    sent before the block ends, or the toasts sent before the exception
    and its message. *)
Definition analyse (f : string) (ruleText : string)
  : list Toast * (list UIViolation + string) :=
  let t1 := {| title := "Processing file...";
               toastText := "Parsing PowerPoint structure";
               destructive := false |} in
  match parsePptxFile f with
  | Err message => ([t1], inr message)
  | Ok presentation =>
      let t2 := {| title := "Processing rules...";
                   toastText := "Parsing design rules";
                   destructive := false |} in
      let designRules := parseMarkdownRules lexer ruleText in
      if (List.length designRules =? 0)%nat then ([t1; t2], inr NO_RULES)
      else
        let t3 := {| title := "Validating...";
                     toastText := "Checking for design violations";
                     destructive := false |} in
        let foundViolations := validatePresentation presentation designRules in
        let formattedViolations := map formatViolation foundViolations in
        let t4 := {| title := "Analysis complete!";
                     toastText :=
                       "Found " +++ lengthToString formattedViolations +++
                       " violations across " +++
                       lengthToString (slides presentation) +++ " slides";
                     destructive := false |} in
        ([t1; t2; t3; t4], inl formattedViolations)
  end.

(** [handleSubmit]: the state once the promise settles, and the toasts.
    What is thrown inside the [try] block is an [Error], so the toast of
    the [catch] block shows its message. *)
Definition handleSubmit (st : State) : State * list Toast :=
  match file st with
  | None => (st, [])
  | Some f =>
      if negb (truthyString (trim (rules st))) then (st, [])
      else
        match analyse f (rules st) with
        | (toasts, inl formattedViolations) =>
            ({| file := file st; rules := rules st;
                violations := formattedViolations;
                isProcessing := false; hasResults := true |},
             toasts)
        | (toasts, inr message) =>
            ({| file := file st; rules := rules st;
                violations := violations st;
                isProcessing := false; hasResults := hasResults st |},
             toasts ++ [ {| title := "Error"; toastText := message;
                            destructive := true |} ])
        end
  end.
End Page.

End IndexPage.

(* ===================================================================== *)
(** ** Shapes of regular expressions and of strings

    Predicates used to state what the matcher guarantees about a
    capture. *)
(* ===================================================================== *)

Module Shape.
Import Js Regex.

(** Every character of [s] is in the class [p]. *)
Fixpoint allChars (p : ascii -> bool) (s : string) : bool :=
  match s with
  | EmptyString => true
  | String c s' => p c && allChars p s'
  end.

(** A non-empty string of characters of the class [p]. *)
Definition word (p : ascii -> bool) (s : string) : Prop :=
  s <> "" /\ allChars p s = true.






(** Every capture group of the expression is [(c+)] or [(c+?)] for the
    class [p]. *)
Inductive GroupsOf (p : ascii -> bool) : regex -> Prop :=
| go_Lit      : forall l, GroupsOf p (Lit l)
| go_Class    : forall q, GroupsOf p (Class q)
| go_Star     : forall q, GroupsOf p (Star q)
| go_Plus     : forall q, GroupsOf p (Plus q)
| go_PlusLazy : forall q, GroupsOf p (PlusLazy q)
| go_Opt      : forall r, GroupsOf p r -> GroupsOf p (Opt r)
| go_Alt      : forall r1 r2, GroupsOf p r1 -> GroupsOf p r2 -> GroupsOf p (Alt r1 r2)
| go_Seq      : forall r1 r2, GroupsOf p r1 -> GroupsOf p r2 -> GroupsOf p (Seq r1 r2)
| go_Group    : GroupsOf p (Group (Plus p))
| go_GroupLazy : GroupsOf p (Group (PlusLazy p))
| go_Bos      : GroupsOf p Bos
| go_Eos      : GroupsOf p Eos.

(** Every match of the expression goes through its capture group. *)
Inductive SetsGroup (p : ascii -> bool) : regex -> Prop :=
| sg_Group     : SetsGroup p (Group (Plus p))
| sg_GroupLazy : SetsGroup p (Group (PlusLazy p))
| sg_SeqL      : forall r1 r2, SetsGroup p r1 -> GroupsOf p r2 -> SetsGroup p (Seq r1 r2)
| sg_SeqR      : forall r1 r2, GroupsOf p r1 -> SetsGroup p r2 -> SetsGroup p (Seq r1 r2)
| sg_Alt       : forall r1 r2, SetsGroup p r1 -> SetsGroup p r2 -> SetsGroup p (Alt r1 r2).

(** [s] without the characters of the class [p] it starts with. *)
Fixpoint dropWhile (p : ascii -> bool) (s : string) : string :=
  match s with
  | EmptyString => EmptyString
  | String c s' => if p c then dropWhile p s' else s
  end.

(** A character other than a comma, an ampersand and a dot. *)
Definition plainChar (c : ascii) : bool :=
  RulesParser.notDot c && negb (RulesParser.commaOrAmp c).

(** A character that is not an upper-case letter. *)
Definition notUpper (c : ascii) : bool := negb (isUpper c).

(** No object of the tree has an entry named [key]. *)
Fixpoint noKey (key : string) (n : PptxParser.Node) : bool :=
  match n with
  | PptxParser.NArray l => forallb (noKey key) l
  | PptxParser.NObject entries =>
      forallb (fun kv => negb (fst kv =? key)%string && noKey key (snd kv)) entries
  | _ => true
  end.

(** The same for a value that may be [undefined]. *)
Definition noKeyOpt (key : string) (o : option PptxParser.Node) : Prop :=
  match o with
  | Some n => noKey key n = true
  | None => True
  end.



(** A character other than a digit, and the digit 0. *)
Definition notDigit (c : ascii) : bool := negb (isDigit c).

Definition isZero (c : ascii) : bool := Ascii.eqb c "0".

(** What the tree may hold under [sz] without giving the run a usable
    size: nothing, a string without any digit (the empty string is one),
    a string of zeros, a number that is 0 or NaN, a boolean, an object. *)
Inductive noSize : option PptxParser.Node -> Prop :=
| ns_missing : noSize None
| ns_text    : forall raw : string,
    allChars notDigit raw = true -> noSize (Some (PptxParser.NString raw))
| ns_zeros   : forall raw : string,
    word isZero raw -> noSize (Some (PptxParser.NString raw))
| ns_number  : forall x : number,
    truthyNumber x = false -> noSize (Some (PptxParser.NNumber x))
| ns_boolean : forall b : bool, noSize (Some (PptxParser.NBoolean b))
| ns_object  : forall entries : list (string * PptxParser.Node),
    noSize (Some (PptxParser.NObject entries)).

(** A run that carries no formatting. *)
Definition unformatted (t : PptxParser.TextRun) : Prop :=
  PptxParser.color t = None /\ PptxParser.fontSize t = None /\
  PptxParser.fontFamily t = None.

(** The state of the loops of [parseMarkdownRules] is in order: the
    numbers behind the ids of the rules pushed so far are ascending,
    positive and at most [ruleCounter]. *)
Definition idsUpTo (st : RulesParser.St) : Prop :=
  exists ks, map RulesParser.id (fst st) = map RulesParser.ruleId ks /\
             StronglySorted Z.lt ks /\
             Forall (fun k => 0 < k <= snd st) ks /\
             0 <= snd st.

End Shape.

(* ===================================================================== *)
(** ** More concrete inputs *)
(* ===================================================================== *)

Module MoreFixtures.
Import Js RulesParser PptxParser RuleValidator Fixtures.

(** The tree xml2js gives for a slide with one shape that holds the text
    "Hello" and one picture with the relationship id rId2. *)
Definition xml2jsSlide : Node :=
  NObject
    [ ("p:sld",
       NObject
         [ ("p:sp", NArray [ NObject [ ("a:t", NArray [ NString "Hello" ]) ] ]);
           ("p:pic",
            NArray
              [ NObject
                  [ ("a:blip",
                     NArray [ NObject [ ("$", NObject [ ("r:embed", NString "rId2") ]) ] ])
                  ] ]) ]) ].

Definition treeParse (_ : string) : Result Node := Ok xml2jsSlide.

Definition zipOne : JSZip := [ entry "ppt/slides/slide1.xml" "<p:sld>...</p:sld>" ].

(** What the xml2js extractor returns for [zipOne]. *)
Definition deckXml2js : ParsedPresentation :=
  {| slides :=
       [ {| slideNumber := 1;
            texts := [ {| content := "Hello"; fontSize := None; fontFamily := None;
                          color := None; isBold := None; isItalic := None |} ];
            images := [ embedded "rId2" ];
            shapes := [ {| shapeType := "shape"; text := Some "Hello" |} ];
            background := None |} ];
     theme := None |}.

(** The page with a file chosen and one rule typed in. *)
Definition readyState : IndexPage.State :=
  {| IndexPage.file := Some "deck.pptx";
     IndexPage.rules := "Font size minimum is 36";
     IndexPage.violations := [];
     IndexPage.isProcessing := false;
     IndexPage.hasResults := false |}.

Definition paragraphLexer (markdownText : string) : list Token :=
  [ ParagraphToken markdownText ].

(** The tree of a theme with two colours and two fonts: children are
    arrays, and [attrs] says where the attributes of an element go. *)
Definition themeTree (attrs : list (string * Node) -> list (string * Node))
  : Node :=
  NObject
    [ ("a:theme",
       NObject
         [ ("a:themeElements",
            NArray
              [ NObject
                  [ ("a:clrScheme",
                     NArray
                       [ NObject
                           [ ("a:dk1",
                              NArray
                                [ NObject
                                    [ ("a:srgbClr",
                                       NArray
                                         [ NObject
                                             (attrs [ ("val", NString "000000") ])
                                         ]) ] ]);
                             ("a:accent1",
                              NArray
                                [ NObject
                                    [ ("a:srgbClr",
                                       NArray
                                         [ NObject
                                             (attrs [ ("val", NString "4472C4") ])
                                         ]) ] ]) ] ]);
                    ("a:fontScheme",
                     NArray
                       [ NObject
                           [ ("a:majorFont",
                              NArray
                                [ NObject
                                    [ ("a:latin",
                                       NArray
                                         [ NObject
                                             (attrs
                                                [ ("typeface",
                                                   NString "Calibri Light") ])
                                         ]) ] ]);
                             ("a:minorFont",
                              NArray
                                [ NObject
                                    [ ("a:latin",
                                       NArray
                                         [ NObject
                                             (attrs
                                                [ ("typeface", NString "Calibri") ])
                                         ]) ] ]) ] ]) ] ]) ]) ].

(** The attributes of an element are the entries of an object under
    [$], as xml2js stores them. *)
Definition themeXml2js : Node :=
  themeTree (fun a => [ ("$", NObject a) ]).

(** The attributes of an element are entries of the element itself. *)
Definition themeFlat : Node := themeTree (fun a => a).


Definition deckRun24 : ParsedPresentation :=
  {| slides := [ mkSlide 1 [run24] [] ]; theme := None |}.

End MoreFixtures.

Import Js Regex RulesParser PptxParser RuleValidator Fixtures.

(* ===================================================================== *)
(** ** The model at work *)
(* ===================================================================== *)

Example compile_text_colors_allowed :
  parseRuleText (trim (toLowerCase "Text colors allowed: black, red")) 1
  = Some (mkRule "text colors allowed: black, red" Color
            {| allowedValues := Some ["black"; "red"]; minValue := None;
               maxValue := None; forbidden := None; slideTypes := None;
               pattern := None |}).
Proof. vm_compute. reflexivity. Qed.

Example compile_only_are_allowed :
  extractAllowedValues "only arial and helvetica & times are allowed as font family."
  = ["arial"; "helvetica"; "times"].
Proof. vm_compute. reflexivity. Qed.

Example compile_both_bounds :
  (extractMinValue "font size at least 12 and no more than 40",
   extractMaxValue "font size at least 12 and no more than 40")
  = (Some (ofZ 12), Some (ofZ 40)).
Proof. vm_compute. reflexivity. Qed.

(** "36 or higher" without a unit matches none of the three patterns of
    [extractMinValue]: the second placeholder rule has no bound. *)
Example compile_placeholder_rules :
  map (fun r => (id r, type r, minValue (parameters r), maxValue (parameters r)))
      (parseMarkdownRules (fun _ => placeholderRules) "")
  = [ ("rule-1", Color, None, None);
      ("rule-2", FontSize, None, None);
      ("rule-3", Image, None, None) ].
Proof. vm_compute. reflexivity. Qed.

Example compile_blank_paragraph :
  parseMarkdownRules (fun _ => [ParagraphToken ("   " +++ String "010" "  ")]) "" = [].
Proof. vm_compute. reflexivity. Qed.

Example bullet_only_is_no_rule : parseRuleText "- " 1 = None.
Proof. vm_compute. reflexivity. Qed.

Example match_is_substring_and_caseless :
  someMatch "BLACK-ish" ["black"] = true /\ someMatch "FF0000" ["black"; "red"] = false.
Proof. vm_compute. split; reflexivity. Qed.

Example extract_one_run :
  parseSlideXml (fun _ _ => Ok slideTree) "<p:sld>...</p:sld>" 4
  = Ok (mkSlide 4
          [ {| content := "Hi"; fontSize := Some (Num (49 # 2));
               fontFamily := Some "Arial"; color := None;
               isBold := Some true; isItalic := Some false |} ]
          []).
Proof. vm_compute. reflexivity. Qed.

Example print_sizes :
  map numberToString [ofZ 24; Num (49 # 2); divBy (ofZ 1005) 100; NaN]
  = ["24"; "24.5"; "10.05"; "NaN"].
Proof. vm_compute. reflexivity. Qed.

(* ===================================================================== *)
(** ** Properties of the validator *)
(* ===================================================================== *)

(** The image checker stamps its violation with the slide it was given. *)
Lemma validateImageRule_slide (s : SlideContent) (r : DesignRule) (v : Violation) :
  In v (validateImageRule s r) -> slide v = slideNumber s.
Proof.
  unfold validateImageRule.
  destruct (_ || _); [ | intros [] ].
  destruct (_ && _); [ | intros [] ].
  intros [<- | []]; reflexivity.
Qed.

(** With [slideTypes = ["title"]] the test [shouldApplyRule] succeeds on
    every slide: [isTitleSlide] already holds because of the rule. *)
Lemma validateImageRule_title_every_slide (s : SlideContent) (r : DesignRule) :
  forbidden (parameters r) = Some ["all"] ->
  slideTypes (parameters r) = Some ["title"] ->
  images s <> [] ->
  exists v, validateImageRule s r = [v] /\ slide v = slideNumber s.
Proof.
  intros Hf Ht Hi. unfold validateImageRule. rewrite Hf, Ht. simpl.
  rewrite orb_true_r. simpl.
  destruct (images s) as [ | i l ]; [ congruence | ].
  simpl. eexists. split; reflexivity.
Qed.

(** *** Numbers: comparison and truthiness *)

Lemma lt_Num (x y : Q) : lt (Num x) (Num y) = true <-> (x < y)%Q.
Proof.
  unfold lt. rewrite negb_true_iff. split.
  - intros H. apply Qnot_le_lt. intros Hle.
    apply Qle_bool_iff in Hle. congruence.
  - intros H. destruct (Qle_bool y x) eqn:E; [ | reflexivity ].
    apply Qle_bool_iff in E. exfalso. exact (Qlt_not_le _ _ H E).
Qed.

Lemma lt_is_Num (a b : number) :
  lt a b = true -> exists x y, a = Num x /\ b = Num y /\ (x < y)%Q.
Proof.
  destruct a as [ | x ], b as [ | y ]; try discriminate.
  intros H. exists x, y. repeat split. now apply lt_Num.
Qed.

Lemma truthyNumber_false_Num (q : Q) :
  truthyNumber (Num q) = false <-> (q == 0)%Q.
Proof.
  simpl. rewrite negb_false_iff. apply Qeq_bool_iff.
Qed.

(** A number [x] with [x == 0] lets no bound test through. *)
Lemma zero_bound_is_falsy (q : Q) : (q == 0)%Q -> truthyNumber (Num q) = false.
Proof. apply truthyNumber_false_Num. Qed.

(** *** The font-size checker *)

(** The two messages differ from their first words on. *)
Lemma exceedsMaximum_not_below (size m : number) :
  startsWith (exceedsMaximum size m) "Font size is below" = false.
Proof. reflexivity. Qed.

Lemma belowMinimum_not_exceeds (size m : number) :
  startsWith (belowMinimum size m) "Font size exceeds" = false.
Proof. reflexivity. Qed.

Lemma belowMinimum_is_below (size m : number) :
  startsWith (belowMinimum size m) "Font size is below" = true.
Proof. reflexivity. Qed.

Lemma exceedsMaximum_is_exceeds (size m : number) :
  startsWith (exceedsMaximum size m) "Font size exceeds" = true.
Proof. reflexivity. Qed.

(** [checkFontSize] when both tests fire: the second assignment stands. *)
Lemma checkFontSize_both (mn mx size : number) :
  truthyNumber mn = true -> lt size mn = true ->
  truthyNumber mx = true -> gt size mx = true ->
  checkFontSize (Some mn) (Some mx) size = (true, exceedsMaximum size mx).
Proof.
  intros H1 H2 H3 H4. unfold checkFontSize. now rewrite H3, H4.
Qed.

(** [checkFontSize] with a falsy lower bound is [checkFontSize] without
    a lower bound, and the same for the upper bound. *)
Lemma checkFontSize_falsy_min (mn : number) (mx : option number) (size : number) :
  truthyNumber mn = false ->
  checkFontSize (Some mn) mx size = checkFontSize None mx size.
Proof.
  intros H. unfold checkFontSize. now rewrite H.
Qed.

Lemma checkFontSize_falsy_max (mn : option number) (mx size : number) :
  truthyNumber mx = false ->
  checkFontSize mn (Some mx) size = checkFontSize mn None size.
Proof.
  intros H. unfold checkFontSize. now rewrite H.
Qed.

(** What [checkFontSize] reports is one of the two messages, and the
    message of a bound is reported only if that bound is truthy. *)
Lemma checkFontSize_found (mn mx : option number) (size : number) (msg : string) :
  checkFontSize mn mx size = (true, msg) ->
  (exists m, mx = Some m /\ truthyNumber m = true /\ gt size m = true
             /\ msg = exceedsMaximum size m)
  \/ (exists m, mn = Some m /\ truthyNumber m = true /\ lt size m = true
                /\ msg = belowMinimum size m).
Proof.
  unfold checkFontSize. intros H.
  destruct mx as [ m | ].
  - destruct (truthyNumber m) eqn:Et; simpl in H.
    + destruct (gt size m) eqn:Eg.
      * left. exists m. inversion H. auto.
      * destruct mn as [ m' | ]; [ | discriminate ].
        destruct (truthyNumber m') eqn:Et'; simpl in H; [ | discriminate ].
        destruct (lt size m') eqn:El; [ | discriminate ].
        right. exists m'. inversion H. auto.
    + destruct mn as [ m' | ]; [ | discriminate ].
      destruct (truthyNumber m') eqn:Et'; simpl in H; [ | discriminate ].
      destruct (lt size m') eqn:El; [ | discriminate ].
      right. exists m'. inversion H. auto.
  - destruct mn as [ m' | ]; [ | discriminate ].
    destruct (truthyNumber m') eqn:Et'; simpl in H; [ | discriminate ].
    destruct (lt size m') eqn:El; [ | discriminate ].
    right. exists m'. inversion H. auto.
Qed.

(** Every violation of [fontSizeRun] carries a message of [checkFontSize]. *)
Lemma fontSizeRun_inv (s : SlideContent) (r : DesignRule) (t : TextRun) (v : Violation) :
  In v (fontSizeRun s r t) ->
  exists size,
    fontSize t = Some size /\ truthyNumber size = true /\
    checkFontSize (minValue (parameters r)) (maxValue (parameters r)) size
    = (true, description v) /\
    severity v = error /\ slide v = slideNumber s /\ rule v = r.
Proof.
  unfold fontSizeRun.
  destruct (fontSize t) as [ size | ]; [ | intros [] ].
  destruct (truthyNumber size) eqn:Et; [ | intros [] ].
  destruct (checkFontSize _ _ size) as [ found msg ] eqn:Ec.
  destruct found; [ | intros [] ].
  intros [<- | []]. exists size. simpl. repeat split; auto.
Qed.

(** The checkers other than the text checker only build [error]
    violations. *)
Lemma validateColorRule_severity (s : SlideContent) (r : DesignRule) (v : Violation) :
  In v (validateColorRule s r) -> severity v = error.
Proof.
  unfold validateColorRule.
  destruct (_ =? _)%nat; [ intros [] | ].
  rewrite in_flat_map. intros [t [_ H]].
  destruct (color t) as [ c | ]; [ | destruct H ].
  destruct (_ && _); [ | destruct H ].
  destruct H as [<- | []]. reflexivity.
Qed.

Lemma validateFontFamilyRule_severity (s : SlideContent) (r : DesignRule) (v : Violation) :
  In v (validateFontFamilyRule s r) -> severity v = error.
Proof.
  unfold validateFontFamilyRule.
  destruct (_ =? _)%nat; [ intros [] | ].
  rewrite in_flat_map. intros [t [_ H]].
  destruct (fontFamily t) as [ f | ]; [ | destruct H ].
  destruct (_ && _); [ | destruct H ].
  destruct H as [<- | []]. reflexivity.
Qed.

Lemma validateFontSizeRule_severity (s : SlideContent) (r : DesignRule) (v : Violation) :
  In v (validateFontSizeRule s r) -> severity v = error.
Proof.
  unfold validateFontSizeRule. rewrite in_flat_map. intros [t [_ H]].
  apply fontSizeRun_inv in H. destruct H as [size H]. tauto.
Qed.

Lemma validateImageRule_severity (s : SlideContent) (r : DesignRule) (v : Violation) :
  In v (validateImageRule s r) -> severity v = error.
Proof.
  unfold validateImageRule.
  destruct (_ || _); [ | intros [] ].
  destruct (_ && _); [ | intros [] ].
  intros [<- | []]. reflexivity.
Qed.

(** A rule that yields no violation on any slide can be taken out of the
    rule list. *)
Lemma silent_rule_contributes_nothing (p : ParsedPresentation) (r : DesignRule) :
  (forall s, validateSlideAgainstRule s r = []) ->
  forall before after : list DesignRule,
    validatePresentation p (before ++ r :: after)
    = validatePresentation p (before ++ after).
Proof.
  intros H before after. unfold validatePresentation.
  rewrite !flat_map_app. f_equal. simpl.
  assert (E : flat_map (fun s => validateSlideAgainstRule s r) (slides p) = []).
  { induction (slides p) as [ | s l IH ]; [ reflexivity | ].
    simpl. now rewrite H, IH. }
  now rewrite E.
Qed.

(** An allow-list of length 0, absent or empty, switches the checker off. *)
Lemma no_allowed_values (o : option (list string)) :
  o = None \/ o = Some [] -> (List.length (orEmpty o) =? 0)%nat = true.
Proof. intros [-> | ->]; reflexivity. Qed.

(** The spec's own example for the title rule: images on slide 1 only. *)
Lemma image_title_rule_on_title_deck :
  validatePresentation deckImagesOnTitle [titleImageRule] =
  [ {| slide := 1; rule := titleImageRule;
       description := "Slide contains images, which violates the 'no images allowed on title slides' rule";
       elements := ["Image: rId2"; "Image: rId3"];
       severity := error |} ].
Proof. reflexivity. Qed.

Lemma titleImageRule_compiled :
  parseRuleText (trim (toLowerCase "No images allowed on title slides")) 1
  = Some titleImageRule.
Proof. vm_compute. reflexivity. Qed.

(* --------------------------------------------------------------------- *)
(** *** The claims about the validator *)
(* --------------------------------------------------------------------- *)

(** C1.  The image rule with [forbidden = ["all"]] and
    [slideTypes = ["title"]] is meant for the title slide, but the checker
    also flags slide 2: on the deck whose only image is on slide 2 it
    emits one violation, on slide 2.  ([isTitleSlide] is computed as
    [slideNumber === 1 || slideTypes.includes('title')], which the rule
    itself makes true on every slide.) *)
Theorem image_title_rule_flags_second_slide :
  validatePresentation deckImageOnSecond [titleImageRule] =
  [ {| slide := 2; rule := titleImageRule;
       description := "Slide contains images, which violates the 'no images allowed on title slides' rule";
       elements := ["Image: rId2"];
       severity := error |} ].
Proof. reflexivity. Qed.

(** C2, as stated, fails: with a minimum of 36 and a maximum of 12 a run
    of 24pt is below the one and above the other; the checker emits one
    violation and its message is the one of the maximum, not of the
    minimum. *)
Lemma font_size_crossed_bounds_reports_maximum :
  lt (ofZ 24) (ofZ 36) = true /\
  gt (ofZ 24) (ofZ 12) = true /\
  map description (validateFontSizeRule (mkSlide 1 [run24] []) crossedRule)
  = ["Font size exceeds maximum requirement (found 24pt, maximum is 12pt)"] /\
  map (fun v => startsWith (description v) "Font size is below")
      (validateFontSizeRule (mkSlide 1 [run24] []) crossedRule)
  = [false].
Proof. vm_compute. repeat split. Qed.

(** C2, amended.  For a run whose font size is truthy (neither 0 nor NaN),
    below the rule's [minValue] and above its [maxValue], exactly one
    violation is emitted, of severity [error]; the message kept is the one
    assigned last: the maximum's whenever [maxValue] is not 0, and the
    minimum's only when [maxValue] is 0, a bound the checker skips. *)
Theorem font_size_both_bounds_last_check_wins
        (s : SlideContent) (r : DesignRule) (t : TextRun) (size mn mx : number) :
  fontSize t = Some size ->
  truthyNumber size = true ->
  minValue (parameters r) = Some mn ->
  maxValue (parameters r) = Some mx ->
  lt size mn = true ->
  gt size mx = true ->
  exists v,
    fontSizeRun s r t = [v] /\
    severity v = error /\
    slide v = slideNumber s /\
    description v = (if truthyNumber mx then exceedsMaximum size mx
                     else belowMinimum size mn).
Proof.
  intros Hsize Htruthy Hmin Hmax Hlt Hgt.
  unfold fontSizeRun. rewrite Hsize, Htruthy, Hmin, Hmax.
  destruct (truthyNumber mx) eqn:Emx.
  - assert (Hc : checkFontSize (Some mn) (Some mx) size
                 = (true, exceedsMaximum size mx)).
    { unfold checkFontSize. now rewrite Emx, Hgt. }
    rewrite Hc. eexists. repeat split.
  - assert (Emn : truthyNumber mn = true).
    { destruct (lt_is_Num _ _ Hlt) as [x [y [-> [-> Hxy]]]].
      destruct mx as [ | z ]; [ discriminate | ].
      apply truthyNumber_false_Num in Emx.
      apply lt_Num in Hgt.
      simpl. apply negb_true_iff.
      destruct (Qeq_bool y 0) eqn:E; [ | reflexivity ].
      apply Qeq_bool_iff in E. exfalso.
      rewrite Emx in Hgt. rewrite E in Hxy.
      exact (Qlt_irrefl 0 (Qlt_trans _ _ _ Hgt Hxy)). }
    assert (Hc : checkFontSize (Some mn) (Some mx) size
                 = (true, belowMinimum size mn)).
    { unfold checkFontSize. now rewrite Emx, Emn, Hlt. }
    rewrite Hc. eexists. repeat split.
Qed.

Lemma font_size_both_bounds_last_check_wins_witness :
  exists v,
    fontSizeRun (mkSlide 1 [run24] []) crossedRule run24 = [v] /\
    severity v = error /\
    slide v = 1 /\
    description v = exceedsMaximum (ofZ 24) (ofZ 12).
Proof.
  apply (font_size_both_bounds_last_check_wins
           (mkSlide 1 [run24] []) crossedRule run24 (ofZ 24) (ofZ 36) (ofZ 12));
    reflexivity.
Defined.

(** C6.  "Font size minimum is 36", lower-cased and trimmed as
    [parseMarkdownRules] does, compiles to a [font-size] rule with
    [minValue = 36] and no [maxValue], both through [parseRuleText] and
    through [parseMarkdownRules] on the one-paragraph token list of the
    text; on any slide whose only run has [fontSize = 24] that rule yields
    exactly one violation, of severity [error], whose description
    mentions [24pt] and [36pt]. *)
Theorem font_size_minimum_36_example :
  parseRuleText (trim (toLowerCase "Font size minimum is 36")) 1 = Some min36Rule /\
  parseMarkdownRules (fun _ => [ParagraphToken "Font size minimum is 36"])
                     "Font size minimum is 36" = [min36Rule] /\
  type min36Rule = FontSize /\
  minValue (parameters min36Rule) = Some (ofZ 36) /\
  maxValue (parameters min36Rule) = None /\
  forall (n : Z) (text : string) (family colour : option string)
         (bold italic : option bool) (imgs : list ImageRef)
         (shps : list ShapeRef) (bg : option Background),
    let run := {| content := text; fontSize := Some (ofZ 24);
                  fontFamily := family; color := colour;
                  isBold := bold; isItalic := italic |} in
    let s := {| slideNumber := n; texts := [run]; images := imgs;
                shapes := shps; background := bg |} in
    exists v,
      validateSlideAgainstRule s min36Rule = [v] /\
      validatePresentation {| slides := [s]; theme := None |} [min36Rule] = [v] /\
      severity v = error /\
      slide v = n /\
      description v
      = "Font size is below minimum requirement (found 24pt, minimum is 36pt)" /\
      includes (description v) "24pt" = true /\
      includes (description v) "36pt" = true.
Proof.
  split; [ vm_compute; reflexivity | ].
  split; [ vm_compute; reflexivity | ].
  repeat (split; [ reflexivity | ]).
  intros. eexists. repeat split.
Qed.

(** C7.  On a slide without text runs a [text] rule whose description
    contains "required" yields exactly one violation, a [warning]; a
    [text] rule without "required" yields none; and a violation of a rule
    of any other kind is an [error]. *)
Theorem text_rule_is_the_only_warning :
  (forall (s : SlideContent) (r : DesignRule),
      type r = Text -> texts s = [] ->
      includes (RulesParser.description r) "required" = true ->
      exists v, validateSlideAgainstRule s r = [v] /\ severity v = warning
                /\ slide v = slideNumber s) /\
  (forall (s : SlideContent) (r : DesignRule),
      type r = Text -> texts s = [] ->
      includes (RulesParser.description r) "required" = false ->
      validateSlideAgainstRule s r = []) /\
  (forall (s : SlideContent) (r : DesignRule) (v : Violation),
      type r <> Text ->
      In v (validateSlideAgainstRule s r) -> severity v = error) /\
  (forall (p : ParsedPresentation) (rules : list DesignRule) (v : Violation),
      In v (validatePresentation p rules) ->
      severity v = warning -> type (rule v) = Text).
Proof.
  assert (Hother : forall s r v, type r <> Text ->
                     In v (validateSlideAgainstRule s r) -> severity v = error).
  { intros s r v Hty. unfold validateSlideAgainstRule.
    destruct (type r) eqn:E.
    - apply validateColorRule_severity.
    - apply validateFontSizeRule_severity.
    - apply validateFontFamilyRule_severity.
    - apply validateImageRule_severity.
    - congruence.
    - intros [].
    - intros []. }
  assert (Hrule : forall s r v, In v (validateSlideAgainstRule s r) -> rule v = r).
  { intros s r v. unfold validateSlideAgainstRule.
    destruct (type r).
    - unfold validateColorRule. destruct (_ =? _)%nat; [ intros [] | ].
      rewrite in_flat_map. intros [t [_ H]].
      destruct (color t); [ | destruct H ].
      destruct (_ && _); [ | destruct H ].
      destruct H as [<- | []]. reflexivity.
    - unfold validateFontSizeRule. rewrite in_flat_map. intros [t [_ H]].
      apply fontSizeRun_inv in H. destruct H as [size H]. tauto.
    - unfold validateFontFamilyRule. destruct (_ =? _)%nat; [ intros [] | ].
      rewrite in_flat_map. intros [t [_ H]].
      destruct (fontFamily t); [ | destruct H ].
      destruct (_ && _); [ | destruct H ].
      destruct H as [<- | []]. reflexivity.
    - unfold validateImageRule. destruct (_ || _); [ | intros [] ].
      destruct (_ && _); [ | intros [] ].
      intros [<- | []]. reflexivity.
    - unfold validateTextRule. destruct (_ && _); [ | intros [] ].
      intros [<- | []]. reflexivity.
    - intros [].
    - intros []. }
  split; [ | split; [ | split ] ].
  - intros s r Hty Hno Hreq. unfold validateSlideAgainstRule, validateTextRule.
    rewrite Hty, Hno, Hreq. simpl. eexists. repeat split.
  - intros s r Hty Hno Hreq. unfold validateSlideAgainstRule, validateTextRule.
    rewrite Hty, Hno, Hreq. reflexivity.
  - exact Hother.
  - intros p rules v. unfold validatePresentation.
    rewrite in_flat_map. intros [r [_ H]].
    rewrite in_flat_map in H. destruct H as [s [_ H]].
    intros Hw. rewrite (Hrule _ _ _ H).
    destruct (type r) eqn:E; try reflexivity;
      (assert (Hne : type r <> Text) by congruence;
       rewrite (Hother _ _ _ Hne H) in Hw; discriminate).
Qed.

Lemma text_rule_is_the_only_warning_witness :
  (exists v, validateSlideAgainstRule (mkSlide 3 [] []) (textRule "text is required") = [v]
             /\ severity v = warning /\ slide v = 3) /\
  validateSlideAgainstRule (mkSlide 3 [] []) (textRule "every slide needs text") = [] /\
  severity {| slide := 1; rule := min36Rule;
              description := belowMinimum (ofZ 24) (ofZ 36);
              elements := ["Text " +++ dquote +++ "Hello..." +++ dquote +++ ": 24pt"];
              severity := error |} = error.
Proof.
  destruct text_rule_is_the_only_warning as [Hreq [Hnone [Hother _]]].
  split; [ apply Hreq; reflexivity | ].
  split; [ apply Hnone; reflexivity | ].
  apply (Hother (mkSlide 1 [run24] []) min36Rule).
  - discriminate.
  - left. reflexivity.
Defined.

(** C8.  The validator is a total function, and a [color] or
    [font-family] rule whose [allowedValues] is absent or the empty list
    contributes no violation: it yields none on any slide, and taking it
    out of the rule list does not change the result on any presentation. *)
Theorem empty_allow_list_is_a_no_op
        (p : ParsedPresentation) (s : SlideContent) (r : DesignRule)
        (before after : list DesignRule) :
  type r = Color \/ type r = FontFamily ->
  allowedValues (parameters r) = None \/ allowedValues (parameters r) = Some [] ->
  validateSlideAgainstRule s r = [] /\
  validatePresentation p [r] = [] /\
  validatePresentation p (before ++ r :: after)
  = validatePresentation p (before ++ after).
Proof.
  intros Hty Hallowed.
  assert (H : forall s', validateSlideAgainstRule s' r = []).
  { intros s'. unfold validateSlideAgainstRule.
    destruct Hty as [-> | ->].
    - unfold validateColorRule. now rewrite (no_allowed_values _ Hallowed).
    - unfold validateFontFamilyRule. now rewrite (no_allowed_values _ Hallowed). }
  split; [ apply H | ].
  split; [ apply (silent_rule_contributes_nothing p r H [] []) | ].
  apply silent_rule_contributes_nothing, H.
Qed.

Lemma empty_allow_list_is_a_no_op_witness :
  (validateSlideAgainstRule (mkSlide 1 [redRun] []) (allowListRule Color (Some [])) = [] /\
   validatePresentation {| slides := [mkSlide 1 [redRun] []]; theme := None |}
                        [allowListRule Color (Some [])] = [] /\
   validatePresentation {| slides := [mkSlide 1 [redRun] []]; theme := None |}
                        ([min36Rule] ++ allowListRule Color (Some []) :: [])
   = validatePresentation {| slides := [mkSlide 1 [redRun] []]; theme := None |}
                          ([min36Rule] ++ [])) /\
  (validateSlideAgainstRule (mkSlide 1 [redRun] []) (allowListRule FontFamily None) = [] /\
   validatePresentation {| slides := [mkSlide 1 [redRun] []]; theme := None |}
                        [allowListRule FontFamily None] = [] /\
   validatePresentation {| slides := [mkSlide 1 [redRun] []]; theme := None |}
                        ([] ++ allowListRule FontFamily None :: [min36Rule])
   = validatePresentation {| slides := [mkSlide 1 [redRun] []]; theme := None |}
                          ([] ++ [min36Rule])).
Proof.
  split.
  - apply empty_allow_list_is_a_no_op; [ left | right ]; reflexivity.
  - apply empty_allow_list_is_a_no_op; [ right | left ]; reflexivity.
Defined.

(** C9.  A rule of kind [custom] yields no violation, whatever the slide
    and whatever the parameters of the rule, and so contributes nothing
    to the validation of a presentation. *)
Theorem custom_rule_never_fires
        (p : ParsedPresentation) (s : SlideContent) (r : DesignRule) :
  type r = Custom ->
  validateSlideAgainstRule s r = [] /\ validatePresentation p [r] = [].
Proof.
  intros Hty.
  assert (H : forall s', validateSlideAgainstRule s' r = []).
  { intros s'. unfold validateSlideAgainstRule. now rewrite Hty. }
  split; [ apply H | ].
  apply (silent_rule_contributes_nothing p r H [] []).
Qed.

Lemma custom_rule_never_fires_witness :
  validateSlideAgainstRule
    (mkSlide 1 [redRun] [embedded "rId2"])
    (mkRule "logos go in the top left corner" Custom
            {| allowedValues := Some ["black"]; minValue := Some (ofZ 99);
               maxValue := Some (ofZ 1); forbidden := Some ["all"];
               slideTypes := Some ["all"]; pattern := None |}) = [] /\
  validatePresentation
    deckImagesOnTitle
    [ mkRule "logos go in the top left corner" Custom
             {| allowedValues := Some ["black"]; minValue := Some (ofZ 99);
                maxValue := Some (ofZ 1); forbidden := Some ["all"];
                slideTypes := Some ["all"]; pattern := None |} ] = [].
Proof.
  apply custom_rule_never_fires. reflexivity.
Defined.

(** A violation of the font-size checker whose message is not the
    maximum's comes from a truthy minimum, and conversely. *)
Lemma validateFontSizeRule_message (s : SlideContent) (r : DesignRule) (v : Violation) :
  In v (validateFontSizeRule s r) ->
  (exists size m, maxValue (parameters r) = Some m /\ truthyNumber m = true
                  /\ description v = exceedsMaximum size m)
  \/ (exists size m, minValue (parameters r) = Some m /\ truthyNumber m = true
                     /\ description v = belowMinimum size m).
Proof.
  unfold validateFontSizeRule. rewrite in_flat_map. intros [t [_ H]].
  apply fontSizeRun_inv in H. destruct H as [size [_ [_ [Hc _]]]].
  apply checkFontSize_found in Hc.
  destruct Hc as [[m [Hm [Ht [_ Hd]]]] | [m [Hm [Ht [_ Hd]]]]].
  - left. exists size, m. auto.
  - right. exists size, m. auto.
Qed.

(** C10.  A bound equal to 0 is falsy, so its test is skipped: with
    [minValue = 0] the checker computes what it computes without a
    minimum and none of its violations carries the message of the
    minimum; with [maxValue = 0] the same holds for the maximum. *)
Theorem zero_bound_is_never_checked (s : SlideContent) (r : DesignRule) (q : Q) :
  (q == 0)%Q ->
  (minValue (parameters r) = Some (Num q) ->
   (forall size : number,
       checkFontSize (minValue (parameters r)) (maxValue (parameters r)) size
       = checkFontSize None (maxValue (parameters r)) size) /\
   (forall v : Violation,
       In v (validateFontSizeRule s r) ->
       startsWith (description v) "Font size is below" = false /\
       forall size m : number, description v <> belowMinimum size m)) /\
  (maxValue (parameters r) = Some (Num q) ->
   (forall size : number,
       checkFontSize (minValue (parameters r)) (maxValue (parameters r)) size
       = checkFontSize (minValue (parameters r)) None size) /\
   (forall v : Violation,
       In v (validateFontSizeRule s r) ->
       startsWith (description v) "Font size exceeds" = false /\
       forall size m : number, description v <> exceedsMaximum size m)).
Proof.
  intros Hq. pose proof (zero_bound_is_falsy q Hq) as Hfalsy. split.
  - intros Hmin. split.
    + intros size. rewrite Hmin. now apply checkFontSize_falsy_min.
    + intros v Hv.
      assert (Hstart : startsWith (description v) "Font size is below" = false).
      { destruct (validateFontSizeRule_message _ _ _ Hv)
          as [[size [m [_ [_ Hd]]]] | [size [m [Hm [Ht _]]]]].
        - rewrite Hd. apply exceedsMaximum_not_below.
        - rewrite Hmin in Hm. inversion Hm; subst m. congruence. }
      split; [ exact Hstart | ].
      intros size m Hd. rewrite Hd, belowMinimum_is_below in Hstart. discriminate.
  - intros Hmax. split.
    + intros size. rewrite Hmax. now apply checkFontSize_falsy_max.
    + intros v Hv.
      assert (Hstart : startsWith (description v) "Font size exceeds" = false).
      { destruct (validateFontSizeRule_message _ _ _ Hv)
          as [[size [m [Hm [Ht _]]]] | [size [m [_ [_ Hd]]]]].
        - rewrite Hmax in Hm. inversion Hm; subst m. congruence.
        - rewrite Hd. apply belowMinimum_not_exceeds. }
      split; [ exact Hstart | ].
      intros size m Hd. rewrite Hd, exceedsMaximum_is_exceeds in Hstart. discriminate.
Qed.

Lemma zero_bound_is_never_checked_witness :
  (checkFontSize (Some (ofZ 0)) (Some (ofZ 40)) (Num (-24 # 1))
   = checkFontSize None (Some (ofZ 40)) (Num (-24 # 1))) /\
  (checkFontSize (Some (ofZ 10)) (Some (ofZ 0)) (ofZ 24)
   = checkFontSize (Some (ofZ 10)) None (ofZ 24)).
Proof.
  split.
  - refine (proj1
              (proj1 (zero_bound_is_never_checked
                        (mkSlide 1 [mkRun "Hello" (Some (Num (-24 # 1)))] [])
                        (fontSizeRule "font size minimum is 0, maximum is 40"
                                      (Some (ofZ 0)) (Some (ofZ 40)))
                        0%Q _) _) (Num (-24 # 1))); reflexivity.
  - refine (proj1
              (proj2 (zero_bound_is_never_checked
                        (mkSlide 1 [run24] [])
                        (fontSizeRule "font size minimum is 10, maximum is 0"
                                      (Some (ofZ 10)) (Some (ofZ 0)))
                        0%Q _) _) (ofZ 24)); reflexivity.
Defined.

(* ===================================================================== *)
(** ** Properties of the package extractor *)
(* ===================================================================== *)

Section ExtractorFacts.

Variable parse : XMLOptions -> string -> Result Node.
Variable load : string -> Result JSZip.

(** [parseSlideXml] fails exactly when the XML parser does, and a slide
    it returns carries the number it was given. *)
Lemma parseSlideXml_Err (xml : string) (n : Z) (e : string) :
  parse slideOptions xml = Err e -> parseSlideXml parse xml n = Err e.
Proof. intros H. unfold parseSlideXml. now rewrite H. Qed.

Lemma parseSlideXml_slideNumber (xml : string) (n : Z) (s : SlideContent) :
  parseSlideXml parse xml n = Ok s -> slideNumber s = n.
Proof.
  unfold parseSlideXml. destruct (parse slideOptions xml); simpl.
  - intros H. inversion H. reflexivity.
  - discriminate.
Qed.

(** The loop stops with an error at the first slide part that does not
    parse: nothing catches the exception inside the loop. *)
Lemma parseSlides_parse_error (zip : JSZip) (files : list string) :
  forall (i : Z) (acc : list SlideContent) (f : string) (o : ZipObject)
         (xml e : string),
    In f files ->
    zipFile zip f = Some o ->
    asyncString o = Ok xml ->
    truthyString xml = true ->
    parse slideOptions xml = Err e ->
    exists e', parseSlides parse zip files i acc = Err e'.
Proof.
  induction files as [ | g rest IH ]; intros i acc f o xml e Hin Hz Ha Ht Hp.
  - destruct Hin.
  - simpl. destruct Hin as [-> | Hin].
    + rewrite Hz, Ha. simpl. rewrite Ht.
      rewrite (parseSlideXml_Err _ _ _ Hp). simpl. eauto.
    + destruct (zipFile zip g) as [ o' | ]; simpl; [ | eauto ].
      destruct (asyncString o') as [ xml' | e' ]; simpl; [ | eauto ].
      destruct (truthyString xml'); [ | eauto ].
      destruct (parseSlideXml parse xml' (i + 1)) as [ s | e' ]; simpl; eauto.
Qed.

(** A slide part whose content is the empty string is passed over, and
    the index still advances. *)
Lemma parseSlides_skips_empty (zip : JSZip) (f : string) (rest : list string)
      (i : Z) (acc : list SlideContent) (o : ZipObject) :
  zipFile zip f = Some o ->
  asyncString o = Ok "" ->
  parseSlides parse zip (f :: rest) i acc = parseSlides parse zip rest (i + 1) acc.
Proof. intros Hz Ha. simpl. rewrite Hz, Ha. reflexivity. Qed.

(** The numbers of the slides that the loop pushes: ascending, within the
    range of the indices it went through, and without a gap when it
    pushed a slide for every file. *)
Lemma parseSlides_numbers (zip : JSZip) (files : list string) :
  forall (i : Z) (acc res : list SlideContent),
    parseSlides parse zip files i acc = Ok res ->
    exists pushed,
      res = acc ++ pushed /\
      StronglySorted Z.lt (map slideNumber pushed) /\
      Forall (fun n => i < n <= i + Z.of_nat (List.length files))
             (map slideNumber pushed) /\
      (List.length pushed <= List.length files)%nat /\
      (List.length pushed = List.length files ->
       map slideNumber pushed
       = map (fun k => i + Z.of_nat k) (seq 1 (List.length files))).
Proof.
  induction files as [ | f rest IH ]; intros i acc res H.
  - simpl in H. inversion H; subst res. exists []. rewrite app_nil_r.
    repeat split; simpl; auto; constructor.
  - assert (Hskip :
              parseSlides parse zip rest (i + 1) acc = Ok res ->
              exists pushed,
                res = acc ++ pushed /\
                StronglySorted Z.lt (map slideNumber pushed) /\
                Forall (fun n => i < n <= i + Z.of_nat (List.length (f :: rest)))
                       (map slideNumber pushed) /\
                (List.length pushed <= List.length (f :: rest))%nat /\
                (List.length pushed = List.length (f :: rest) ->
                 map slideNumber pushed
                 = map (fun k => i + Z.of_nat k) (seq 1 (List.length (f :: rest))))).
    { intros H'. destruct (IH _ _ _ H') as [pushed [E [Hs [Hb [Hl _]]]]].
      exists pushed. repeat split; auto.
      - refine (Forall_impl _ _ Hb). simpl List.length. intros n Hn. lia.
      - simpl. lia.
      - simpl. lia. }
    simpl in H.
    destruct (zipFile zip f) as [ o | ]; simpl in H; [ | auto ].
    destruct (asyncString o) as [ xml | e ]; simpl in H; [ | discriminate ].
    destruct (truthyString xml); [ | auto ].
    destruct (parseSlideXml parse xml (i + 1)) as [ s | e ] eqn:Es;
      simpl in H; [ | discriminate ].
    apply parseSlideXml_slideNumber in Es.
    destruct (IH _ _ _ H) as [pushed [E [Hs [Hb [Hl Hall]]]]].
    exists (s :: pushed). rewrite <- app_assoc in E. simpl in E.
    split; [ exact E | ]. simpl map. rewrite Es.
    split; [ | split; [ | split ] ].
    + constructor; [ exact Hs | ].
      refine (Forall_impl _ _ Hb). intros n Hn. simpl in Hn. lia.
    + constructor.
      * simpl List.length. lia.
      * refine (Forall_impl _ _ Hb). simpl List.length. intros n Hn. lia.
    + simpl. lia.
    + intros Hlen. simpl in Hlen. injection Hlen as Hlen.
      rewrite (Hall Hlen). simpl. f_equal.
      rewrite <- (seq_shift (List.length rest) 1), map_map.
      apply map_ext. intros k. lia.
Qed.

(** Where a pushed slide comes from: it is what [parseSlideXml] returns
    for the non-empty content of the file at some index [k] of the list,
    and its number is that index counted from [i + 1]. *)
Lemma parseSlides_origin (zip : JSZip) (files : list string) :
  forall (i : Z) (acc res : list SlideContent),
    parseSlides parse zip files i acc = Ok res ->
    exists pushed,
      res = acc ++ pushed /\
      Forall (fun s =>
                exists (k : nat) (f : string) (o : ZipObject) (xml : string),
                  nth_error files k = Some f /\
                  slideNumber s = i + 1 + Z.of_nat k /\
                  zipFile zip f = Some o /\
                  asyncString o = Ok xml /\
                  truthyString xml = true /\
                  parseSlideXml parse xml (slideNumber s) = Ok s)
             pushed.
Proof.
  induction files as [ | f rest IH ]; intros i acc res H.
  - simpl in H. inversion H; subst res. exists []. rewrite app_nil_r.
    split; [ reflexivity | constructor ].
  - assert (Hshift :
              forall pushed,
                Forall (fun s =>
                          exists k g o xml,
                            nth_error rest k = Some g /\
                            slideNumber s = i + 1 + 1 + Z.of_nat k /\
                            zipFile zip g = Some o /\
                            asyncString o = Ok xml /\
                            truthyString xml = true /\
                            parseSlideXml parse xml (slideNumber s) = Ok s)
                       pushed ->
                Forall (fun s =>
                          exists k g o xml,
                            nth_error (f :: rest) k = Some g /\
                            slideNumber s = i + 1 + Z.of_nat k /\
                            zipFile zip g = Some o /\
                            asyncString o = Ok xml /\
                            truthyString xml = true /\
                            parseSlideXml parse xml (slideNumber s) = Ok s)
                       pushed).
    { intros pushed Hp. refine (Forall_impl _ _ Hp).
      intros s [k [g [o [xml [Hn [Hnum Hrest]]]]]].
      exists (S k), g, o, xml. split; [ exact Hn | ]. split; [ lia | exact Hrest ]. }
    simpl in H.
    destruct (zipFile zip f) as [ o | ] eqn:Ez; simpl in H.
    2: { destruct (IH _ _ _ H) as [pushed [E Hp]]. exists pushed. auto. }
    destruct (asyncString o) as [ xml | e ] eqn:Ea; simpl in H; [ | discriminate ].
    destruct (truthyString xml) eqn:Et.
    2: { destruct (IH _ _ _ H) as [pushed [E Hp]]. exists pushed. auto. }
    destruct (parseSlideXml parse xml (i + 1)) as [ s | e ] eqn:Es;
      simpl in H; [ | discriminate ].
    pose proof (parseSlideXml_slideNumber _ _ _ Es) as Hnum.
    destruct (IH _ _ _ H) as [pushed [E Hp]].
    exists (s :: pushed). rewrite <- app_assoc in E. simpl in E.
    split; [ exact E | ]. constructor; [ | auto ].
    exists 0%nat, f, o, xml. rewrite Hnum. simpl.
    repeat split; auto. lia.
Qed.

(** When every file has non-empty content, the loop pushes a slide for
    each of them. *)
Lemma parseSlides_all_pushed (zip : JSZip) (files : list string) :
  forall (i : Z) (acc res : list SlideContent),
    Forall (fun f => exists o xml, zipFile zip f = Some o /\
                                   asyncString o = Ok xml /\
                                   truthyString xml = true) files ->
    parseSlides parse zip files i acc = Ok res ->
    List.length res = (List.length acc + List.length files)%nat.
Proof.
  induction files as [ | f rest IH ]; intros i acc res Hall H.
  - simpl in H. inversion H. simpl. lia.
  - inversion Hall as [ | ? ? [o [xml [Hz [Ha Ht]]]] Hrest ]; subst.
    simpl in H. rewrite Hz, Ha in H. simpl in H. rewrite Ht in H.
    destruct (parseSlideXml parse xml (i + 1)) as [ s | e ];
      simpl in H; [ | discriminate ].
    rewrite (IH _ _ _ Hrest H), length_app. simpl. lia.
Qed.

(** What [parsePptxFile] returns once the package is unpacked. *)
Lemma parsePptxFile_loaded (file : string) (zip : JSZip) :
  load file = Ok zip ->
  parsePptxFile parse load file =
  tryRethrow
    (slides <- parseSlides parse zip (slideFilesOf zip) 0 [] ;;
     theme <- parseTheme parse zip ;;
     Ok {| slides := slides; theme := theme |})
    PARSE_ERROR.
Proof. intros H. unfold parsePptxFile. now rewrite H. Qed.

Lemma parsePptxFile_Ok_inv (file : string) (zip : JSZip) (p : ParsedPresentation) :
  load file = Ok zip ->
  parsePptxFile parse load file = Ok p ->
  parseSlides parse zip (slideFilesOf zip) 0 [] = Ok (slides p) /\
  parseTheme parse zip = Ok (theme p).
Proof.
  intros Hl H. rewrite (parsePptxFile_loaded _ _ Hl) in H.
  destruct (parseSlides parse zip (slideFilesOf zip) 0 []) as [ ss | e ];
    simpl in H; [ | discriminate ].
  destruct (parseTheme parse zip) as [ th | e ]; simpl in H; [ | discriminate ].
  inversion H. simpl. auto.
Qed.

End ExtractorFacts.

(* --------------------------------------------------------------------- *)
(** *** The claims about the package extractor *)
(* --------------------------------------------------------------------- *)

(** The slide parts are taken in the order of their numeric index, not in
    the order of the listing. *)
Lemma slideFilesOf_zipThree :
  slideFilesOf zipThree
  = ["ppt/slides/slide1.xml"; "ppt/slides/slide2.xml"; "ppt/slides/slide10.xml"].
Proof. vm_compute. reflexivity. Qed.

(** C3, as stated, fails: the first slide part of the package does not
    parse, the second one does, and the extraction as a whole fails with
    the general error; no slide is returned. *)
Lemma corrupt_first_slide_fails_whole_extraction :
  strictParse slideOptions "<p:sld" = Err "Unclosed tag" /\
  strictParse slideOptions "<p:sld/>" = Ok (NObject []) /\
  parsePptxFile strictParse (loadAs zipCorruptFirst) "deck.pptx" = Err PARSE_ERROR.
Proof. vm_compute. repeat split. Qed.

(** C3, amended.  If the XML of one slide part (a part with non-empty
    content) fails to parse, the whole extraction fails with the general
    error "Failed to parse PowerPoint file" and no presentation is
    returned: the slide is not skipped and no other slide of the package
    is delivered. *)
Theorem corrupt_slide_aborts_extraction
        (parse : XMLOptions -> string -> Result Node)
        (load : string -> Result JSZip)
        (file : string) (zip : JSZip)
        (f : string) (o : ZipObject) (xml e : string) :
  load file = Ok zip ->
  In f (slideFilesOf zip) ->
  zipFile zip f = Some o ->
  asyncString o = Ok xml ->
  truthyString xml = true ->
  parse slideOptions xml = Err e ->
  parsePptxFile parse load file = Err PARSE_ERROR.
Proof.
  intros Hload Hin Hz Ha Ht Hp.
  rewrite (parsePptxFile_loaded parse load file zip Hload).
  destruct (parseSlides_parse_error parse zip (slideFilesOf zip) 0 []
              f o xml e Hin Hz Ha Ht Hp) as [e' He'].
  rewrite He'. reflexivity.
Qed.

Lemma corrupt_slide_aborts_extraction_witness :
  parsePptxFile strictParse (loadAs zipCorruptLast) "deck.pptx" = Err PARSE_ERROR.
Proof.
  apply (corrupt_slide_aborts_extraction
           strictParse (loadAs zipCorruptLast) "deck.pptx" zipCorruptLast
           "ppt/slides/slide3.xml" (entry "ppt/slides/slide3.xml" "<p:sld")
           "<p:sld" "Unclosed tag").
  - reflexivity.
  - vm_compute. right. right. left. reflexivity.
  - reflexivity.
  - reflexivity.
  - reflexivity.
  - reflexivity.
Defined.

(** C4, as stated, fails: a package that unpacks and holds no slide part
    is accepted, and the presentation returned has an empty slide list. *)
Lemma package_without_slides_is_accepted :
  filter isSlideFile (map fileName zipNoSlides) = [] /\
  parsePptxFile strictParse (loadAs zipNoSlides) "deck.pptx"
  = Ok {| slides := []; theme := None |}.
Proof. vm_compute. split; reflexivity. Qed.

(** C4, amended.  If the container unpacks and no slide part is found in
    it, the extractor does not fail for that reason: it returns a
    presentation with an empty slide list (and the theme, when the theme
    part is absent or parses). *)
Theorem no_slide_parts_gives_empty_deck
        (parse : XMLOptions -> string -> Result Node)
        (load : string -> Result JSZip)
        (file : string) (zip : JSZip) (th : option Theme) :
  load file = Ok zip ->
  filter isSlideFile (map fileName zip) = [] ->
  parseTheme parse zip = Ok th ->
  parsePptxFile parse load file = Ok {| slides := []; theme := th |}.
Proof.
  intros Hload Hnone Hth.
  rewrite (parsePptxFile_loaded parse load file zip Hload).
  unfold slideFilesOf. rewrite Hnone. simpl. rewrite Hth. reflexivity.
Qed.

Lemma no_slide_parts_gives_empty_deck_witness :
  parsePptxFile strictParse (loadAs zipThemeOnly) "deck.pptx"
  = Ok {| slides := []; theme := Some {| colors := []; fonts := [] |} |}.
Proof.
  apply (no_slide_parts_gives_empty_deck
           strictParse (loadAs zipThemeOnly) "deck.pptx" zipThemeOnly);
    reflexivity.
Defined.

(** C5, as stated, fails: the first slide part of the package is an empty
    file, which the loop passes over; the one slide returned has number
    2, so the numbers are not 1..N for N = 1. *)
Lemma empty_slide_part_leaves_a_gap :
  exists p,
    parsePptxFile strictParse (loadAs zipEmptyFirst) "deck.pptx" = Ok p /\
    List.length (slides p) = 1%nat /\
    map slideNumber (slides p) = [2].
Proof. eexists. vm_compute. repeat split. Qed.

(** C5, amended.  For every package that the extractor accepts, the
    numbers of the returned slides are strictly ascending and each is the
    1-based position of a slide part with non-empty content in the sorted
    list of the slide parts found (so it lies between 1 and their
    number); they are exactly 1..N, N the number of returned slides, when
    no slide part was passed over, which is the case when every slide
    part has non-empty content. *)
Theorem slide_numbers_are_ascending_positions
        (parse : XMLOptions -> string -> Result Node)
        (load : string -> Result JSZip)
        (file : string) (zip : JSZip) (p : ParsedPresentation) :
  load file = Ok zip ->
  parsePptxFile parse load file = Ok p ->
  StronglySorted Z.lt (map slideNumber (slides p)) /\
  Forall (fun n => 1 <= n <= Z.of_nat (List.length (slideFilesOf zip)))
         (map slideNumber (slides p)) /\
  Forall (fun s =>
            exists (k : nat) (f : string) (o : ZipObject) (xml : string),
              nth_error (slideFilesOf zip) k = Some f /\
              slideNumber s = Z.of_nat k + 1 /\
              zipFile zip f = Some o /\
              asyncString o = Ok xml /\
              truthyString xml = true /\
              parseSlideXml parse xml (slideNumber s) = Ok s)
         (slides p) /\
  (List.length (slides p) = List.length (slideFilesOf zip) ->
   map slideNumber (slides p) = map Z.of_nat (seq 1 (List.length (slides p)))) /\
  (Forall (fun f => exists o xml, zipFile zip f = Some o /\
                                  asyncString o = Ok xml /\
                                  truthyString xml = true)
          (slideFilesOf zip) ->
   List.length (slides p) = List.length (slideFilesOf zip)).
Proof.
  intros Hload Hok.
  destruct (parsePptxFile_Ok_inv parse load file zip p Hload Hok) as [Hs _].
  destruct (parseSlides_numbers parse zip _ _ _ _ Hs)
    as [pushed [E [Hsorted [Hbound [_ Hdense]]]]].
  destruct (parseSlides_origin parse zip _ _ _ _ Hs) as [pushed' [E' Horigin]].
  simpl in E, E'. subst pushed'. rewrite E.
  split; [ exact Hsorted | ].
  split; [ refine (Forall_impl _ _ Hbound); intros n Hn; lia | ].
  split.
  { rewrite <- E. refine (Forall_impl _ _ Horigin).
    intros s [k [f [o [xml [Hn [Hnum Hrest]]]]]].
    exists k, f, o, xml. split; [ exact Hn | ]. split; [ lia | exact Hrest ]. }
  split.
  - intros Hlen. rewrite (Hdense Hlen), Hlen. apply map_ext. intros k. lia.
  - intros Hall. rewrite <- E.
    rewrite (parseSlides_all_pushed parse zip _ _ _ _ Hall Hs). reflexivity.
Qed.

Lemma slide_numbers_are_ascending_positions_witness :
  StronglySorted Z.lt (map slideNumber (slides deckThree)) /\
  map slideNumber (slides deckThree) = [1; 2; 3].
Proof.
  destruct (slide_numbers_are_ascending_positions
              strictParse (loadAs zipThree) "deck.pptx" zipThree deckThree
              eq_refl eq_refl) as [Hsorted [_ [_ [Hdense _]]]].
  split; [ exact Hsorted | exact (Hdense eq_refl) ].
Defined.

(* ===================================================================== *)
(** ** Further properties of the validator *)
(* ===================================================================== *)

(** A violation names the rule and the slide it was computed from. *)
Lemma validateSlideAgainstRule_origin (s : SlideContent) (r : DesignRule) (v : Violation) :
  In v (validateSlideAgainstRule s r) -> rule v = r /\ slide v = slideNumber s.
Proof.
  unfold validateSlideAgainstRule. destruct (type r).
  - unfold validateColorRule. destruct (_ =? _)%nat; [ intros [] | ].
    rewrite in_flat_map. intros [t [_ H]].
    destruct (color t); [ | destruct H ].
    destruct (_ && _); [ | destruct H ].
    destruct H as [<- | []]. split; reflexivity.
  - unfold validateFontSizeRule. rewrite in_flat_map. intros [t [_ H]].
    apply fontSizeRun_inv in H. destruct H as [size H]. tauto.
  - unfold validateFontFamilyRule. destruct (_ =? _)%nat; [ intros [] | ].
    rewrite in_flat_map. intros [t [_ H]].
    destruct (fontFamily t); [ | destruct H ].
    destruct (_ && _); [ | destruct H ].
    destruct H as [<- | []]. split; reflexivity.
  - unfold validateImageRule. destruct (_ || _); [ | intros [] ].
    destruct (_ && _); [ | intros [] ].
    intros [<- | []]. split; reflexivity.
  - unfold validateTextRule. destruct (_ && _); [ | intros [] ].
    intros [<- | []]. split; reflexivity.
  - intros [].
  - intros [].
Qed.

(** X1.  Every violation that [validatePresentation] returns carries a
    rule of the rule list it was given and the number of a slide of the
    presentation it was given. *)
Theorem violations_come_from_the_inputs
        (p : ParsedPresentation) (rules : list DesignRule) (v : Violation) :
  In v (validatePresentation p rules) ->
  In (rule v) rules /\
  exists s, In s (slides p) /\ slide v = slideNumber s /\
            In v (validateSlideAgainstRule s (rule v)).
Proof.
  unfold validatePresentation. rewrite in_flat_map. intros [r [Hr H]].
  rewrite in_flat_map in H. destruct H as [s [Hs H]].
  destruct (validateSlideAgainstRule_origin s r v H) as [E1 E2].
  rewrite E1. split; [ exact Hr | ]. exists s. auto.
Qed.

Lemma violations_come_from_the_inputs_witness :
  In titleImageRule [min36Rule; titleImageRule] /\
  exists s, In s (slides deckImagesOnTitle) /\ 1 = slideNumber s /\
            In {| slide := 1; rule := titleImageRule;
                  description := "Slide contains images, which violates the 'no images allowed on title slides' rule";
                  elements := ["Image: rId2"; "Image: rId3"];
                  severity := error |}
               (validateSlideAgainstRule s titleImageRule).
Proof.
  apply (violations_come_from_the_inputs
           deckImagesOnTitle [min36Rule; titleImageRule]
           {| slide := 1; rule := titleImageRule;
              description := "Slide contains images, which violates the 'no images allowed on title slides' rule";
              elements := ["Image: rId2"; "Image: rId3"];
              severity := error |}).
  vm_compute. left. reflexivity.
Defined.

(** X2.  The output is rule-major: the violations of a rule list are those
    of its first part followed by those of its second part; for one rule,
    the violations of a deck are those of its first slides followed by
    those of its last slides; and the theme plays no part. *)
Theorem validation_is_rule_major :
  (forall (p : ParsedPresentation) (rules1 rules2 : list DesignRule),
      validatePresentation p (rules1 ++ rules2)
      = validatePresentation p rules1 ++ validatePresentation p rules2) /\
  (forall (slides1 slides2 : list SlideContent) (th : option Theme) (r : DesignRule),
      validatePresentation {| slides := slides1 ++ slides2; theme := th |} [r]
      = validatePresentation {| slides := slides1; theme := th |} [r]
        ++ validatePresentation {| slides := slides2; theme := th |} [r]) /\
  (forall (ss : list SlideContent) (th1 th2 : option Theme) (rules : list DesignRule),
      validatePresentation {| slides := ss; theme := th1 |} rules
      = validatePresentation {| slides := ss; theme := th2 |} rules).
Proof.
  split; [ | split ].
  - intros p rules1 rules2. unfold validatePresentation. apply flat_map_app.
  - intros slides1 slides2 th r. unfold validatePresentation. simpl.
    rewrite !app_nil_r. apply flat_map_app.
  - intros ss th1 th2 rules. reflexivity.
Qed.

(** X3.  A rule yields at most one violation per text run when it is a
    colour, font-size or font-family rule, at most one per slide when it
    is an image or text rule, and none otherwise. *)
Theorem violations_per_slide_are_bounded (s : SlideContent) (r : DesignRule) :
  (List.length (validateSlideAgainstRule s r)
   <= match type r with
      | Color | FontSize | FontFamily => List.length (texts s)
      | Image | Text => 1
      | SlideType | Custom => 0
      end)%nat.
Proof.
  assert (Hflat : forall (f : TextRun -> list Violation) (l : list TextRun),
             (forall t, List.length (f t) <= 1)%nat ->
             (List.length (flat_map f l) <= List.length l)%nat).
  { intros f l Hf. induction l as [ | t l IH ]; simpl; [ lia | ].
    rewrite length_app. specialize (Hf t). lia. }
  unfold validateSlideAgainstRule. destruct (type r); simpl; try lia.
  - unfold validateColorRule. destruct (_ =? _)%nat; simpl; [ lia | ].
    apply Hflat. intros t. destruct (color t); simpl; [ | lia ].
    destruct (_ && _); simpl; lia.
  - unfold validateFontSizeRule. apply Hflat. intros t. unfold fontSizeRun.
    destruct (fontSize t) as [ size | ]; simpl; [ | lia ].
    destruct (truthyNumber size); simpl; [ | lia ].
    destruct (checkFontSize _ _ size) as [ [ | ] msg ]; simpl; lia.
  - unfold validateFontFamilyRule. destruct (_ =? _)%nat; simpl; [ lia | ].
    apply Hflat. intros t. destruct (fontFamily t); simpl; [ | lia ].
    destruct (_ && _); simpl; lia.
  - unfold validateImageRule. destruct (_ || _); simpl; [ | lia ].
    destruct (_ && _); simpl; lia.
  - unfold validateTextRule. destruct (_ && _); simpl; lia.
Qed.

(** [flat_map] gives nothing exactly when each element gives nothing. *)
Lemma flat_map_nil_iff {A B : Type} (f : A -> list B) (l : list A) :
  flat_map f l = [] <-> Forall (fun x => f x = []) l.
Proof.
  induction l as [ | x l IH ]; simpl.
  - split; [ constructor | reflexivity ].
  - split.
    + intros H. apply app_eq_nil in H. destruct H as [Hx Hl].
      constructor; [ exact Hx | now apply IH ].
    + intros H. inversion H; subst. rewrite H2. simpl. now apply IH.
Qed.

Lemma someMatch_iff (value : string) (allowed : list string) :
  someMatch value allowed = true <->
  exists a, In a allowed /\ includes (toLowerCase value) (toLowerCase a) = true.
Proof. unfold someMatch. apply existsb_exists. Qed.

(** X4.  A colour rule with a non-empty allow-list passes a slide exactly
    when every run with a non-empty colour has a colour in which some
    allowed value occurs, letter case ignored; runs without a colour are
    never flagged.  The font-family rule does the same with [fontFamily]. *)
Theorem allow_list_rule_passes_iff (s : SlideContent) (r : DesignRule) :
  orEmpty (allowedValues (parameters r)) <> [] ->
  (validateColorRule s r = [] <->
   Forall (fun t =>
             forall c, color t = Some c -> c <> "" ->
                       exists a, In a (orEmpty (allowedValues (parameters r))) /\
                                 includes (toLowerCase c) (toLowerCase a) = true)
          (texts s)) /\
  (validateFontFamilyRule s r = [] <->
   Forall (fun t =>
             forall f, fontFamily t = Some f -> f <> "" ->
                       exists a, In a (orEmpty (allowedValues (parameters r))) /\
                                 includes (toLowerCase f) (toLowerCase a) = true)
          (texts s)).
Proof.
  intros Hne.
  assert (Hlen : (List.length (orEmpty (allowedValues (parameters r))) =? 0)%nat = false).
  { destruct (orEmpty (allowedValues (parameters r))); [ congruence | reflexivity ]. }
  assert (Htruthy : forall x, truthyString x = true <-> x <> "").
  { intros x. unfold truthyString. rewrite negb_true_iff.
    split.
    - intros H E. subst x. discriminate.
    - intros H. destruct (String.eqb_spec x ""); [ contradiction | reflexivity ]. }
  split.
  - unfold validateColorRule. rewrite Hlen, flat_map_nil_iff.
    split; intros H; refine (Forall_impl _ _ H); intros t Ht.
    + intros c Hc Hc'. rewrite Hc in Ht. apply someMatch_iff.
      destruct (truthyString c) eqn:E1; [ | apply Htruthy in Hc'; congruence ].
      destruct (someMatch c _); [ reflexivity | discriminate ].
    + destruct (color t) as [ c | ]; [ | reflexivity ].
      destruct (truthyString c) eqn:E1; [ | reflexivity ].
      apply Htruthy in E1. apply (Ht c eq_refl), someMatch_iff in E1.
      now rewrite E1.
  - unfold validateFontFamilyRule. rewrite Hlen, flat_map_nil_iff.
    split; intros H; refine (Forall_impl _ _ H); intros t Ht.
    + intros f Hf Hf'. rewrite Hf in Ht. apply someMatch_iff.
      destruct (truthyString f) eqn:E1; [ | apply Htruthy in Hf'; congruence ].
      destruct (someMatch f _); [ reflexivity | discriminate ].
    + destruct (fontFamily t) as [ f | ]; [ | reflexivity ].
      destruct (truthyString f) eqn:E1; [ | reflexivity ].
      apply Htruthy in E1. apply (Ht f eq_refl), someMatch_iff in E1.
      now rewrite E1.
Qed.

Lemma allow_list_rule_passes_iff_witness :
  (validateColorRule (mkSlide 1 [redRun] []) (allowListRule Color (Some ["ff00"])) = [] <->
   Forall (fun t =>
             forall c, color t = Some c -> c <> "" ->
                       exists a, In a ["ff00"] /\
                                 includes (toLowerCase c) (toLowerCase a) = true)
          [redRun]) /\
  (validateFontFamilyRule (mkSlide 1 [redRun] []) (allowListRule Color (Some ["ff00"])) = [] <->
   Forall (fun t =>
             forall f, fontFamily t = Some f -> f <> "" ->
                       exists a, In a ["ff00"] /\
                                 includes (toLowerCase f) (toLowerCase a) = true)
          [redRun]).
Proof.
  apply (allow_list_rule_passes_iff (mkSlide 1 [redRun] [])
                                    (allowListRule Color (Some ["ff00"]))).
  discriminate.
Defined.

(** X5.  The font-size checker flags a run exactly when its size is
    truthy (defined, not 0, not NaN) and is below a truthy [minValue] or
    above a truthy [maxValue]. *)
Theorem font_size_run_flagged_iff (s : SlideContent) (r : DesignRule) (t : TextRun) :
  fontSizeRun s r t <> [] <->
  exists size,
    fontSize t = Some size /\ truthyNumber size = true /\
    ((exists m, minValue (parameters r) = Some m /\ truthyNumber m = true
                /\ lt size m = true)
     \/ (exists m, maxValue (parameters r) = Some m /\ truthyNumber m = true
                   /\ gt size m = true)).
Proof.
  split.
  - intros H. destruct (fontSizeRun s r t) as [ | v l ] eqn:E; [ congruence | ].
    assert (Hin : In v (fontSizeRun s r t)) by (rewrite E; left; reflexivity).
    apply fontSizeRun_inv in Hin.
    destruct Hin as [size [Hs [Ht [Hc _]]]].
    exists size. split; [ exact Hs | ]. split; [ exact Ht | ].
    apply checkFontSize_found in Hc.
    destruct Hc as [[m [Hm [Htm [Hg _]]]] | [m [Hm [Htm [Hl _]]]]].
    + right. exists m. auto.
    + left. exists m. auto.
  - intros [size [Hs [Ht H]]]. unfold fontSizeRun. rewrite Hs, Ht.
    assert (Hc : exists msg,
               checkFontSize (minValue (parameters r)) (maxValue (parameters r)) size
               = (true, msg)).
    { unfold checkFontSize.
      destruct H as [[m [Hm [Htm Hl]]] | [m [Hm [Htm Hg]]]].
      - rewrite Hm, Htm, Hl. simpl.
        destruct (maxValue (parameters r)) as [ m' | ]; [ | eauto ].
        destruct (truthyNumber m' && gt size m'); eauto.
      - rewrite Hm, Htm, Hg. simpl. eauto. }
    destruct Hc as [msg Hc]. rewrite Hc. discriminate.
Qed.

(** X6.  The bounds are inclusive: a run whose size lies between
    [minValue] and [maxValue], the bounds included, is not flagged. *)
Theorem font_size_within_bounds_passes
        (s : SlideContent) (r : DesignRule) (t : TextRun) (q mn mx : Q) :
  fontSize t = Some (Num q) ->
  minValue (parameters r) = Some (Num mn) ->
  maxValue (parameters r) = Some (Num mx) ->
  (mn <= q)%Q -> (q <= mx)%Q ->
  fontSizeRun s r t = [].
Proof.
  intros Hs Hmin Hmax Hlo Hhi.
  destruct (fontSizeRun s r t) as [ | v l ] eqn:E; [ reflexivity | ].
  assert (Hin : In v (fontSizeRun s r t)) by (rewrite E; left; reflexivity).
  apply fontSizeRun_inv in Hin. destruct Hin as [size [Hs' [_ [Hc _]]]].
  apply checkFontSize_found in Hc.
  destruct Hc as [[m [Hm [_ [Hg _]]]] | [m [Hm [_ [Hl _]]]]].
  - rewrite Hs in Hs'. rewrite Hmax in Hm. inversion Hs'; inversion Hm; subst.
    apply lt_Num in Hg. exfalso. exact (Qlt_not_le _ _ Hg Hhi).
  - rewrite Hs in Hs'. rewrite Hmin in Hm. inversion Hs'; inversion Hm; subst.
    apply lt_Num in Hl. exfalso. exact (Qlt_not_le _ _ Hl Hlo).
Qed.

Lemma font_size_within_bounds_passes_witness :
  fontSizeRun (mkSlide 1 [mkRun "Title" (Some (ofZ 36))] [])
              (fontSizeRule "font size minimum is 36, maximum is 72"
                            (Some (ofZ 36)) (Some (ofZ 72)))
              (mkRun "Title" (Some (ofZ 36))) = [].
Proof.
  apply (font_size_within_bounds_passes _ _ _ (inject_Z 36) (inject_Z 36) (inject_Z 72));
    try reflexivity; unfold Qle; simpl; lia.
Defined.

(** X7.  A font-size rule none of whose bounds is usable (absent, 0 or
    NaN) never yields a violation. *)
Theorem font_size_rule_without_bounds_is_silent (s : SlideContent) (r : DesignRule) :
  truthyOptNumber (minValue (parameters r)) = false ->
  truthyOptNumber (maxValue (parameters r)) = false ->
  validateFontSizeRule s r = [].
Proof.
  intros Hmin Hmax. unfold validateFontSizeRule. apply flat_map_nil_iff.
  apply Forall_forall. intros t _.
  destruct (fontSizeRun s r t) as [ | v l ] eqn:E; [ reflexivity | ].
  assert (Hin : In v (fontSizeRun s r t)) by (rewrite E; left; reflexivity).
  apply fontSizeRun_inv in Hin. destruct Hin as [size [_ [_ [Hc _]]]].
  apply checkFontSize_found in Hc.
  destruct Hc as [[m [Hm [Ht _]]] | [m [Hm [Ht _]]]].
  - rewrite Hm in Hmax. simpl in Hmax. congruence.
  - rewrite Hm in Hmin. simpl in Hmin. congruence.
Qed.

Lemma font_size_rule_without_bounds_is_silent_witness :
  validateFontSizeRule
    (mkSlide 1 [mkRun "Tiny" (Some (ofZ 2)); mkRun "Huge" (Some (ofZ 400))] [])
    (fontSizeRule "all titles must be font size 36 or higher" None (Some NaN)) = [].
Proof.
  apply font_size_rule_without_bounds_is_silent; reflexivity.
Defined.

(** X8.  Whether the image rule fires does not depend on the number of
    the slide: it fires exactly when [forbidden] holds "all" or "images",
    [slideTypes] is empty or holds "all" or "title", and the slide has an
    image; it then yields one violation that lists every image of the
    slide in order.  A rule scoped to other tags only (such as "content")
    never fires. *)
Theorem image_rule_ignores_slide_position (s : SlideContent) (r : DesignRule) :
  let forb := orEmpty (forbidden (parameters r)) in
  let scope := orEmpty (slideTypes (parameters r)) in
  let fires :=
    (arrayIncludes forb "all" || arrayIncludes forb "images")
    && ((List.length scope =? 0)%nat || arrayIncludes scope "all"
        || arrayIncludes scope "title")
    && negb (List.length (images s) =? 0)%nat in
  validateImageRule s r =
  if fires then
    [ {| slide := slideNumber s; rule := r;
         description := "Slide contains images, which violates the '" +++
                        RulesParser.description r +++ "' rule";
         elements := map (fun img => "Image: " +++ name img) (images s);
         severity := error |} ]
  else [].
Proof.
  simpl. unfold validateImageRule.
  destruct (arrayIncludes (orEmpty (forbidden (parameters r))) "all"
            || arrayIncludes (orEmpty (forbidden (parameters r))) "images");
    [ | reflexivity ].
  simpl.
  replace (0 <? List.length (images s))%nat
    with (negb (List.length (images s) =? 0)%nat)
    by (destruct (images s); reflexivity).
  destruct (arrayIncludes (orEmpty (slideTypes (parameters r))) "title") eqn:Et.
  - rewrite !orb_true_r. simpl. reflexivity.
  - rewrite !orb_false_r, !andb_false_r, !orb_false_r. reflexivity.
Qed.

(** X9.  Runs without formatting are never flagged: on a slide none of
    whose runs has a colour, a font size or a font family, a colour,
    font-size or font-family rule yields no violation. *)
Theorem unformatted_runs_are_never_flagged (s : SlideContent) (r : DesignRule) :
  Forall (fun t => color t = None /\ fontSize t = None /\ fontFamily t = None)
         (texts s) ->
  type r = Color \/ type r = FontSize \/ type r = FontFamily ->
  validateSlideAgainstRule s r = [].
Proof.
  intros Hall Hty. unfold validateSlideAgainstRule.
  destruct Hty as [-> | [-> | ->]].
  - unfold validateColorRule. destruct (_ =? _)%nat; [ reflexivity | ].
    apply flat_map_nil_iff. refine (Forall_impl _ _ Hall).
    intros t [-> _]. reflexivity.
  - unfold validateFontSizeRule. apply flat_map_nil_iff.
    refine (Forall_impl _ _ Hall).
    intros t [_ [Hs _]]. unfold fontSizeRun. now rewrite Hs.
  - unfold validateFontFamilyRule. destruct (_ =? _)%nat; [ reflexivity | ].
    apply flat_map_nil_iff. refine (Forall_impl _ _ Hall).
    intros t [_ [_ ->]]. reflexivity.
Qed.

Lemma unformatted_runs_are_never_flagged_witness :
  validateSlideAgainstRule (mkSlide 1 [mkRun "Hello" None; mkRun "World" None] [])
                           (allowListRule Color (Some ["black"])) = [].
Proof.
  apply unformatted_runs_are_never_flagged.
  - repeat constructor.
  - left. reflexivity.
Defined.

(* ===================================================================== *)
(** ** What the matcher guarantees *)
(* ===================================================================== *)

Import Shape.

Lemma substring0_app (w s : string) : substring0 (String.length w) (w +++ s) = w.
Proof.
  unfold substring0. induction w as [ | c w IH ]; simpl.
  - destruct s; reflexivity.
  - now rewrite IH.
Qed.

Lemma allChars_app (p : ascii -> bool) (a b : string) :
  allChars p (a +++ b) = allChars p a && allChars p b.
Proof.
  induction a as [ | c a IH ]; simpl; [ reflexivity | ].
  now rewrite IH, andb_assoc.
Qed.

Section MatcherFacts.
Context {R : Type}.

(** A greedy or lazy repetition hands to its continuation what is left
    after a run of characters of the class. *)
Lemma starGreedy_sound (p : ascii -> bool) (s : string) :
  forall (pos : nat) (k : nat -> string -> option R) (res : R),
    starGreedy p pos s k = Some res ->
    exists w s', s = w +++ s' /\ allChars p w = true /\
                 k (pos + String.length w)%nat s' = Some res.
Proof.
  induction s as [ | c s IH ]; intros pos k res H; simpl in H.
  - exists "", "". rewrite Nat.add_0_r. auto.
  - destruct (p c) eqn:Ec.
    + destruct (starGreedy p (S pos) s k) as [ r | ] eqn:E.
      * inversion H; subst r. destruct (IH _ _ _ E) as [w [s' [Hs [Hw Hk]]]].
        exists (String c w), s'. simpl. rewrite Ec, Hw, Hs.
        rewrite Nat.add_succ_r. auto.
      * exists "", (String c s). rewrite Nat.add_0_r. auto.
    + exists "", (String c s). rewrite Nat.add_0_r. auto.
Qed.

Lemma starLazy_sound (p : ascii -> bool) (s : string) :
  forall (pos : nat) (k : nat -> string -> option R) (res : R),
    starLazy p pos s k = Some res ->
    exists w s', s = w +++ s' /\ allChars p w = true /\
                 k (pos + String.length w)%nat s' = Some res.
Proof.
  induction s as [ | c s IH ]; intros pos k res H; simpl in H.
  - destruct (k pos "") eqn:E; [ | discriminate ].
    inversion H; subst. exists "", "". rewrite Nat.add_0_r. auto.
  - destruct (k pos (String c s)) eqn:E.
    + inversion H; subst. exists "", (String c s). rewrite Nat.add_0_r. auto.
    + destruct (p c) eqn:Ec; [ | discriminate ].
      destruct (IH _ _ _ H) as [w [s' [Hs [Hw Hk]]]].
      exists (String c w), s'. simpl. rewrite Ec, Hw, Hs.
      rewrite Nat.add_succ_r. auto.
Qed.

Lemma run_Plus_sound (ci : bool) (p : ascii -> bool) (pos : nat) (s : string)
      (cap : option string) (k : cont) (res : R) :
  run ci (Plus p) pos s cap k = Some res ->
  exists w s', s = w +++ s' /\ word p w /\
               k (pos + String.length w)%nat s' cap = Some res.
Proof.
  simpl. destruct s as [ | c s ]; [ discriminate | ].
  destruct (p c) eqn:Ec; [ | discriminate ].
  intros H. apply starGreedy_sound in H. destruct H as [w [s' [Hs [Hw Hk]]]].
  exists (String c w), s'. simpl. rewrite Hs.
  split; [ reflexivity | ]. split.
  - split; [ discriminate | ]. simpl. now rewrite Ec, Hw.
  - rewrite Nat.add_succ_r. exact Hk.
Qed.

Lemma run_PlusLazy_sound (ci : bool) (p : ascii -> bool) (pos : nat) (s : string)
      (cap : option string) (k : cont) (res : R) :
  run ci (PlusLazy p) pos s cap k = Some res ->
  exists w s', s = w +++ s' /\ word p w /\
               k (pos + String.length w)%nat s' cap = Some res.
Proof.
  simpl. destruct s as [ | c s ]; [ discriminate | ].
  destruct (p c) eqn:Ec; [ | discriminate ].
  intros H. apply starLazy_sound in H. destruct H as [w [s' [Hs [Hw Hk]]]].
  exists (String c w), s'. simpl. rewrite Hs.
  split; [ reflexivity | ]. split.
  - split; [ discriminate | ]. simpl. now rewrite Ec, Hw.
  - rewrite Nat.add_succ_r. exact Hk.
Qed.

(** When the groups of an expression are [(c+)] or [(c+?)], a match
    either leaves the capture as it was or sets it to a word of the
    class. *)
Lemma run_groups (p : ascii -> bool) (r : regex) :
  GroupsOf p r ->
  forall (ci : bool) (pos : nat) (s : string) (cap : option string)
         (k : cont) (res : R),
    run ci r pos s cap k = Some res ->
    exists pos' s' cap',
      k pos' s' cap' = Some res /\
      (cap' = cap \/ exists d, cap' = Some d /\ word p d).
Proof.
  intros Hg.
  induction Hg as [ l | q | q | q | q | r Hg IH | r1 r2 Hg1 IH1 Hg2 IH2
                  | r1 r2 Hg1 IH1 Hg2 IH2 | | | | ];
    intros ci pos s cap k res Hrun.
  - simpl in Hrun. destruct (stripLit ci l s); [ | discriminate ]. eauto 6.
  - simpl in Hrun. destruct s as [ | c s ]; [ discriminate | ].
    destruct (q c); [ | discriminate ]. eauto 6.
  - simpl in Hrun. apply starGreedy_sound in Hrun.
    destruct Hrun as [w [s' [_ [_ Hk]]]]. eauto 6.
  - apply run_Plus_sound in Hrun. destruct Hrun as [w [s' [_ [_ Hk]]]]. eauto 6.
  - apply run_PlusLazy_sound in Hrun. destruct Hrun as [w [s' [_ [_ Hk]]]]. eauto 6.
  - simpl in Hrun. destruct (run ci r pos s cap k) eqn:E.
    + inversion Hrun; subst. eapply IH; eauto.
    + eauto 6.
  - simpl in Hrun. destruct (run ci r1 pos s cap k) eqn:E.
    + inversion Hrun; subst. eapply IH1; eauto.
    + eapply IH2; eauto.
  - simpl in Hrun. apply IH1 in Hrun.
    destruct Hrun as [pos1 [s1 [cap1 [Hrun Hc1]]]].
    apply IH2 in Hrun. destruct Hrun as [pos2 [s2 [cap2 [Hrun Hc2]]]].
    exists pos2, s2, cap2. split; [ exact Hrun | ].
    destruct Hc2 as [-> | Hd]; [ exact Hc1 | right; exact Hd ].
  - change (run ci (Group (Plus p)) pos s cap k)
      with (run ci (Plus p) pos s cap
                (fun pos' s' _ => k pos' s' (Some (substring0 (pos' - pos) s))))
      in Hrun.
    apply run_Plus_sound in Hrun. destruct Hrun as [w [s' [Hs [Hw Hk]]]].
    rewrite Nat.add_comm, Nat.add_sub, Hs, substring0_app in Hk. eauto 8.
  - change (run ci (Group (PlusLazy p)) pos s cap k)
      with (run ci (PlusLazy p) pos s cap
                (fun pos' s' _ => k pos' s' (Some (substring0 (pos' - pos) s))))
      in Hrun.
    apply run_PlusLazy_sound in Hrun. destruct Hrun as [w [s' [Hs [Hw Hk]]]].
    rewrite Nat.add_comm, Nat.add_sub, Hs, substring0_app in Hk. eauto 8.
  - simpl in Hrun. destruct (pos =? 0)%nat; [ | discriminate ]. eauto 6.
  - simpl in Hrun. destruct s; [ | discriminate ]. eauto 6.
Qed.

(** When every match goes through the group, the capture is a word of
    the class at the end of a match. *)
Lemma run_sets_group (p : ascii -> bool) (r : regex) :
  SetsGroup p r ->
  forall (ci : bool) (pos : nat) (s : string) (cap : option string)
         (k : cont) (res : R),
    run ci r pos s cap k = Some res ->
    exists pos' s' d, k pos' s' (Some d) = Some res /\ word p d.
Proof.
  intros Hs.
  induction Hs as [ | | r1 r2 Hs1 IH Hg | r1 r2 Hg Hs2 IH | r1 r2 Hs1 IH1 Hs2 IH2 ];
    intros ci pos s cap k res Hrun.
  - change (run ci (Group (Plus p)) pos s cap k)
      with (run ci (Plus p) pos s cap
                (fun pos' s' _ => k pos' s' (Some (substring0 (pos' - pos) s))))
      in Hrun.
    apply run_Plus_sound in Hrun. destruct Hrun as [w [s1 [Hs [Hw Hk1]]]].
    rewrite Nat.add_comm, Nat.add_sub, Hs, substring0_app in Hk1. eauto.
  - change (run ci (Group (PlusLazy p)) pos s cap k)
      with (run ci (PlusLazy p) pos s cap
                (fun pos' s' _ => k pos' s' (Some (substring0 (pos' - pos) s))))
      in Hrun.
    apply run_PlusLazy_sound in Hrun. destruct Hrun as [w [s1 [Hs [Hw Hk1]]]].
    rewrite Nat.add_comm, Nat.add_sub, Hs, substring0_app in Hk1. eauto.
  - simpl in Hrun. apply IH in Hrun.
    destruct Hrun as [pos1 [s1 [d [Hrun Hd]]]].
    apply (run_groups p _ Hg) in Hrun.
    destruct Hrun as [pos2 [s2 [cap2 [Hk [-> | [d' [-> Hd']]]]]]]; eauto.
  - simpl in Hrun. apply (run_groups p _ Hg) in Hrun.
    destruct Hrun as [pos1 [s1 [cap1 [Hrun _]]]].
    apply IH in Hrun. exact Hrun.
  - simpl in Hrun. destruct (run ci r1 pos s cap k) eqn:E.
    + inversion Hrun; subst. eapply IH1; eauto.
    + eapply IH2; eauto.
Qed.

End MatcherFacts.

Ltac groups_of := solve [ repeat constructor ].

Ltac sets_group :=
  first [ apply sg_Group
        | apply sg_GroupLazy
        | apply sg_SeqR; [ groups_of | sets_group ]
        | apply sg_SeqL; [ sets_group | groups_of ]
        | apply sg_Alt; sets_group ].

(** The capture of a match of an expression whose every match goes
    through a group [(c+)] or [(c+?)] is a non-empty word of the class. *)
Lemma exec_capture_word (p : ascii -> bool) (r : regex) (ci : bool)
      (s : string) (m : MatchResult) :
  SetsGroup p r -> exec ci r s = Some m -> word p (capture m).
Proof.
  intros Hr. unfold exec. generalize 0%nat as pos.
  induction s as [ | c s IH ]; intros pos H; simpl in H.
  - destruct (matchAt ci r pos "") eqn:E; [ | discriminate ].
    inversion H; subst. unfold matchAt in E.
    apply (run_sets_group p r Hr) in E. destruct E as [pos' [s' [d [E Hd]]]].
    inversion E. exact Hd.
  - destruct (matchAt ci r pos (String c s)) eqn:E.
    + inversion H; subst. unfold matchAt in E.
      apply (run_sets_group p r Hr) in E. destruct E as [pos' [s' [d [E Hd]]]].
      inversion E. exact Hd.
    + eapply IH; eauto.
Qed.

(** *** Numbers read from digits *)

Lemma digit_is_no_space (c : ascii) : isDigit c = true -> isSpace c = false.
Proof.
  unfold isDigit, isSpace. intros H. apply andb_true_iff in H.
  destruct H as [H1 H2]. apply N.leb_le in H1. apply N.leb_le in H2.
  apply orb_false_iff. split.
  - apply N.eqb_neq. lia.
  - apply andb_false_iff. right. apply N.leb_gt. lia.
Qed.

Lemma digitVal_range (c : ascii) : isDigit c = true -> 0 <= digitVal c <= 9.
Proof.
  unfold isDigit, digitVal. intros H. apply andb_true_iff in H.
  destruct H as [H1 H2]. apply N.leb_le in H1. apply N.leb_le in H2. lia.
Qed.

Lemma digitsValue_word (s : string) :
  forall acc : option Z,
    allChars isDigit s = true ->
    (forall a, acc = Some a -> 0 <= a) ->
    (s <> "" \/ acc <> None) ->
    exists v, digitsValue s acc = Some v /\ 0 <= v.
Proof.
  induction s as [ | c s IH ]; intros acc Hall Hacc Hne; simpl.
  - destruct acc as [ a | ]; [ eauto | ]. destruct Hne; congruence.
  - simpl in Hall. apply andb_true_iff in Hall. destruct Hall as [Hc Hs].
    rewrite Hc. apply IH; [ exact Hs | | right; discriminate ].
    pose proof (digitVal_range c Hc) as Hd.
    intros a Ha. destruct acc as [ a0 | ]; inversion Ha; subst.
    + specialize (Hacc a0 eq_refl). lia.
    + lia.
Qed.

(** [parseInt] of a non-empty string of digits is the value of the
    digits. *)
Lemma parseInt_word_value (d : string) :
  word isDigit d ->
  exists v, digitsValue d None = Some v /\ 0 <= v /\ parseInt d = ofZ v.
Proof.
  intros [Hne Hall]. destruct d as [ | c d ]; [ congruence | ].
  pose proof Hall as Hall'. simpl in Hall'. apply andb_true_iff in Hall'.
  destruct Hall' as [Hc _].
  destruct (digitsValue_word (String c d) None Hall) as [v [Hv Hv0]];
    [ discriminate | left; discriminate | ].
  exists v. split; [ exact Hv | ]. split; [ exact Hv0 | ].
  unfold parseInt. simpl trimStart. rewrite (digit_is_no_space c Hc).
  assert (E : (let '(neg, s2) :=
                 match String c d with
                 | String "-" r => (true, r)
                 | String "+" r => (false, r)
                 | _ => (false, String c d)
                 end in
               match digitsValue s2 None with
               | Some v0 => ofZ (if neg then - v0 else v0)
               | None => NaN
               end)
              = match digitsValue (String c d) None with
                | Some v0 => ofZ v0
                | None => NaN
                end).
  { destruct c as [[] [] [] [] [] [] [] []]; try discriminate Hc; reflexivity. }
  rewrite E, Hv. reflexivity.
Qed.


(** The value of a run of digits that follows the digits of [a]. *)
Lemma digitsValue_lt (s : string) :
  forall a : Z,
    allChars isDigit s = true -> 0 <= a ->
    exists v, digitsValue s (Some a) = Some v /\
              a * 10 ^ Z.of_nat (String.length s) <= v
              < (a + 1) * 10 ^ Z.of_nat (String.length s).
Proof.
  induction s as [ | c s IH ]; intros a Hall Ha.
  - exists a. simpl. split; [ reflexivity | lia ].
  - simpl in Hall. apply andb_true_iff in Hall. destruct Hall as [Hc Hs].
    pose proof (digitVal_range c Hc) as Hd.
    destruct (IH (a * 10 + digitVal c) Hs) as [v [Hv Hb]]; [ lia | ].
    exists v. simpl digitsValue. rewrite Hc. split; [ exact Hv | ].
    cbn [String.length]. rewrite Nat2Z.inj_succ, Z.pow_succ_r by lia.
    assert (Hpow : 0 < 10 ^ Z.of_nat (String.length s))
      by (apply Z.pow_pos_nonneg; lia).
    nia.
Qed.

(** A run of at most 15 digits is read as a natural number below
    10^15, the range in which every integer is a JavaScript number. *)
Lemma parseInt_short (d : string) :
  word isDigit d -> (String.length d <= 15)%nat ->
  exists z, 0 <= z < 10 ^ 15 /\ parseInt d = ofZ z.
Proof.
  intros Hw Hlen. destruct (parseInt_word_value d Hw) as [v [Hv [Hv0 Hp]]].
  exists v. split; [ | exact Hp ]. split; [ exact Hv0 | ].
  destruct Hw as [Hne Hall]. destruct d as [ | c d ]; [ congruence | ].
  simpl in Hall. apply andb_true_iff in Hall. destruct Hall as [Hc Hd].
  simpl in Hv. rewrite Hc in Hv.
  pose proof (digitVal_range c Hc) as Hr.
  destruct (digitsValue_lt d (digitVal c) Hd) as [v' [Hv' Hb]]; [ lia | ].
  rewrite Hv' in Hv. inversion Hv; subst v'.
  cbn [String.length] in Hlen.
  assert (Hpow : 0 < 10 ^ Z.of_nat (String.length d))
    by (apply Z.pow_pos_nonneg; lia).
  assert (Hle : 10 ^ Z.of_nat (S (String.length d)) <= 10 ^ 15)
    by (apply Z.pow_le_mono_r; lia).
  rewrite Nat2Z.inj_succ, Z.pow_succ_r in Hle by lia.
  nia.
Qed.

(** *** Where a capture comes from *)








Section CaptureFacts.
Context {R : Type}.



End CaptureFacts.


(** *** The longest run of digits of a text *)







(* --------------------------------------------------------------------- *)
(** *** Further properties of the rule compiler *)
(* --------------------------------------------------------------------- *)



(** X11.  The compiler loses no statement: [parseRuleText] returns no
    rule exactly when the statement, without its bullet and trimmed, is
    empty; every other statement becomes a rule. *)
Theorem only_empty_statements_are_dropped (ruleText : string) (n : Z) :
  parseRuleText ruleText n = None <-> trim (replace false reBullet "" ruleText) = "".
Proof.
  unfold parseRuleText.
  set (cleanText := trim (replace false reBullet "" ruleText)).
  cbv zeta. split.
  - intros H.
    destruct (includes cleanText "text color" && includes cleanText "allowed");
      [ discriminate | ].
    destruct (includes cleanText "font size"
              || includes cleanText "title" && includes cleanText "size");
      [ discriminate | ].
    destruct ((includes cleanText "image" || includes cleanText "picture")
              && (includes cleanText "no " || includes cleanText "not allowed"
                  || includes cleanText "forbidden"));
      [ discriminate | ].
    destruct (includes cleanText "font"
              && (includes cleanText "family" || includes cleanText "type"));
      [ discriminate | ].
    destruct (includes cleanText "text" && negb (includes cleanText "color")
              && negb (includes cleanText "size"));
      [ discriminate | ].
    destruct cleanText; [ reflexivity | discriminate ].
  - intros ->. reflexivity.
Qed.

(** X12.  The kind of a compiled rule fixes which parameters it carries:
    a colour or font-family rule has an allow-list and nothing else, a
    font-size rule has at most the two bounds, an image rule forbids
    "all" and has a scope, a text or custom rule has no parameter, and no
    rule of the reserved kind [slide-type] is ever produced.  The rule
    has the id [rule-n] and its description is the cleaned statement,
    which is not empty. *)
Theorem compiled_rule_shape (ruleText : string) (n : Z) (r : DesignRule) :
  parseRuleText ruleText n = Some r ->
  id r = ruleId n /\
  RulesParser.description r = trim (replace false reBullet "" ruleText) /\
  RulesParser.description r <> "" /\
  match type r with
  | Color | FontFamily =>
      parameters r
      = {| allowedValues := Some (extractAllowedValues (RulesParser.description r));
           minValue := None; maxValue := None; forbidden := None;
           slideTypes := None; pattern := None |}
  | FontSize =>
      parameters r
      = {| allowedValues := None;
           minValue := extractMinValue (RulesParser.description r);
           maxValue := extractMaxValue (RulesParser.description r);
           forbidden := None; slideTypes := None; pattern := None |}
  | Image =>
      parameters r
      = {| allowedValues := None; minValue := None; maxValue := None;
           forbidden := Some ["all"];
           slideTypes := Some (extractSlideTypes (RulesParser.description r));
           pattern := None |}
  | Text | Custom => parameters r = noParameters
  | SlideType => False
  end.
Proof.
  unfold parseRuleText.
  set (cleanText := trim (replace false reBullet "" ruleText)).
  cbv zeta. intros H.
  assert (Hne : forall b : bool,
             (cleanText = "" -> b = false) -> b = true -> cleanText <> "").
  { intros b Hb Ht E. rewrite (Hb E) in Ht. discriminate. }
  destruct (includes cleanText "text color" && includes cleanText "allowed") eqn:E1.
  { inversion H; subst r; simpl. repeat split.
    refine (Hne _ _ E1). intros ->. reflexivity. }
  destruct (includes cleanText "font size"
            || includes cleanText "title" && includes cleanText "size") eqn:E2.
  { inversion H; subst r; simpl. repeat split.
    refine (Hne _ _ E2). intros ->. reflexivity. }
  destruct ((includes cleanText "image" || includes cleanText "picture")
            && (includes cleanText "no " || includes cleanText "not allowed"
                || includes cleanText "forbidden")) eqn:E3.
  { inversion H; subst r; simpl. repeat split.
    refine (Hne _ _ E3). intros ->. reflexivity. }
  destruct (includes cleanText "font"
            && (includes cleanText "family" || includes cleanText "type")) eqn:E4.
  { inversion H; subst r; simpl. repeat split.
    refine (Hne _ _ E4). intros ->. reflexivity. }
  destruct (includes cleanText "text" && negb (includes cleanText "color")
            && negb (includes cleanText "size")) eqn:E5.
  { inversion H; subst r; simpl. repeat split.
    refine (Hne _ _ E5). intros ->. reflexivity. }
  destruct (0 <? String.length cleanText)%nat eqn:E6; [ | discriminate ].
  inversion H; subst r; simpl. repeat split.
  refine (Hne _ _ E6). intros ->. reflexivity.
Qed.

Lemma compiled_rule_shape_witness :
  id titleImageRule = ruleId 1 /\
  RulesParser.description titleImageRule
  = trim (replace false reBullet "" "* no images allowed on title slides  ") /\
  RulesParser.description titleImageRule <> "" /\
  parameters titleImageRule
  = {| allowedValues := None; minValue := None; maxValue := None;
       forbidden := Some ["all"];
       slideTypes := Some (extractSlideTypes (RulesParser.description titleImageRule));
       pattern := None |}.
Proof.
  apply (compiled_rule_shape "* no images allowed on title slides  " 1 titleImageRule).
  vm_compute. reflexivity.
Defined.

(** *** The bullet *)

Lemma dropWhile_isSpace (s : string) : dropWhile isSpace s = trimStart s.
Proof. induction s as [ | c s IH ]; simpl; [ | rewrite IH ]; reflexivity. Qed.

Lemma trimStart_spaces (ws s : string) :
  allChars isSpace ws = true -> trimStart (ws +++ s) = trimStart s.
Proof.
  induction ws as [ | c ws IH ]; simpl; [ reflexivity | ].
  intros H. apply andb_true_iff in H. destruct H as [Hc Hws].
  rewrite Hc. now apply IH.
Qed.

Lemma trimStart_idem (s : string) : trimStart (trimStart s) = trimStart s.
Proof.
  induction s as [ | c s IH ]; simpl; [ reflexivity | ].
  destruct (isSpace c) eqn:E; [ exact IH | ]. simpl. now rewrite E.
Qed.

(** A greedy repetition in front of a continuation that always succeeds
    takes every character of the class. *)
Lemma starGreedy_total {R : Type} (p : ascii -> bool) (s : string) :
  forall (pos : nat) (f : nat -> string -> R),
    exists n, starGreedy p pos s (fun a b => Some (f a b))
              = Some (f n (dropWhile p s)).
Proof.
  induction s as [ | c s IH ]; intros pos f; simpl.
  - eauto.
  - destruct (p c); [ | eauto ].
    destruct (IH (S pos) f) as [n Hn]. rewrite Hn. eauto.
Qed.

(** [^] does not match after the start of the text. *)
Lemma execFrom_bullet_later (s : string) :
  forall pos : nat, pos <> 0%nat -> execFrom false reBullet pos s = None.
Proof.
  induction s as [ | c s IH ]; intros pos Hpos; simpl.
  - unfold matchAt, reBullet. simpl.
    destruct (Nat.eqb_spec pos 0); [ contradiction | reflexivity ].
  - unfold matchAt at 1. unfold reBullet at 1. simpl.
    destruct (Nat.eqb_spec pos 0); [ contradiction | ].
    apply IH. discriminate.
Qed.

(** What [replace(/^[-*]\s*/, '')] returns: a leading dash or star goes
    away together with the white space that follows it. *)
Lemma replace_bullet (s : string) :
  replace false reBullet "" s
  = match s with
    | String c s' => if dashOrStar c then trimStart s' else s
    | EmptyString => s
    end.
Proof.
  unfold replace, exec. destruct s as [ | c s ]; [ reflexivity | ].
  simpl execFrom. unfold matchAt at 1. unfold reBullet at 1. simpl run.
  destruct (dashOrStar c).
  - destruct (starGreedy_total isSpace s 1
                (fun pos' s' => {| index := 0; matchLen := pos' - 0;
                                   after := s'; group1 := None |}))
      as [k Hk].
    rewrite Hk. simpl. unfold substring0. simpl.
    now rewrite dropWhile_isSpace.
  - now rewrite (execFrom_bullet_later s 1).
Qed.

(** X13.  A leading bullet does not change the rule: a statement that
    starts with a dash or a star, followed by any white space, compiles
    to what the statement compiles to without them (the statement itself
    not starting with a dash or a star). *)
Theorem leading_bullet_is_ignored (b : ascii) (ws t : string) (n : Z) :
  dashOrStar b = true ->
  allChars isSpace ws = true ->
  (forall c t', t = String c t' -> dashOrStar c = false) ->
  parseRuleText (String b (ws +++ t)) n = parseRuleText t n.
Proof.
  intros Hb Hws Ht.
  assert (E : trim (replace false reBullet "" (String b (ws +++ t)))
              = trim (replace false reBullet "" t)).
  { rewrite !replace_bullet, Hb.
    replace (match t with
             | String c s' => if dashOrStar c then trimStart s' else t
             | EmptyString => t
             end) with t
      by (destruct t as [ | c t' ]; [ | rewrite (Ht c t' eq_refl) ]; reflexivity).
    unfold trim. now rewrite (trimStart_spaces ws t Hws), trimStart_idem. }
  unfold parseRuleText. now rewrite E.
Qed.

Lemma leading_bullet_is_ignored_witness :
  parseRuleText ("-" +++ "  " +++ "font size minimum is 36") 7
  = parseRuleText "font size minimum is 36" 7.
Proof.
  apply (leading_bullet_is_ignored "-" "  " "font size minimum is 36" 7).
  - reflexivity.
  - reflexivity.
  - intros c t' E. inversion E. reflexivity.
Defined.

(** *** Rule ids *)

Lemma to_int_not_nil (z : Z) :
  Z.to_int z <> Decimal.Pos Decimal.Nil /\ Z.to_int z <> Decimal.Neg Decimal.Nil.
Proof.
  destruct z as [ | p | p ]; simpl; split; try discriminate;
    intros E; inversion E as [E']; exact (Unsigned.to_uint_nonnil p E').
Qed.

Lemma Z_toString_inj (a b : Z) : Z_toString a = Z_toString b -> a = b.
Proof.
  unfold Z_toString. intros E.
  apply (f_equal NilZero.int_of_string) in E.
  destruct (to_int_not_nil a) as [Ha1 Ha2], (to_int_not_nil b) as [Hb1 Hb2].
  rewrite !NilZero.isi in E by assumption.
  inversion E as [E']. now apply DecimalZ.to_int_inj.
Qed.

Lemma ruleId_inj (a b : Z) : ruleId a = ruleId b -> a = b.
Proof.
  unfold ruleId. simpl. intros E. inversion E. now apply Z_toString_inj.
Qed.

Lemma parseRuleText_id (ruleText : string) (n : Z) (r : DesignRule) :
  parseRuleText ruleText n = Some r -> id r = ruleId n.
Proof.
  unfold parseRuleText. cbv zeta.
  repeat match goal with
         | |- (if ?b then _ else _) = Some r -> _ => destruct b
         end;
    try discriminate; intros H; inversion H; reflexivity.
Qed.

Lemma StronglySorted_snoc (l : list Z) (x : Z) :
  StronglySorted Z.lt l -> Forall (fun y => y < x) l ->
  StronglySorted Z.lt (l ++ [x]).
Proof.
  induction 1 as [ | a l Hs IH Ha ]; intros Hx; simpl.
  - repeat constructor.
  - inversion Hx; subst. constructor; [ now apply IH | ].
    apply Forall_app. split; [ exact Ha | repeat constructor; assumption ].
Qed.

Section RuleIds.
Variable lexer : string -> list Token.

Lemma pushRule_ids (st : St) (ruleText : string) :
  idsUpTo st -> idsUpTo (pushRule st ruleText).
Proof.
  destruct st as [rules c]. intros [ks [Hids [Hs [Hb Hc]]]]. simpl in *.
  unfold pushRule, idsUpTo.
  destruct (parseRuleText ruleText (c + 1)) as [ r | ] eqn:E; simpl.
  - exists (ks ++ [c + 1]). rewrite !map_app, Hids. simpl.
    rewrite (parseRuleText_id _ _ _ E).
    split; [ reflexivity | ]. split; [ | split; [ | lia ] ].
    + apply StronglySorted_snoc; [ exact Hs | ].
      refine (Forall_impl _ _ Hb). intros k Hk. lia.
    + apply Forall_app. split.
      * refine (Forall_impl _ _ Hb). intros k Hk. lia.
      * repeat constructor; lia.
  - exists ks. repeat split; auto; try lia.
    refine (Forall_impl _ _ Hb). intros k Hk. lia.
Qed.

Lemma fold_left_ids {A : Type} (f : St -> A -> St) (l : list A) :
  (forall st a, idsUpTo st -> idsUpTo (f st a)) ->
  forall st, idsUpTo st -> idsUpTo (fold_left f l st).
Proof.
  intros Hf. induction l as [ | a l IH ]; intros st Hst; simpl; auto.
Qed.

Lemma stepToken_ids (st : St) (token : Token) :
  idsUpTo st -> idsUpTo (stepToken st token).
Proof.
  destruct token as [ items | text | ]; simpl; [ | | auto ].
  - apply fold_left_ids. intros st' item. apply pushRule_ids.
  - apply fold_left_ids. intros st' line Hst'.
    destruct (0 <? _)%nat; [ now apply pushRule_ids | exact Hst' ].
Qed.

Lemma parseMarkdownRules_ids (markdownText : string) :
  exists ks, map id (parseMarkdownRules lexer markdownText) = map ruleId ks /\
             StronglySorted Z.lt ks /\ Forall (fun k => 0 < k) ks.
Proof.
  assert (H : idsUpTo (fold_left stepToken (lexer markdownText) ([], 0))).
  { apply fold_left_ids; [ apply stepToken_ids | ].
    exists []. simpl. repeat split; try constructor; lia. }
  destruct H as [ks [Hids [Hs [Hb _]]]].
  exists ks. split; [ exact Hids | ]. split; [ exact Hs | ].
  refine (Forall_impl _ _ Hb). intros k Hk. lia.
Qed.

End RuleIds.

Lemma StronglySorted_lt_NoDup (ks : list Z) : StronglySorted Z.lt ks -> NoDup ks.
Proof.
  induction 1 as [ | a l Hs IH Ha ]; constructor; [ | exact IH ].
  intros Hin. rewrite Forall_forall in Ha. specialize (Ha a Hin). lia.
Qed.

(** X14.  Within one call of [parseMarkdownRules] the rule ids are
    [rule-k] for strictly ascending positive numbers [k], in the order of
    the rules; no two rules of the result share an id. *)
Theorem rule_ids_are_ascending_and_unique
        (lexer : string -> list Token) (markdownText : string) :
  (exists ks, map id (parseMarkdownRules lexer markdownText) = map ruleId ks /\
              StronglySorted Z.lt ks /\ Forall (fun k => 0 < k) ks) /\
  NoDup (map id (parseMarkdownRules lexer markdownText)).
Proof.
  destruct (parseMarkdownRules_ids lexer markdownText) as [ks [Hids [Hs Hpos]]].
  split; [ exists ks; auto | ].
  rewrite Hids. apply Finite.Injective_map_NoDup.
  - intros a b. apply ruleId_inj.
  - now apply StronglySorted_lt_NoDup.
Qed.

(** *** Allow-lists *)

Lemma allChars_trimStart (p : ascii -> bool) (s : string) :
  allChars p s = true -> allChars p (trimStart s) = true.
Proof.
  induction s as [ | c s IH ]; simpl; [ reflexivity | ].
  intros H. destruct (isSpace c); [ | exact H ].
  apply andb_true_iff in H. now apply IH.
Qed.

Lemma allChars_trimEnd (p : ascii -> bool) (s : string) :
  allChars p s = true -> allChars p (trimEnd s) = true.
Proof.
  induction s as [ | c s IH ]; simpl; [ reflexivity | ].
  intros H. apply andb_true_iff in H. destruct H as [Hc Hs].
  specialize (IH Hs). destruct (trimEnd s) as [ | c' s' ].
  - destruct (isSpace c); simpl; [ reflexivity | now rewrite Hc ].
  - simpl in *. now rewrite Hc, IH.
Qed.

Lemma allChars_trim (p : ascii -> bool) (s : string) :
  allChars p s = true -> allChars p (trim s) = true.
Proof. intros H. unfold trim. now apply allChars_trimEnd, allChars_trimStart. Qed.

(** A comma or an ampersand is a separator wherever it stands. *)
Lemma matchAt_separator (pos : nat) (c : ascii) (s : string) :
  commaOrAmp c = true ->
  exists m, matchAt false reListSep pos (String c s) = Some m /\
            matchLen m = (S pos - pos)%nat.
Proof.
  intros Hc. unfold matchAt, reListSep. simpl. rewrite Hc.
  eexists. split; reflexivity.
Qed.

(** The pieces of a split hold no comma and no ampersand, and no dot
    when the text holds none. *)
Lemma splitGo_plain (s : string) :
  forall (pos : nat) (cur : string) (skip : nat),
    allChars notDot s = true ->
    allChars plainChar cur = true ->
    Forall (fun piece => allChars plainChar piece = true)
           (splitGo reListSep pos s cur skip).
Proof.
  induction s as [ | c s IH ]; intros pos cur skip Hs Hcur; simpl.
  - repeat constructor. exact Hcur.
  - simpl in Hs. apply andb_true_iff in Hs. destruct Hs as [Hc Hs].
    assert (Hplain : commaOrAmp c = false ->
                     allChars plainChar (String c "") = true).
    { intros Hsep. simpl. unfold plainChar. now rewrite Hc, Hsep. }
    destruct skip as [ | skip ]; [ | now apply IH ].
    destruct (commaOrAmp c) eqn:Esep.
    + destruct (matchAt_separator pos c s Esep) as [m [Hm Hlen]].
      rewrite Hm. destruct (matchLen m) as [ | n ]; [ lia | ].
      constructor; [ exact Hcur | now apply IH ].
    + specialize (Hplain eq_refl).
      destruct (matchAt false reListSep pos (String c s)) as [ m | ].
      * destruct (matchLen m) as [ | n ].
        -- destruct (cur =? "")%string.
           ++ now apply IH.
           ++ constructor; [ exact Hcur | now apply IH ].
        -- constructor; [ exact Hcur | now apply IH ].
      * apply IH; [ exact Hs | ].
        rewrite allChars_app. now rewrite Hcur, Hplain.
Qed.

Lemma splitList_plain (s : string) :
  allChars notDot s = true ->
  Forall (fun v => v <> "" /\ allChars plainChar v = true) (splitList s).
Proof.
  intros Hs. unfold splitList. apply Forall_forall. intros v Hv.
  apply filter_In in Hv. destruct Hv as [Hin Htruthy].
  split.
  - intros ->. discriminate.
  - apply in_map_iff in Hin. destruct Hin as [piece [<- Hin]].
    apply allChars_trim.
    assert (Hall : Forall (fun piece => allChars plainChar piece = true)
                          (split reListSep s)).
    { unfold split. destruct s as [ | c s ].
      - destruct (matchAt false reListSep 0 ""); repeat constructor.
      - now apply splitGo_plain. }
    rewrite Forall_forall in Hall. now apply Hall.
Qed.

(** X15.  The allowed values that the compiler extracts are never empty
    and hold no comma, no ampersand and no dot. *)
Theorem allowed_values_are_plain_words (text : string) :
  Forall (fun v => v <> "" /\ allChars plainChar v = true)
         (extractAllowedValues text).
Proof.
  unfold extractAllowedValues.
  destruct (exec true reAllowedColon text) as [ m | ] eqn:E1.
  { apply splitList_plain.
    apply (exec_capture_word notDot reAllowedColon true text m); [ | exact E1 ].
    unfold reAllowedColon. sets_group. }
  destruct (exec true reOnly text) as [ m | ] eqn:E2; [ | constructor ].
  apply splitList_plain.
  apply (exec_capture_word notDot reOnly true text m); [ | exact E2 ].
  unfold reOnly. sets_group.
Qed.

(** *** Compiled image rules *)

Lemma parseRuleText_image (ruleText : string) (n : Z) (r : DesignRule) :
  parseRuleText ruleText n = Some r -> type r = Image ->
  forbidden (parameters r) = Some ["all"] /\
  slideTypes (parameters r) = Some (extractSlideTypes (RulesParser.description r)).
Proof.
  unfold parseRuleText. cbv zeta.
  repeat match goal with
         | |- (if ?b then _ else _) = Some r -> _ => destruct b
         end;
    try discriminate; intros H; inversion H; subst r; simpl;
    intros Hty; try discriminate Hty; split; reflexivity.
Qed.

(** X16.  An image rule that the compiler produced passes a slide exactly
    when the slide has no image, or when the statement names content
    slides and neither title slides nor all slides; the number of the
    slide plays no part. *)
Theorem compiled_image_rule_passes_iff
        (ruleText : string) (n : Z) (r : DesignRule) (s : SlideContent) :
  parseRuleText ruleText n = Some r ->
  type r = Image ->
  (validateImageRule s r = [] <->
   images s = [] \/
   (includes (RulesParser.description r) "content slide" = true /\
    includes (RulesParser.description r) "title slide" = false /\
    includes (RulesParser.description r) "all slide" = false)).
Proof.
  intros Hparse Hty.
  destruct (parseRuleText_image _ _ _ Hparse Hty) as [Hf Hs].
  unfold validateImageRule. rewrite Hf, Hs. unfold extractSlideTypes.
  destruct (includes (RulesParser.description r) "title slide");
    destruct (includes (RulesParser.description r) "content slide");
    destruct (includes (RulesParser.description r) "all slide");
    destruct (slideNumber s =? 1);
    destruct (images s) as [ | i l ]; simpl;
    split; intros H; auto; try discriminate;
    destruct H as [H | [H1 [H2 H3]]]; discriminate.
Qed.

Lemma compiled_image_rule_passes_iff_witness :
  validateImageRule (mkSlide 2 [] [embedded "rId2"]) titleImageRule = [] <->
  images (mkSlide 2 [] [embedded "rId2"]) = [] \/
  (includes (RulesParser.description titleImageRule) "content slide" = true /\
   includes (RulesParser.description titleImageRule) "title slide" = false /\
   includes (RulesParser.description titleImageRule) "all slide" = false).
Proof.
  apply (compiled_image_rule_passes_iff "no images allowed on title slides" 1).
  - vm_compute. reflexivity.
  - reflexivity.
Defined.

(* ===================================================================== *)
(** ** Further properties of the package extractor *)
(* ===================================================================== *)

Section ExtractorInvariants.

Variable parse : XMLOptions -> string -> Result Node.

(** What holds of every slide that [parseSlideXml] returns holds of every
    slide that the loop pushes. *)
Lemma parseSlides_Forall (P : SlideContent -> Prop) (zip : JSZip) (files : list string) :
  (forall xml n s, parseSlideXml parse xml n = Ok s -> P s) ->
  forall (i : Z) (acc res : list SlideContent),
    Forall P acc ->
    parseSlides parse zip files i acc = Ok res ->
    Forall P res.
Proof.
  intros HP. induction files as [ | f rest IH ]; intros i acc res Hacc H; simpl in H.
  - inversion H; subst. exact Hacc.
  - destruct (zipFile zip f) as [ o | ]; simpl in H; [ | eauto ].
    destruct (asyncString o) as [ xml | e ]; simpl in H; [ | discriminate ].
    destruct (truthyString xml); [ | eauto ].
    destruct (parseSlideXml parse xml (i + 1)) as [ s | e ] eqn:Es;
      simpl in H; [ | discriminate ].
    apply (IH _ _ _ (proj2 (Forall_app _ _ _) (conj Hacc (Forall_cons _ (HP _ _ _ Es) (Forall_nil _)))) H).
Qed.

Lemma parseSlideXml_bare (xml : string) (n : Z) (s : SlideContent) :
  parseSlideXml parse xml n = Ok s ->
  images s = [] /\ shapes s = [] /\ background s = None.
Proof.
  unfold parseSlideXml. destruct (parse slideOptions xml); simpl; [ | discriminate ].
  intros H. inversion H. simpl. auto.
Qed.

End ExtractorInvariants.

(** X17.  The extractor built on fast-xml-parser never fills [images],
    [shapes] or [background]: every slide of a presentation it returns
    has none of them, so no image rule ever yields a violation on such a
    presentation. *)
Theorem extracted_slides_have_no_images
        (parse : XMLOptions -> string -> Result Node)
        (load : string -> Result JSZip)
        (file : string) (p : ParsedPresentation) :
  parsePptxFile parse load file = Ok p ->
  Forall (fun s => images s = [] /\ shapes s = [] /\ background s = None) (slides p) /\
  forall rules : list DesignRule,
    Forall (fun r => type r = Image) rules ->
    validatePresentation p rules = [].
Proof.
  intros Hok.
  assert (Hbare : Forall (fun s => images s = [] /\ shapes s = [] /\ background s = None)
                         (slides p)).
  { unfold parsePptxFile in Hok.
    destruct (load file) as [ zip | e ]; simpl in Hok; [ | discriminate ].
    destruct (parseSlides parse zip (slideFilesOf zip) 0 []) as [ ss | e ] eqn:Es;
      simpl in Hok; [ | discriminate ].
    destruct (parseTheme parse zip) as [ th | e ]; simpl in Hok; [ | discriminate ].
    inversion Hok; subst p. simpl.
    refine (parseSlides_Forall parse _ zip _ _ 0 [] ss (Forall_nil _) Es).
    apply parseSlideXml_bare. }
  split; [ exact Hbare | ].
  intros rules Hrules. unfold validatePresentation.
  apply flat_map_nil_iff. refine (Forall_impl _ _ Hrules). intros r Hty.
  apply flat_map_nil_iff. refine (Forall_impl _ _ Hbare). intros s [Hi _].
  unfold validateSlideAgainstRule, validateImageRule. rewrite Hty, Hi. simpl.
  destruct (_ || _); [ | reflexivity ]. now rewrite andb_false_r.
Qed.

Lemma extracted_slides_have_no_images_witness :
  Forall (fun s => images s = [] /\ shapes s = [] /\ background s = None)
         (slides deckThree) /\
  forall rules : list DesignRule,
    Forall (fun r => type r = Image) rules ->
    validatePresentation deckThree rules = [].
Proof.
  apply (extracted_slides_have_no_images strictParse (loadAs zipThree) "deck.pptx").
  vm_compute. reflexivity.
Defined.

(** *** The order of the slide parts *)

Section SortFacts.
Context {A : Type}.
Variable compareFn : A -> A -> number.
Variable key : A -> Z.
Hypothesis compareFn_key :
  forall a b, gt (compareFn a b) (ofZ 0) = true <-> key b < key a.








End SortFacts.








(** X19.  The theme is not optional once its part exists: when
    [ppt/theme/theme1.xml] is in the package and cannot be read or does
    not parse, the extraction fails with the general error although every
    slide part was extracted. *)
Theorem unreadable_theme_aborts_extraction
        (parse : XMLOptions -> string -> Result Node)
        (load : string -> Result JSZip)
        (file : string) (zip : JSZip) (ss : list SlideContent)
        (themeFile : ZipObject) (e : string) :
  load file = Ok zip ->
  parseSlides parse zip (slideFilesOf zip) 0 [] = Ok ss ->
  zipFile zip "ppt/theme/theme1.xml" = Some themeFile ->
  asyncString themeFile = Err e
  \/ (exists xml, asyncString themeFile = Ok xml /\ parse defaultOptions xml = Err e) ->
  parsePptxFile parse load file = Err PARSE_ERROR.
Proof.
  intros Hload Hslides Hzip Hfail.
  unfold parsePptxFile. rewrite Hload. simpl. rewrite Hslides. simpl.
  unfold parseTheme. rewrite Hzip.
  destruct Hfail as [Ha | [xml [Ha Hp]]]; rewrite Ha; simpl; [ reflexivity | ].
  unfold parseThemeXml, parseXml. rewrite Hp. reflexivity.
Qed.

Lemma unreadable_theme_aborts_extraction_witness :
  parsePptxFile strictParse
                (loadAs (zipThree ++ [entry "ppt/theme/theme1.xml" "<p:sld"]))
                "deck.pptx"
  = Err PARSE_ERROR.
Proof.
  apply (unreadable_theme_aborts_extraction
           strictParse _ "deck.pptx"
           (zipThree ++ [entry "ppt/theme/theme1.xml" "<p:sld"])
           (slides deckThree)
           (entry "ppt/theme/theme1.xml" "<p:sld") "Unclosed tag").
  - reflexivity.
  - vm_compute. reflexivity.
  - reflexivity.
  - right. exists "<p:sld". split; reflexivity.
Defined.

(** *** Numbers written and read back *)

Lemma append_empty_r (s : string) : s +++ "" = s.
Proof. induction s as [ | c s IH ]; simpl; [ reflexivity | now rewrite IH ]. Qed.

Lemma Qred_inject_Z (z : Z) : Qred (inject_Z z) = inject_Z z.
Proof.
  unfold Qred, inject_Z.
  pose proof (Z.ggcd_gcd z 1) as Hg.
  pose proof (Z.ggcd_correct_divisors z 1) as Hd.
  destruct (Z.ggcd z 1) as [g [a b]]. simpl in *.
  rewrite Z.gcd_1_r in Hg. subst g. destruct Hd as [Ha Hb].
  rewrite Z.mul_1_l in Ha, Hb. subst a b. reflexivity.
Qed.

(** A natural number prints as its decimal digits. *)
Lemma numberToString_ofZ (z : Z) : 0 <= z -> numberToString (ofZ z) = Z_toString z.
Proof.
  intros Hz. unfold numberToString, ofZ. rewrite Qred_inject_Z.
  cbn [Qnum Qden inject_Z].
  rewrite Z.abs_eq by exact Hz. rewrite Z.div_1_r, Z.mod_1_r.
  assert (E : (z <? 0) = false) by (apply Z.ltb_ge; exact Hz).
  rewrite E, Z.eqb_refl. cbn [String.append]. apply append_empty_r.
Qed.

Lemma digitsValue_digit (c : ascii) (s : string) (a : Z) :
  isDigit c = true ->
  digitsValue (String c s) (Some a) = digitsValue s (Some (a * 10 + digitVal c)).
Proof. intros Hc. simpl. now rewrite Hc. Qed.

Lemma digitsValue_first (c : ascii) (s : string) :
  isDigit c = true ->
  digitsValue (String c s) None = digitsValue s (Some (digitVal c)).
Proof. intros Hc. simpl. now rewrite Hc. Qed.

Lemma digitsValue_of_uint_acc (d : Decimal.uint) :
  forall a : positive,
    digitsValue (NilEmpty.string_of_uint d) (Some (Zpos a))
    = Some (Zpos (Pos.of_uint_acc d a)).
Proof.
  induction d as [ | d IH | d IH | d IH | d IH | d IH | d IH | d IH | d IH
                 | d IH | d IH ]; intros a; [ reflexivity | .. ];
    cbn [NilEmpty.string_of_uint Pos.of_uint_acc];
    rewrite digitsValue_digit by reflexivity;
    rewrite <- IH; do 2 f_equal; unfold digitVal; simpl N_of_ascii; lia.
Qed.

Lemma digitsValue_of_uint_zero (d : Decimal.uint) :
  digitsValue (NilEmpty.string_of_uint d) (Some 0)
  = Some (Z.of_N (Pos.of_uint d)).
Proof.
  induction d as [ | d IH | d IH | d IH | d IH | d IH | d IH | d IH | d IH
                 | d IH | d IH ]; [ reflexivity | .. ];
    cbn [NilEmpty.string_of_uint Pos.of_uint];
    rewrite digitsValue_digit by reflexivity;
    [ exact IH | .. ];
    cbn [Z.of_N]; rewrite <- digitsValue_of_uint_acc; reflexivity.
Qed.

Lemma digitsValue_of_uint (d : Decimal.uint) :
  d <> Decimal.Nil ->
  digitsValue (NilEmpty.string_of_uint d) None = Some (Z.of_N (Pos.of_uint d)).
Proof.
  destruct d as [ | d | d | d | d | d | d | d | d | d | d ]; intros Hne;
    [ congruence | .. ];
    cbn [NilEmpty.string_of_uint Pos.of_uint];
    rewrite digitsValue_first by reflexivity;
    [ apply digitsValue_of_uint_zero | .. ];
    cbn [Z.of_N]; rewrite <- digitsValue_of_uint_acc; reflexivity.
Qed.

Lemma string_of_uint_digits (d : Decimal.uint) :
  allChars isDigit (NilEmpty.string_of_uint d) = true.
Proof. induction d; simpl; auto. Qed.

(** [parseInt] reads the digits of a natural number back. *)
Lemma parseInt_Z_toString (z : Z) : 0 <= z -> parseInt (Z_toString z) = ofZ z.
Proof.
  intros Hz. destruct z as [ | p | p ]; [ reflexivity | | lia ].
  unfold Z_toString. cbn [Z.to_int NilZero.string_of_int].
  pose proof (Unsigned.to_uint_nonnil p) as Hne.
  assert (E : NilZero.string_of_uint (Pos.to_uint p)
              = NilEmpty.string_of_uint (Pos.to_uint p)).
  { destruct (Pos.to_uint p); [ congruence | .. ]; reflexivity. }
  rewrite E.
  assert (Hw : word isDigit (NilEmpty.string_of_uint (Pos.to_uint p))).
  { split; [ | apply string_of_uint_digits ].
    destruct (Pos.to_uint p); [ congruence | .. ]; discriminate. }
  destruct (parseInt_word_value _ Hw) as [v [Hv [_ Hp]]].
  rewrite (digitsValue_of_uint _ Hne), Unsigned.of_to in Hv.
  inversion Hv; subst v. exact Hp.
Qed.

(** [parseInt] of a text without any digit, and of a text of zeros. *)
Lemma parseInt_no_digit (raw : string) :
  allChars notDigit raw = true -> parseInt raw = NaN.
Proof.
  intros Hall.
  assert (Hd : forall s, allChars notDigit s = true -> digitsValue s None = None).
  { intros [ | c s ] H; [ reflexivity | ].
    simpl in H. apply andb_true_iff in H. destruct H as [Hc _].
    unfold notDigit in Hc. apply negb_true_iff in Hc. simpl. now rewrite Hc. }
  unfold parseInt. apply (allChars_trimStart notDigit) in Hall.
  destruct (trimStart raw) as [ | c r ]; [ reflexivity | ].
  pose proof (Hd _ Hall) as Hs.
  simpl in Hall. apply andb_true_iff in Hall. destruct Hall as [Hc Hr].
  pose proof (Hd _ Hr) as Hr'.
  destruct c as [[] [] [] [] [] [] [] []]; try discriminate Hc;
    cbv beta iota zeta; rewrite ?Hr', ?Hs; reflexivity.
Qed.

Lemma digitsValue_zeros (s : string) :
  allChars isZero s = true -> digitsValue s (Some 0) = Some 0.
Proof.
  induction s as [ | c s IH ]; simpl; [ reflexivity | ].
  intros H. apply andb_true_iff in H. destruct H as [Hc Hs].
  apply Ascii.eqb_eq in Hc. subst c. exact (IH Hs).
Qed.

Lemma parseInt_zeros (raw : string) : word isZero raw -> parseInt raw = ofZ 0.
Proof.
  intros [Hne Hall].
  assert (Hw : word isDigit raw).
  { split; [ exact Hne | ]. clear Hne.
    induction raw as [ | c s IH ]; [ reflexivity | ].
    simpl in Hall. apply andb_true_iff in Hall. destruct Hall as [Hc Hs].
    apply Ascii.eqb_eq in Hc. subst c. simpl. exact (IH Hs). }
  destruct (parseInt_word_value raw Hw) as [v [Hv [_ Hp]]].
  destruct raw as [ | c s ]; [ congruence | ].
  simpl in Hall. apply andb_true_iff in Hall. destruct Hall as [Hc Hs].
  apply Ascii.eqb_eq in Hc. subst c.
  rewrite digitsValue_first in Hv by reflexivity.
  change (digitVal "0") with 0 in Hv. rewrite (digitsValue_zeros s Hs) in Hv.
  inversion Hv; subst v. exact Hp.
Qed.

(** X20.  The size of a run is what its tree holds under [sz], read as an
    integer and divided by 100.  A string of at most 15 digits, or a
    natural number below 10^15 other than 0, gives that number of
    hundredths of a point.  A run whose [sz] is missing, a string
    without any digit (the empty string is one), a string of zeros, the
    number 0 or NaN, a boolean or an object gets no usable size and is
    never flagged by the font-size checker. *)
Theorem font_size_attribute (rPr : option Node) :
  (forall raw : string,
      prop "@_sz" rPr = Some (NString raw) ->
      word isDigit raw -> (String.length raw <= 15)%nat ->
      exists z, 0 <= z < 10 ^ 15 /\ parseInt raw = ofZ z /\
                extractFontSize rPr = Some (Num (Qred (inject_Z z / inject_Z 100)))) /\
  (forall z : Z,
      prop "@_sz" rPr = Some (NNumber (ofZ z)) -> 0 < z < 10 ^ 15 ->
      extractFontSize rPr = Some (Num (Qred (inject_Z z / inject_Z 100)))) /\
  (noSize (prop "@_sz" rPr) ->
   forall (s : SlideContent) (r : DesignRule) (t : TextRun),
     fontSize t = extractFontSize rPr -> fontSizeRun s r t = []).
Proof.
  split; [ | split ].
  - intros raw Hraw Hw Hlen. destruct (parseInt_short raw Hw Hlen) as [z [Hz Hp]].
    exists z. split; [ exact Hz | ]. split; [ exact Hp | ].
    unfold extractFontSize. rewrite Hraw.
    destruct Hw as [Hne _]. destruct raw as [ | c raw ]; [ congruence | ].
    cbn [truthy truthyString toStringNode]. simpl negb. cbv iota.
    rewrite Hp. reflexivity.
  - intros z Hraw Hz. unfold extractFontSize. rewrite Hraw.
    cbn [truthy toStringNode].
    assert (Ht : truthyNumber (ofZ z) = true).
    { unfold truthyNumber, ofZ. apply negb_true_iff.
      destruct (Qeq_bool (inject_Z z) 0) eqn:E; [ | reflexivity ].
      apply Qeq_bool_eq in E. unfold Qeq, inject_Z in E. simpl in E. lia. }
    rewrite Ht, numberToString_ofZ, parseInt_Z_toString by lia. reflexivity.
  - intros Hno s r t Ht. unfold fontSizeRun. rewrite Ht. unfold extractFontSize.
    destruct Hno as [ | raw Hraw | raw Hraw | x Hx | b | entries ];
      cbn [truthy toStringNode].
    + reflexivity.
    + destruct (truthyString raw); [ | reflexivity ].
      rewrite (parseInt_no_digit raw Hraw). reflexivity.
    + destruct (truthyString raw); [ | reflexivity ].
      rewrite (parseInt_zeros raw Hraw). reflexivity.
    + rewrite Hx. reflexivity.
    + destruct b; reflexivity.
    + reflexivity.
Qed.

Lemma font_size_attribute_witness :
  (exists z, 0 <= z < 10 ^ 15 /\ parseInt "2450" = ofZ z /\
             extractFontSize (Some (NObject [("@_sz", NString "2450")]))
             = Some (Num (Qred (inject_Z z / inject_Z 100)))) /\
  extractFontSize (Some (NObject [("@_sz", NNumber (ofZ 2400))]))
  = Some (Num (Qred (inject_Z 2400 / inject_Z 100))) /\
  fontSizeRun (mkSlide 1 [] []) min36Rule
              (mkRun "Hello" (extractFontSize (Some (NObject [("@_sz", NString "huge")]))))
  = [].
Proof.
  split; [ | split ].
  - apply (proj1 (font_size_attribute (Some (NObject [("@_sz", NString "2450")])))).
    + reflexivity.
    + split; [ discriminate | reflexivity ].
    + simpl. lia.
  - apply (proj1 (proj2 (font_size_attribute
                           (Some (NObject [("@_sz", NNumber (ofZ 2400))]))))).
    + reflexivity.
    + lia.
  - apply (proj2 (proj2 (font_size_attribute
                           (Some (NObject [("@_sz", NString "huge")]))))).
    + apply ns_text. reflexivity.
    + reflexivity.
Defined.

(* ===================================================================== *)
(** ** The extractor built on xml2js *)
(* ===================================================================== *)

Import MoreFixtures.

Section Xml2jsFacts.

Variable parseString : string -> Result Node.

Lemma xml2js_parseSlides_Forall (P : SlideContent -> Prop) (zip : JSZip)
      (files : list string) :
  (forall xml n s, PptxParserXml2js.parseSlideXml parseString xml n = Ok s -> P s) ->
  forall (i : Z) (acc res : list SlideContent),
    Forall P acc ->
    PptxParserXml2js.parseSlides parseString zip files i acc = Ok res ->
    Forall P res.
Proof.
  intros HP. induction files as [ | f rest IH ]; intros i acc res Hacc H; simpl in H.
  - inversion H; subst. exact Hacc.
  - destruct (zipFile zip f) as [ o | ]; simpl in H; [ | eauto ].
    destruct (asyncString o) as [ xml | e ]; simpl in H; [ | discriminate ].
    destruct (truthyString xml); [ | eauto ].
    destruct (PptxParserXml2js.parseSlideXml parseString xml (i + 1))
      as [ s | e ] eqn:Es; simpl in H; [ | discriminate ].
    refine (IH _ _ _ _ H). apply Forall_app. split; [ exact Hacc | ].
    constructor; [ exact (HP _ _ _ Es) | constructor ].
Qed.

Lemma xml2js_parseSlideXml_shape (xml : string) (n : Z) (s : SlideContent) :
  PptxParserXml2js.parseSlideXml parseString xml n = Ok s ->
  Forall unformatted (texts s) /\
  Forall (fun t => content t <> "") (texts s) /\
  Forall (fun i => imageType i = "embedded" /\ name i <> "") (images s).
Proof.
  unfold PptxParserXml2js.parseSlideXml.
  destruct (parseString xml) as [ result | e ]; simpl; [ | discriminate ].
  intros H. inversion H; subst s; simpl. clear H.
  assert (Htruthy : forall x, truthyString x = true -> x <> "").
  { intros x Hx ->. discriminate. }
  split; [ | split ].
  - apply Forall_forall. intros t Ht. apply in_flat_map in Ht.
    destruct Ht as [el [_ Ht]]. destruct el as [ x | | | | ]; try destruct Ht.
    destruct (truthyString x); simpl in Ht; [ | destruct Ht ].
    destruct Ht as [<- | []]. repeat split.
  - apply Forall_forall. intros t Ht. apply in_flat_map in Ht.
    destruct Ht as [el [_ Ht]]. destruct el as [ x | | | | ]; try destruct Ht.
    destruct (truthyString x) eqn:E; simpl in Ht; [ | destruct Ht ].
    destruct Ht as [<- | []]. simpl. now apply Htruthy.
  - apply Forall_forall. intros i Hi. apply in_flat_map in Hi.
    destruct Hi as [img [_ Hi]].
    destruct (attr "r:embed" _) as [ embed | ]; [ | destruct Hi ].
    destruct (_ && truthyString embed) eqn:E; [ | destruct Hi ].
    apply andb_true_iff in E. destruct E as [_ E].
    destruct Hi as [<- | []]. simpl. split; [ reflexivity | now apply Htruthy ].
Qed.

End Xml2jsFacts.

(** X21.  The extractor built on xml2js records no formatting: every run
    of a presentation it returns has a non-empty text and no colour, size
    or family, and every image is an embedded one with a non-empty name;
    so colour, font-size and font-family rules never yield a violation on
    such a presentation. *)
Theorem xml2js_extractor_records_no_formatting
        (parseString : string -> Result Node)
        (load : string -> Result JSZip)
        (file : string) (p : ParsedPresentation) :
  PptxParserXml2js.parsePptxFile parseString load file = Ok p ->
  Forall (fun s =>
            Forall unformatted (texts s) /\
            Forall (fun t => content t <> "") (texts s) /\
            Forall (fun i => imageType i = "embedded" /\ name i <> "") (images s))
         (slides p) /\
  forall rules : list DesignRule,
    Forall (fun r => type r = Color \/ type r = FontSize \/ type r = FontFamily) rules ->
    validatePresentation p rules = [].
Proof.
  intros Hok.
  assert (Hshape : Forall (fun s =>
            Forall unformatted (texts s) /\
            Forall (fun t => content t <> "") (texts s) /\
            Forall (fun i => imageType i = "embedded" /\ name i <> "") (images s))
         (slides p)).
  { unfold PptxParserXml2js.parsePptxFile in Hok.
    destruct (load file) as [ zip | e ]; simpl in Hok; [ | discriminate ].
    destruct (PptxParserXml2js.parseSlides parseString zip (slideFilesOf zip) 0 [])
      as [ ss | e ] eqn:Es; simpl in Hok; [ | discriminate ].
    destruct (PptxParserXml2js.parseTheme parseString zip) as [ th | e ];
      simpl in Hok; [ | discriminate ].
    inversion Hok; subst p. simpl.
    refine (xml2js_parseSlides_Forall parseString _ zip _ _ 0 [] ss (Forall_nil _) Es).
    apply xml2js_parseSlideXml_shape. }
  split; [ exact Hshape | ].
  intros rules Hrules. unfold validatePresentation.
  apply flat_map_nil_iff. refine (Forall_impl _ _ Hrules). intros r Hty.
  apply flat_map_nil_iff. refine (Forall_impl _ _ Hshape). intros s [Hu _].
  unfold validateSlideAgainstRule. destruct Hty as [-> | [-> | ->]].
  - unfold validateColorRule. destruct (_ =? _)%nat; [ reflexivity | ].
    apply flat_map_nil_iff. refine (Forall_impl _ _ Hu).
    intros t [-> _]. reflexivity.
  - unfold validateFontSizeRule. apply flat_map_nil_iff.
    refine (Forall_impl _ _ Hu).
    intros t [_ [Hs _]]. unfold fontSizeRun. now rewrite Hs.
  - unfold validateFontFamilyRule. destruct (_ =? _)%nat; [ reflexivity | ].
    apply flat_map_nil_iff. refine (Forall_impl _ _ Hu).
    intros t [_ [_ ->]]. reflexivity.
Qed.

Lemma xml2js_extractor_records_no_formatting_witness :
  Forall (fun s =>
            Forall unformatted (texts s) /\
            Forall (fun t => content t <> "") (texts s) /\
            Forall (fun i => imageType i = "embedded" /\ name i <> "") (images s))
         (slides deckXml2js) /\
  forall rules : list DesignRule,
    Forall (fun r => type r = Color \/ type r = FontSize \/ type r = FontFamily) rules ->
    validatePresentation deckXml2js rules = [].
Proof.
  apply (xml2js_extractor_records_no_formatting treeParse (loadAs zipOne) "deck.pptx").
  vm_compute. reflexivity.
Defined.

(* ===================================================================== *)
(** ** The page *)
(* ===================================================================== *)

(** X22.  [handleSubmit] does nothing without a file or with blank rules.
    Otherwise it leaves [file] and [rules] as they are and ends with
    [isProcessing] false; when the package fails to parse, or when it
    parses and no rule is compiled, the results on display are left
    untouched and the last toast is a destructive "Error" toast with the
    message of the failure; in all other cases the violations on display
    are those of [validatePresentation] for the compiled rules, in the
    same order, [hasResults] is set and no toast is destructive. *)
Theorem handleSubmit_outcome
        (parsePptx : string -> Result ParsedPresentation)
        (lexer : string -> list Token) (st : IndexPage.State) :
  (IndexPage.nothingToDo st = true ->
   IndexPage.handleSubmit parsePptx lexer st = (st, [])) /\
  (IndexPage.nothingToDo st = false ->
   exists (f : string) (st' : IndexPage.State) (toasts : list IndexPage.Toast),
     IndexPage.file st = Some f /\
     IndexPage.handleSubmit parsePptx lexer st = (st', toasts) /\
     IndexPage.file st' = IndexPage.file st /\
     IndexPage.rules st' = IndexPage.rules st /\
     IndexPage.isProcessing st' = false /\
     match parsePptx f, parseMarkdownRules lexer (IndexPage.rules st) with
     | Ok p, (_ :: _) as designRules =>
         IndexPage.hasResults st' = true /\
         IndexPage.violations st'
         = map IndexPage.formatViolation (validatePresentation p designRules) /\
         Forall (fun t => IndexPage.destructive t = false) toasts
     | failure, _ =>
         IndexPage.hasResults st' = IndexPage.hasResults st /\
         IndexPage.violations st' = IndexPage.violations st /\
         exists earlier,
           toasts = earlier ++
                    [ {| IndexPage.title := "Error";
                         IndexPage.toastText :=
                           match failure with
                           | Err message => message
                           | Ok _ => IndexPage.NO_RULES
                           end;
                         IndexPage.destructive := true |} ] /\
           Forall (fun t => IndexPage.destructive t = false) earlier
     end).
Proof.
  unfold IndexPage.nothingToDo, IndexPage.handleSubmit. split.
  - destruct (IndexPage.file st) as [ f | ]; [ | reflexivity ].
    intros H. now rewrite H.
  - destruct (IndexPage.file st) as [ f | ] eqn:Ef; [ | discriminate ].
    intros H. rewrite H. unfold IndexPage.analyse.
    destruct (parsePptx f) as [ p | message ] eqn:Ep.
    + destruct (parseMarkdownRules lexer (IndexPage.rules st)) as [ | r rules ];
        simpl; exists f; eexists _, _;
        (split; [ reflexivity | ]); (split; [ reflexivity | ]); rewrite Ep; simpl.
      * repeat (split; [ reflexivity | ]).
        match goal with
        | |- exists e, [?a; ?b; ?c] = _ /\ _ => exists [a; b]
        end.
        split; [ reflexivity | ]. repeat constructor.
      * repeat (split; [ reflexivity | ]). repeat constructor.
    + simpl. exists f. eexists _, _.
      (split; [ reflexivity | ]); (split; [ reflexivity | ]); rewrite Ep; simpl.
      repeat (split; [ reflexivity | ]).
      match goal with
      | |- exists e, [?a; ?b] = _ /\ _ => exists [a]
      end.
      split; [ reflexivity | ]. repeat constructor.
Qed.

Lemma handleSubmit_outcome_witness :
  exists (f : string) (st' : IndexPage.State) (toasts : list IndexPage.Toast),
    IndexPage.file readyState = Some f /\
    IndexPage.handleSubmit (fun _ => Ok deckRun24) paragraphLexer readyState
    = (st', toasts) /\
    IndexPage.file st' = IndexPage.file readyState /\
    IndexPage.rules st' = IndexPage.rules readyState /\
    IndexPage.isProcessing st' = false /\
    IndexPage.hasResults st' = true /\
    IndexPage.violations st'
    = map IndexPage.formatViolation
          (validatePresentation deckRun24
             (parseMarkdownRules paragraphLexer (IndexPage.rules readyState))) /\
    Forall (fun t => IndexPage.destructive t = false) toasts.
Proof.
  apply (proj2 (handleSubmit_outcome (fun _ => Ok deckRun24) paragraphLexer readyState)).
  reflexivity.
Defined.

(* ===================================================================== *)
(** ** Descriptions *)
(* ===================================================================== *)

Lemma lowerChar_notUpper (c : ascii) : notUpper (lowerChar c) = true.
Proof. destruct c as [[] [] [] [] [] [] [] []]; reflexivity. Qed.

Lemma toLowerCase_notUpper (s : string) : allChars notUpper (toLowerCase s) = true.
Proof.
  induction s as [ | c s IH ]; simpl; [ reflexivity | ].
  now rewrite lowerChar_notUpper, IH.
Qed.

Lemma trimStart_head (s : string) (c : ascii) (r : string) :
  trimStart s = String c r -> isSpace c = false.
Proof.
  induction s as [ | a s IH ]; simpl; [ discriminate | ].
  destruct (isSpace a) eqn:E; [ exact IH | ].
  intros H. inversion H; subst. exact E.
Qed.

Lemma trimEnd_head (c : ascii) (r : string) :
  isSpace c = false -> exists r', trimEnd (String c r) = String c r'.
Proof.
  intros Hc. simpl. destruct (trimEnd r); [ rewrite Hc | ]; eauto.
Qed.

Lemma trimEnd_idem (s : string) : trimEnd (trimEnd s) = trimEnd s.
Proof.
  induction s as [ | c s IH ]; [ reflexivity | ].
  simpl. destruct (trimEnd s) as [ | a r ] eqn:E.
  - destruct (isSpace c) eqn:Ec; [ reflexivity | ]. simpl. now rewrite Ec.
  - change (trimEnd (String c (String a r)))
      with (match trimEnd (String a r) with
            | EmptyString => if isSpace c then EmptyString else String c EmptyString
            | r0 => String c r0
            end).
    now rewrite IH.
Qed.

Lemma trim_idem (s : string) : trim (trim s) = trim s.
Proof.
  unfold trim.
  assert (H : trimStart (trimEnd (trimStart s)) = trimEnd (trimStart s)).
  { destruct (trimStart s) as [ | c r ] eqn:E; [ reflexivity | ].
    pose proof (trimStart_head s c r E) as Hc.
    destruct (trimEnd_head c r Hc) as [r' ->]. simpl. now rewrite Hc. }
  rewrite H. apply trimEnd_idem.
Qed.

Lemma parseRuleText_description (ruleText : string) (n : Z) (r : DesignRule) :
  parseRuleText ruleText n = Some r ->
  RulesParser.description r = trim (replace false reBullet "" ruleText).
Proof.
  unfold parseRuleText. cbv zeta.
  repeat match goal with
         | |- (if ?b then _ else _) = Some r -> _ => destruct b
         end;
    try discriminate; intros H; inversion H; reflexivity.
Qed.

Section Descriptions.
Variable lexer : string -> list Token.

(** Every rule pushed comes from a lower-cased and trimmed statement. *)
Lemma pushRule_source (P : DesignRule -> Prop) (st : St) (x : string) :
  (forall n r, parseRuleText (trim (toLowerCase x)) n = Some r -> P r) ->
  Forall P (fst st) -> Forall P (fst (pushRule st (trim (toLowerCase x)))).
Proof.
  destruct st as [rules c]. intros HP Hst. simpl in *. 
  destruct (parseRuleText (trim (toLowerCase x)) (c + 1)) as [ r | ] eqn:E; simpl.
  - apply Forall_app. split; [ exact Hst | ]. repeat constructor. eauto.
  - exact Hst.
Qed.

Lemma fold_left_Forall {A : Type} (P : DesignRule -> Prop) (f : St -> A -> St)
      (l : list A) :
  (forall st a, Forall P (fst st) -> Forall P (fst (f st a))) ->
  forall st, Forall P (fst st) -> Forall P (fst (fold_left f l st)).
Proof.
  intros Hf. induction l as [ | a l IH ]; intros st Hst; simpl; auto.
Qed.

Lemma parseMarkdownRules_source (P : DesignRule -> Prop) (markdownText : string) :
  (forall x n r, parseRuleText (trim (toLowerCase x)) n = Some r -> P r) ->
  Forall P (parseMarkdownRules lexer markdownText).
Proof.
  intros HP. unfold parseMarkdownRules.
  apply fold_left_Forall; [ | constructor ].
  intros st token Hst. destruct token as [ items | text | ]; simpl; [ | | exact Hst ].
  - apply fold_left_Forall; [ | exact Hst ].
    intros st' item Hst'. apply pushRule_source; [ apply HP | exact Hst' ].
  - apply fold_left_Forall; [ | exact Hst ].
    intros st' line Hst'.
    destruct (0 <? _)%nat; [ | exact Hst' ].
    apply pushRule_source; [ apply HP | exact Hst' ].
Qed.

End Descriptions.

(** X23.  The description of every rule that [parseMarkdownRules] returns
    is not empty, holds no upper-case letter and has no white space at
    either end (trimming it again changes nothing). *)
Theorem descriptions_are_normalised
        (lexer : string -> list Token) (markdownText : string) :
  Forall (fun r =>
            RulesParser.description r <> "" /\
            allChars notUpper (RulesParser.description r) = true /\
            trim (RulesParser.description r) = RulesParser.description r)
         (parseMarkdownRules lexer markdownText).
Proof.
  apply parseMarkdownRules_source. intros x n r Hr.
  pose proof (parseRuleText_description _ _ _ Hr) as Hd.
  split; [ | split ].
  - intros E. rewrite Hd in E.
    assert (Hnone : parseRuleText (trim (toLowerCase x)) n = None).
    { unfold parseRuleText. cbv zeta. rewrite E. reflexivity. }
    congruence.
  - rewrite Hd, replace_bullet. apply allChars_trim.
    pose proof (allChars_trim notUpper _ (toLowerCase_notUpper x)) as Hall.
    destruct (trim (toLowerCase x)) as [ | c s ]; [ reflexivity | ].
    destruct (dashOrStar c); [ | exact Hall ].
    simpl in Hall. apply andb_true_iff in Hall.
    now apply allChars_trimStart.
  - rewrite Hd. apply trim_idem.
Qed.

(* ===================================================================== *)
(** ** Trees without a given key *)
(* ===================================================================== *)

Section NoKey.
Variable key : string.

Lemma lookup_noKey (k : string) (entries : list (string * Node)) :
  noKey key (NObject entries) = true -> noKeyOpt key (lookup k entries).
Proof.
  induction entries as [ | [k' v] entries IH ]; simpl; [ trivial | ].
  intros H. apply andb_true_iff in H. destruct H as [H1 H2].
  apply andb_true_iff in H1. destruct H1 as [_ Hv].
  destruct (k' =? k)%string; [ exact Hv | now apply IH ].
Qed.

Lemma lookup_absent (entries : list (string * Node)) :
  noKey key (NObject entries) = true -> lookup key entries = None.
Proof.
  induction entries as [ | [k' v] entries IH ]; simpl; [ reflexivity | ].
  intros H. apply andb_true_iff in H. destruct H as [H1 H2].
  apply andb_true_iff in H1. destruct H1 as [Hk _].
  apply negb_true_iff in Hk. rewrite Hk. now apply IH.
Qed.

Lemma prop_noKey (k : string) (o : option Node) :
  noKeyOpt key o -> noKeyOpt key (prop k o).
Proof.
  destruct o as [ [ | | | | entries ] | ]; simpl; trivial.
  apply lookup_noKey.
Qed.

Lemma prop_absent (o : option Node) : noKeyOpt key o -> prop key o = None.
Proof.
  destruct o as [ [ | | | | entries ] | ]; simpl; trivial.
  apply lookup_absent.
Qed.

Lemma first_noKey (o : option Node) : noKeyOpt key o -> noKeyOpt key (first o).
Proof.
  destruct o as [ [ s | | | l | entries ] | ]; simpl; trivial.
  - destruct s; simpl; trivial.
  - destruct l as [ | x l ]; simpl; trivial.
    intros H. apply andb_true_iff in H. tauto.
  - apply lookup_noKey.
Qed.

Lemma values_noKey (n : Node) :
  noKey key n = true -> Forall (fun v => noKey key v = true) (values n).
Proof.
  destruct n as [ s | | | l | entries ]; simpl; intros H; try constructor.
  - induction s as [ | c s IH ]; simpl; constructor; [ reflexivity | exact IH ].
  - apply Forall_forall. intros v Hv. rewrite forallb_forall in H. now apply H.
  - apply Forall_forall. intros v Hv. rewrite forallb_forall in H.
    apply in_map_iff in Hv. destruct Hv as [[k v'] [<- Hin]].
    specialize (H _ Hin). apply andb_true_iff in H. tauto.
Qed.

End NoKey.

(** Induction on a tree, with the property at hand for the elements of
    an array and for the values of an object. *)
Lemma Node_induction (P : Node -> Prop) :
  (forall s, P (NString s)) ->
  (forall x, P (NNumber x)) ->
  (forall b, P (NBoolean b)) ->
  (forall l, Forall P l -> P (NArray l)) ->
  (forall entries, Forall (fun kv => P (snd kv)) entries -> P (NObject entries)) ->
  forall n, P n.
Proof.
  intros HS HN HB HA HO.
  refine (fix ind (n : Node) : P n :=
            match n with
            | NString s => HS s
            | NNumber x => HN x
            | NBoolean b => HB b
            | NArray l =>
                HA l ((fix go (l : list Node) : Forall P l :=
                         match l with
                         | [] => Forall_nil _
                         | x :: l' => Forall_cons x (ind x) (go l')
                         end) l)
            | NObject entries =>
                HO entries
                   ((fix go (es : list (string * Node))
                     : Forall (fun kv => P (snd kv)) es :=
                       match es with
                       | [] => Forall_nil _
                       | kv :: es' => Forall_cons kv (ind (snd kv)) (go es')
                       end) entries)
            end).
Qed.

(** The search finds nothing in a tree that does not hold the tag. *)
Lemma findElementsRecursive_absent (key : string) (n : Node) :
  noKey key n = true -> findElementsRecursive n key = [].
Proof.
  induction n as [ s | x | b | l IH | entries IH ] using Node_induction;
    try reflexivity; simpl; intros H.
  - apply flat_map_nil_iff. rewrite forallb_forall in H.
    rewrite Forall_forall in *. intros x Hx. apply IH; [ exact Hx | now apply H ].
  - apply flat_map_nil_iff. rewrite forallb_forall in H.
    rewrite Forall_forall in *. intros kv Hkv.
    specialize (H _ Hkv). apply andb_true_iff in H. destruct H as [Hk Hv].
    apply negb_true_iff in Hk. rewrite Hk. now apply IH.
Qed.

(** X24.  The theme is read off trees of the xml2js shape only (arrays of
    children, attributes under [$]): on a tree none of whose objects has
    an entry named [$], which is what the parser returns when it is told
    to ignore attributes, [parseThemeXml] finds no colour and no font,
    whatever else the tree holds. *)
Theorem theme_without_attributes_is_empty
        (parse : XMLOptions -> string -> Result Node)
        (xmlContent : string) (result : Node) :
  parse defaultOptions xmlContent = Ok result ->
  noKey "$" result = true ->
  parseThemeXml parse xmlContent = Ok {| colors := []; fonts := [] |}.
Proof.
  intros Hparse Hno.
  assert (Hroot : noKeyOpt "$" (Some result)) by exact Hno.
  pose proof (first_noKey "$" _ (prop_noKey "$" "a:themeElements" _
               (prop_noKey "$" "a:theme" _ Hroot))) as Helems.
  assert (Hcolors : themeColors result = []).
  { unfold themeColors.
    pose proof (first_noKey "$" _ (prop_noKey "$" "a:clrScheme" _ Helems)) as Hcs.
    destruct (first (prop "a:clrScheme" _)) as [ cs | ]; [ | reflexivity ].
    destruct (truthy (Some cs)); [ | reflexivity ].
    apply flat_map_nil_iff. refine (Forall_impl _ _ (values_noKey "$" cs Hcs)).
    intros entry Hentry.
    assert (Hcolor : noKeyOpt "$" (first (prop "a:srgbClr" (first (Some entry))))).
    { apply first_noKey, prop_noKey, first_noKey. exact Hentry. }
    unfold attr. now rewrite (prop_absent "$" _ Hcolor). }
  assert (Hfonts : forall fb, noKeyOpt "$" fb -> extractFonts fb = []).
  { intros fb Hfb. unfold extractFonts. apply flat_map_nil_iff.
    destruct fb as [ b | ]; [ | constructor ].
    destruct (truthy (Some b)); [ | constructor ].
    refine (Forall_impl _ _ (values_noKey "$" b Hfb)).
    intros fontArr HfontArr. destruct fontArr as [ | | | l | ]; try reflexivity.
    apply flat_map_nil_iff.
    refine (Forall_impl _ _ (values_noKey "$" (NArray l) HfontArr)).
    intros font Hfont. unfold attr.
    now rewrite (prop_absent "$" (Some font) Hfont). }
  unfold parseThemeXml, parseXml. rewrite Hparse. simpl. f_equal. f_equal.
  - exact Hcolors.
  - unfold themeFonts.
    pose proof (first_noKey "$" _ (prop_noKey "$" "a:fontScheme" _ Helems)) as Hfs.
    destruct (truthy (first (prop "a:fontScheme" _))); [ | reflexivity ].
    rewrite !Hfonts; [ reflexivity | | ];
      apply first_noKey, prop_noKey; exact Hfs.
Qed.

Lemma theme_without_attributes_is_empty_witness :
  parseThemeXml (fun _ _ => Ok themeXml2js) "<a:theme>...</a:theme>"
  = Ok {| colors := [ "000000"; "4472C4" ];
          fonts := [ "Calibri Light"; "Calibri" ] |} /\
  parseThemeXml (fun _ _ => Ok themeFlat) "<a:theme>...</a:theme>"
  = Ok {| colors := []; fonts := [] |}.
Proof.
  split; [ reflexivity | ].
  apply (theme_without_attributes_is_empty
           (fun _ _ => Ok themeFlat) "<a:theme>...</a:theme>" themeFlat);
    reflexivity.
Defined.

(** X25.  A slide whose tree holds no [p:sp] element has no text run:
    the text of a slide is read from its shapes only. *)
Theorem slide_without_shapes_has_no_text
        (parse : XMLOptions -> string -> Result Node)
        (xmlContent : string) (n : Z) (result : Node) :
  parse slideOptions xmlContent = Ok result ->
  noKey "p:sp" result = true ->
  parseSlideXml parse xmlContent n
  = Ok {| slideNumber := n; texts := []; images := []; shapes := [];
          background := None |}.
Proof.
  intros Hparse Hno. unfold parseSlideXml. rewrite Hparse. simpl.
  now rewrite (findElementsRecursive_absent "p:sp" result Hno).
Qed.

Lemma slide_without_shapes_has_no_text_witness :
  parseSlideXml
    (fun _ _ => Ok (NObject [("p:sld", NObject [("p:pic", NString "")])]))
    "<p:sld><p:pic/></p:sld>" 3
  = Ok {| slideNumber := 3; texts := []; images := []; shapes := [];
          background := None |}.
Proof.
  apply (slide_without_shapes_has_no_text
           (fun _ _ => Ok (NObject [("p:sld", NObject [("p:pic", NString "")])]))
           "<p:sld><p:pic/></p:sld>" 3
           (NObject [("p:sld", NObject [("p:pic", NString "")])]));
    reflexivity.
Defined.
